(** * Timeline scraper: a shallow embedding of [selenium_twitter_scraper.py]

    The development follows the Python module function by function:
    [extract_tweet_data] (field extraction with its nested [try]/[except]
    blocks), [scrape_tweets] (the scroll loop) and [main] (the per-company
    loop that writes the summary table).

    Modelling conventions.
    - Python [str] is [string]: a text is the sequence of its code
      points, each below 256 (the Latin-1 range).  Case folding, white
      space, the digit tests, [int], [float] and the two regular
      expressions are those of CPython on this range; texts with other
      characters are outside the model.
    - A call that may raise returns [res A]; [Raise e] carries the
      exception class and its message.  Every class listed in [exn_class]
      derives from Python's [Exception].
    - A Selenium [WebElement] is the tree of answers it gives to
      [find_element], [find_elements], [get_attribute] and [.text].
    - The WebDriver is a state machine over an arbitrary state type [D]:
      each call returns its answer together with the next driver state.
    - A [float] is a binary64 value: a sign with an exact magnitude, an
      infinity or a NaN; [float(s)] and the product of two floats round
      to nearest, ties to even, as IEEE 754 prescribes. *)

From Stdlib Require Import ZArith QArith String Ascii List Bool Lia DecimalString.
From stdpp Require Import gmap strings.
Import ListNotations.

Local Set Warnings "-register-all".

Open Scope string_scope.

(** ** Exceptions and fallible results *)

Inductive exn_class :=
| TimeoutException
| NoSuchElementException
| WebDriverException
| AttributeError
| TypeError
| ValueError
| KeyError
| OSError
| EOFError.

Inductive exn := Exn (cls : exn_class) (msg : string).

Definition exn_cls (e : exn) : exn_class := let 'Exn c _ := e in c.

(** [str(e)] *)
Definition exn_str (e : exn) : string := let 'Exn _ m := e in m.

Inductive res (A : Type) :=
| Ok (a : A)
| Raise (e : exn).
Arguments Ok {A} a.
Arguments Raise {A} e.

Definition res_bind {A B} (m : res A) (k : A -> res B) : res B :=
  match m with
  | Ok a => k a
  | Raise e => Raise e
  end.

Declare Scope res_scope.
Delimit Scope res_scope with res.
Notation "'let?' x ':=' m 'in' k" := (res_bind m (fun x => k))
  (at level 10, x pattern, m at level 100, k at level 200) : res_scope.
Open Scope res_scope.

Definition is_NoSuchElement (e : exn) : bool :=
  match exn_cls e with NoSuchElementException => true | _ => false end.

Definition is_Timeout (e : exn) : bool :=
  match exn_cls e with TimeoutException => true | _ => false end.

(** [except NoSuchElementException: <default>] around [body]. *)
Definition except_NoSuchElement {A} (body : res A) (default : A) : res A :=
  match body with
  | Ok a => Ok a
  | Raise e => if is_NoSuchElement e then Ok default else Raise e
  end.

(** ** Python string operations used by the scraper *)

(** The decimal digits 0 to 9: what [\d] matches and what [int] and
    [float] read. *)
Definition is_digit (c : ascii) : bool :=
  let n := nat_of_ascii c in (48 <=? n)%nat && (n <=? 57)%nat.

(** [c.lower()]: the letters A to Z and the capital letters from
    U+00C0 to U+00DE, the multiplication sign U+00D7 apart. *)
Definition lower_char (c : ascii) : ascii :=
  let n := nat_of_ascii c in
  if ((65 <=? n)%nat && (n <=? 90)%nat)
     || ((192 <=? n)%nat && (n <=? 222)%nat && negb (n =? 215)%nat)
  then ascii_of_nat (n + 32) else c.

(** [s.lower()] *)
Fixpoint str_lower (s : string) : string :=
  match s with
  | EmptyString => EmptyString
  | String c t => String (lower_char c) (str_lower t)
  end.

(** [sub in s] *)
Fixpoint str_in (sub s : string) : bool :=
  String.prefix sub s ||
  match s with
  | EmptyString => false
  | String _ t => str_in sub t
  end.

(** [c in s] for a one-character needle *)
Fixpoint char_in (c : ascii) (s : string) : bool :=
  match s with
  | EmptyString => false
  | String d t => Ascii.eqb c d || char_in c t
  end.

(** [s.replace(c, '')] *)
Fixpoint str_remove (c : ascii) (s : string) : string :=
  match s with
  | EmptyString => EmptyString
  | String d t => if Ascii.eqb c d then str_remove c t else String d (str_remove c t)
  end.

Definition str_nonempty (s : string) : bool :=
  match s with EmptyString => false | _ => true end.

Fixpoint all_digits (s : string) : bool :=
  match s with
  | EmptyString => true
  | String c t => is_digit c && all_digits t
  end.

(** [c.isdigit()]: the decimal digits and the superscripts one, two
    and three (U+00B9, U+00B2, U+00B3). *)
Definition isdigit_char (c : ascii) : bool :=
  let n := nat_of_ascii c in
  is_digit c || (n =? 178)%nat || (n =? 179)%nat || (n =? 185)%nat.

Fixpoint all_isdigit (s : string) : bool :=
  match s with
  | EmptyString => true
  | String c t => isdigit_char c && all_isdigit t
  end.

(** [s.isdigit()] *)
Definition str_isdigit (s : string) : bool := str_nonempty s && all_isdigit s.

(** Longest prefix of digits, and what follows it. *)
Fixpoint span_digits (s : string) : string * string :=
  match s with
  | EmptyString => (EmptyString, EmptyString)
  | String c t =>
      if is_digit c
      then let '(ds, r) := span_digits t in (String c ds, r)
      else (EmptyString, s)
  end.

Fixpoint digits_value_from (acc : Z) (s : string) : Z :=
  match s with
  | EmptyString => acc
  | String c t => digits_value_from (10 * acc + (Z.of_nat (nat_of_ascii c) - 48)) t
  end.

(** The number written by a string of decimal digits. *)
Definition digits_value (s : string) : Z := digits_value_from 0 s.

(** CPython's default limit on the digits of an integer literal
    ([sys.int_info.default_max_str_digits]). *)
Definition int_max_str_digits : nat := 4300.

(** [int(s)] for a text of which [s.isdigit()] holds: the superscript
    digits are no decimal digits, and a text of more than
    [int_max_str_digits] digits is refused. *)
Definition py_int (s : string) : res Z :=
  if negb (all_digits s)
  then Raise (Exn ValueError ("invalid literal for int() with base 10: " ++ s))
  else if (String.length s <=? int_max_str_digits)%nat
  then Ok (digits_value s)
  else Raise (Exn ValueError
                "Exceeds the limit (4300 digits) for integer string conversion").

Fixpoint str_drop (n : nat) (s : string) : string :=
  match n, s with
  | O, _ => s
  | S m, EmptyString => EmptyString
  | S m, String _ t => str_drop m t
  end.

(** ** Floating-point numbers *)

(** A binary64 value: a sign with an exact magnitude (the magnitude 0
    with either sign is a zero), an infinity or a NaN. *)
Inductive float64 :=
| Fnum (negative : bool) (magnitude : Q)
| Finf (negative : bool)
| Fnan.

(** [a / b] rounded to the nearest integer, ties to even, for
    [b > 0]. *)
Definition round_half_even (a b : Z) : Z :=
  let m := (a / b)%Z in
  let r := (a mod b)%Z in
  if (2 * r <? b)%Z then m
  else if (b <? 2 * r)%Z then (m + 1)%Z
  else if Z.even m then m else (m + 1)%Z.

(** [n / (d * 2 ^ e)] as a fraction of integers. *)
Definition scaled (n d e : Z) : Z * Z :=
  if (0 <=? e)%Z then (n, (d * 2 ^ e)%Z) else ((n * 2 ^ (- e))%Z, d).

(** The power of two by which the significand of [n / d > 0] is
    scaled: the one that leaves 53 bits before the point, and -1074
    for the subnormal numbers. *)
Definition ulp_exponent (n d : Z) : Z :=
  let e0 := (Z.log2 n - Z.log2 d - 52)%Z in
  let '(a, b) := scaled n d e0 in
  Z.max (if (a / b <? 2 ^ 52)%Z then e0 - 1 else e0) (-1074).

(** The binary64 value nearest to the rational [q >= 0], ties to even:
    a significand of 53 bits scaled by a power of two, and an infinity
    from 2^1024 on. *)
Definition b64_round (negative : bool) (q : Q) : float64 :=
  let n := Qnum q in
  let d := Z.pos (Qden q) in
  if (n <=? 0)%Z then Fnum negative 0
  else
    let e := ulp_exponent n d in
    let '(a, b) := scaled n d e in
    let m := round_half_even a b in
    if (0 <=? e)%Z
    then if (2 ^ 1024 <=? m * 2 ^ e)%Z then Finf negative
         else Fnum negative (inject_Z (m * 2 ^ e))
    else Fnum negative (Qred (Qmake m (Z.to_pos (2 ^ (- e))))).

(** [a * b] on floats *)
Definition fmul (a b : float64) : float64 :=
  match a, b with
  | Fnan, _ => Fnan
  | _, Fnan => Fnan
  | Finf s, Finf t => Finf (xorb s t)
  | Finf s, Fnum t m => if Qeq_bool m 0 then Fnan else Finf (xorb s t)
  | Fnum s m, Finf t => if Qeq_bool m 0 then Fnan else Finf (xorb s t)
  | Fnum s m, Fnum t k => b64_round (xorb s t) (m * k)
  end.

(** The white space [float] strips from both ends of its argument:
    tab to carriage return and the blank, and the two spaces beyond
    ASCII (U+0085, U+00A0), which it first turns into blanks. *)
Definition float_space (c : ascii) : bool :=
  let n := nat_of_ascii c in
  ((9 <=? n)%nat && (n <=? 13)%nat) || (n =? 32)%nat
  || (n =? 133)%nat || (n =? 160)%nat.

Fixpoint lstrip_with (space : ascii -> bool) (s : string) : string :=
  match s with
  | EmptyString => EmptyString
  | String c t => if space c then lstrip_with space t else s
  end.

Fixpoint all_with (space : ascii -> bool) (s : string) : bool :=
  match s with
  | EmptyString => true
  | String c t => space c && all_with space t
  end.

Fixpoint rstrip_with (space : ascii -> bool) (s : string) : string :=
  match s with
  | EmptyString => EmptyString
  | String c t =>
      if all_with space s then EmptyString else String c (rstrip_with space t)
  end.

Definition strip_with (space : ascii -> bool) (s : string) : string :=
  rstrip_with space (lstrip_with space s).

(** The digit-group underscores of a numeric literal are dropped; each
    must stand between two digits.  [prev] is the character before
    [s]. *)
Fixpoint drop_underscores (prev : ascii) (s : string) : option string :=
  match s with
  | EmptyString => if Ascii.eqb prev "_" then None else Some EmptyString
  | String c t =>
      if Ascii.eqb c "_" then
        if is_digit prev then drop_underscores c t else None
      else if Ascii.eqb prev "_" && negb (is_digit c) then None
      else option_map (String c) (drop_underscores c t)
  end.

(** An optional sign and what follows it. *)
Definition split_sign (s : string) : bool * string :=
  match s with
  | String c t =>
      if Ascii.eqb c "-" then (true, t)
      else if Ascii.eqb c "+" then (false, t)
      else (false, s)
  | EmptyString => (false, s)
  end.

(** The exponent part at the head of [r], if there is one with at
    least one digit, and what follows it. *)
Definition split_exponent (r : string) : Z * string :=
  match r with
  | String c t =>
      if Ascii.eqb c "e" || Ascii.eqb c "E" then
        let '(negative, t') := split_sign t in
        let '(ds, r') := span_digits t' in
        if str_nonempty ds
        then ((if negative then - digits_value ds else digits_value ds)%Z, r')
        else (0%Z, r)
      else (0%Z, r)
  | EmptyString => (0%Z, r)
  end.

(** The rational [digits * 10 ^ scale]. *)
Definition decimal_q (digits : string) (scale : Z) : Q :=
  Qmake (digits_value digits * 10 ^ Z.max 0 scale)
        (Z.to_pos (10 ^ Z.max 0 (- scale))).

(** [float(s)]: white space at both ends is dropped; then an optional
    sign is followed by "inf", "infinity" or "nan" in any letter case,
    or by digits with an optional point and an optional exponent, with
    at least one digit before or after the point; digits may be
    grouped by single underscores.  Any other text raises
    [ValueError]. *)
Definition py_float (s : string) : res float64 :=
  let invalid :=
    Raise (Exn ValueError ("could not convert string to float: " ++ s)) in
  match drop_underscores "000" (strip_with float_space s) with
  | None => invalid
  | Some u =>
      let '(negative, body) := split_sign u in
      let word := str_lower body in
      if String.eqb word "inf" || String.eqb word "infinity"
      then Ok (Finf negative)
      else if String.eqb word "nan" then Ok Fnan
      else
        let '(ip, r1) := span_digits body in
        let '(fp, r2) :=
          match r1 with
          | String c t => if Ascii.eqb c "." then span_digits t else (EmptyString, r1)
          | EmptyString => (EmptyString, r1)
          end in
        let '(exponent, r3) := split_exponent r2 in
        if str_nonempty (ip ++ fp) && negb (str_nonempty r3)
        then Ok (b64_round negative
                   (decimal_q (ip ++ fp)
                      (exponent - Z.of_nat (String.length fp))))
        else invalid
  end.

(** [re.search(r"/status/(\d+)", s)], returning group 1 of the leftmost
    match. *)
Fixpoint search_status (s : string) : option string :=
  let here :=
    if String.prefix "/status/" s
    then let ds := fst (span_digits (str_drop 8 s)) in
         if str_nonempty ds then Some ds else None
    else None in
  match here with
  | Some g => Some g
  | None =>
      match s with
      | EmptyString => None
      | String _ t => search_status t
      end
  end.

Definition is_KMB (c : ascii) : bool :=
  Ascii.eqb c "K" || Ascii.eqb c "M" || Ascii.eqb c "B".

(** The text matched by [\d+(?:\.\d+)?[KMB]?] at the start of [s], which
    begins with a digit. *)
Definition count_token (s : string) : string :=
  let '(ip, r1) := span_digits s in
  let '(frac, r2) :=
    match r1 with
    | String c t =>
        let '(fp, r) := span_digits t in
        if Ascii.eqb c "." && str_nonempty fp
        then (String "." fp, r)
        else (EmptyString, r1)
    | EmptyString => (EmptyString, r1)
    end in
  let suffix :=
    match r2 with
    | String c _ => if is_KMB c then String c EmptyString else EmptyString
    | EmptyString => EmptyString
    end in
  ip ++ frac ++ suffix.

(** [re.search(r'(\d+(?:\.\d+)?[KMB]?)', s)], returning group 1. *)
Fixpoint search_count (s : string) : option string :=
  match s with
  | EmptyString => None
  | String c t => if is_digit c then Some (count_token s) else search_count t
  end.

(** ** Numbers stored in the metrics dictionary

    The conversion yields a Python [int] on the digits-only branch and a
    [float] on the suffix branches. *)

Inductive pynum :=
| PyInt (z : Z)
| PyFloat (f : float64).

(** [float(k)] for a small integer [k >= 0] *)
Definition float_of (k : Z) : float64 := Fnum false (inject_Z k).

(** [n > 0] *)
Definition num_pos (n : pynum) : bool :=
  match n with
  | PyInt z => (0 <? z)%Z
  | PyFloat (Fnum negative m) => negb negative && negb (Qle_bool m 0)
  | PyFloat (Finf negative) => negb negative
  | PyFloat Fnan => false
  end.

(** [n < 0] *)
Definition num_neg (n : pynum) : bool :=
  match n with
  | PyInt z => (z <? 0)%Z
  | PyFloat (Fnum negative m) => negative && negb (Qle_bool m 0)
  | PyFloat (Finf negative) => negative
  | PyFloat Fnan => false
  end.

(** [n >= 0] *)
Definition num_nonneg (n : pynum) : bool :=
  match n with
  | PyInt z => (0 <=? z)%Z
  | PyFloat (Fnum negative m) => if negative then Qle_bool m 0 else Qle_bool 0 m
  | PyFloat (Finf negative) => negb negative
  | PyFloat Fnan => false
  end.

(** ** Web elements *)

Inductive element := WebElement {
  find_element : string -> res element;
  find_elements : string -> res (list element);
  get_attribute : string -> res (option string);
  text_of : res string
}.

(** ** Extracted records *)

Record tweet := {
  id : string;
  url : string;
  text : string;
  timestamp : option string;
  replies : pynum;
  retweets : pynum;
  likes : pynum;
  photos : list string
}.

(** ** [extract_tweet_data]: engagement metrics *)

(** Lines 253-260: the count text, known to be non-empty, as a number. *)
Definition convert_count (count_text : string) : res pynum :=
  if char_in "K" count_text then
    let? f := py_float (str_remove "K" count_text) in
    Ok (PyFloat (fmul f (float_of 1000)))
  else if char_in "M" count_text then
    let? f := py_float (str_remove "M" count_text) in
    Ok (PyFloat (fmul f (float_of 1000000)))
  else if char_in "B" count_text then
    let? f := py_float (str_remove "B" count_text) in
    Ok (PyFloat (fmul f (float_of 1000000000)))
  else if str_isdigit count_text then
    let? count := py_int count_text in
    Ok (PyInt count)
  else Ok (PyInt 0).

(** Method 1 (lines 238-242): the visible counter span. *)
Definition count_text_span (metric_element : element) : res string :=
  except_NoSuchElement
    (let? count_element :=
       find_element metric_element "span[data-testid='app-text-transition-container']" in
     text_of count_element)
    "".

(** Method 2 (lines 245-249): the first numeric token of the aria label,
    consulted only when method 1 left the text empty. *)
Definition count_text_aria (metric_element : element) (count_text : string)
  : res string :=
  if str_nonempty count_text then Ok count_text
  else
    let? attr := get_attribute metric_element "aria-label" in
    match attr with
    | Some aria_label =>
        if str_nonempty aria_label then
          match search_count aria_label with
          | Some g => Ok g
          | None => Ok count_text
          end
        else Ok count_text
    | None => Ok count_text
    end.

(** Body of the innermost [try] (lines 234-263) for one element:
    [Ok (Some c)] assigns [c] and leaves the element loop, [Ok None] falls
    through to the next element, [Raise] is the [except Exception]. *)
Definition read_count (metric_element : element) : res (option pynum) :=
  let? t1 := count_text_span metric_element in
  let? count_text := count_text_aria metric_element t1 in
  if str_nonempty count_text then
    let? count := convert_count count_text in
    Ok (Some count)
  else Ok None.

(** [for metric_element in metric_elements] (lines 232-265). *)
Fixpoint metric_elements_loop (key : string) (metric_elements : list element)
  (metrics : gmap string pynum) : gmap string pynum :=
  match metric_elements with
  | [] => metrics
  | metric_element :: rest =>
      match read_count metric_element with
      | Ok (Some count) => <[key := count]> metrics
      | Ok None => metric_elements_loop key rest metrics
      | Raise _ => metric_elements_loop key rest metrics
      end
  end.

(** [for selector in selector_list] (lines 229-270).  Reading
    [metrics[key]] of a key that was never assigned raises [KeyError],
    which the selector-level [except Exception] turns into [continue]. *)
Fixpoint selector_loop (article : element) (key : string)
  (selector_list : list string) (metrics : gmap string pynum)
  : gmap string pynum :=
  match selector_list with
  | [] => metrics
  | selector :: rest =>
      match find_elements article selector with
      | Raise _ => selector_loop article key rest metrics
      | Ok metric_elements =>
          let metrics' := metric_elements_loop key metric_elements metrics in
          match metrics' !! key with
          | Some v => if num_pos v then metrics'
                      else selector_loop article key rest metrics'
          | None => selector_loop article key rest metrics'
          end
      end
  end.

(** The dictionary literal of lines 224-228, in insertion order. *)
Definition metric_selectors : list (string * list string) :=
  [ ("reply",   ["[data-testid='reply']";   "[aria-label*='repl']"]);
    ("retweet", ["[data-testid='retweet']"; "[aria-label*='retweet']"]);
    ("like",    ["[data-testid='like']";    "[aria-label*='like']"]) ].

(** [metrics = {"replies": 0, "retweets": 0, "likes": 0}] *)
Definition initial_metrics : gmap string pynum :=
  <["likes" := PyInt 0]> (<["retweets" := PyInt 0]> (<["replies" := PyInt 0]> ∅)).

(** Lines 221-272; the key written and tested is [f"{metric}s"]. *)
Definition extract_metrics (article : element) : gmap string pynum :=
  fold_left
    (fun metrics '(metric, selector_list) =>
       selector_loop article (metric ++ "s") selector_list metrics)
    metric_selectors initial_metrics.

(** [metrics.get(key, 0)] *)
Definition metrics_get (metrics : gmap string pynum) (key : string) : pynum :=
  match metrics !! key with
  | Some v => v
  | None => PyInt 0
  end.

(** ** [extract_tweet_data]: media *)

(** [src in photos] *)
Definition str_mem (s : string) (l : list string) : bool :=
  existsb (String.eqb s) l.

(** The test of line 286; [src] is the attribute value, [None] when the
    attribute is missing. *)
Definition keep_photo (src : option string) (photos : list string) : bool :=
  match src with
  | Some s =>
      str_nonempty s && negb (str_mem s photos)
      && negb (str_in "profile" (str_lower s))
      && negb (str_in "avatar" (str_lower s))
  | None => false
  end.

(** The test of line 294. *)
Definition keep_thumbnail (src : option string) (photos : list string) : bool :=
  match src with
  | Some s => str_nonempty s && negb (str_mem s photos)
  | None => false
  end.

Definition append_src (src : option string) (photos : list string) : list string :=
  match src with
  | Some s => photos ++ [s]
  | None => photos
  end.

(** [for img in ...] with the given test.  [photos] is a list mutated in
    place, so what was appended before an exception stays: the loop
    returns the list together with the exception, if any. *)
Fixpoint img_loop (keep : option string -> list string -> bool)
  (imgs : list element) (photos : list string) : list string * option exn :=
  match imgs with
  | [] => (photos, None)
  | img :: rest =>
      match get_attribute img "src" with
      | Raise e => (photos, Some e)
      | Ok src =>
          img_loop keep rest
            (if keep src photos then append_src src photos else photos)
      end
  end.

Definition media_selectors : list string :=
  [ "img[src*='https://pbs.twimg.com/media/']";
    "img[src*='pbs.twimg.com/media']";
    "div[data-testid='tweetPhoto'] img" ].

(** [for selector in [...]] of lines 278-287. *)
Fixpoint media_loop (article : element) (selectors : list string)
  (photos : list string) : list string * option exn :=
  match selectors with
  | [] => (photos, None)
  | selector :: rest =>
      match find_elements article selector with
      | Raise e => (photos, Some e)
      | Ok media_elements =>
          match img_loop keep_photo media_elements photos with
          | (photos', None) => media_loop article rest photos'
          | (photos', Some e) => (photos', Some e)
          end
      end
  end.

(** Lines 275-297. *)
Definition extract_photos (article : element) : list string :=
  match media_loop article media_selectors [] with
  | (photos, Some _) => photos
  | (photos, None) =>
      match photos with
      | [] =>
          match find_elements article "div[data-testid='videoPlayer'] img" with
          | Raise _ => photos
          | Ok video_elements => fst (img_loop keep_thumbnail video_elements photos)
          end
      | _ :: _ => photos
      end
  end.

(** ** [extract_tweet_data] *)

(** Lines 199-200.  [re.search] on a missing attribute raises
    [TypeError]; [.group] on a failed match raises [AttributeError]. *)
Definition extract_id (article : element) : res (string * string) :=
  let? link := find_element article "a[href*='/status/']" in
  let? href := get_attribute link "href" in
  match href with
  | None => Raise (Exn TypeError "expected string or bytes-like object")
  | Some permalink =>
      match search_status permalink with
      | None => Raise (Exn AttributeError "'NoneType' object has no attribute 'group'")
      | Some tweet_id => Ok (permalink, tweet_id)
      end
  end.

(** The body of the outer [try]; [Ok None] is the early [return None] of
    line 203. *)
Definition extract_tweet_body (article : element) : res (option tweet) :=
  match extract_id article with
  | Raise e =>
      match exn_cls e with
      | NoSuchElementException | AttributeError => Ok None
      | _ => Raise e
      end
  | Ok (permalink, tweet_id) =>
      let? text :=
        except_NoSuchElement
          (let? text_element := find_element article "[data-testid='tweetText']" in
           text_of text_element)
          "" in
      let? timestamp :=
        except_NoSuchElement
          (let? time_element := find_element article "time" in
           get_attribute time_element "datetime")
          (Some "") in
      let metrics := extract_metrics article in
      let photos := extract_photos article in
      Ok (Some {| id := tweet_id;
                  url := permalink;
                  text := text;
                  timestamp := timestamp;
                  replies := metrics_get metrics "replies";
                  retweets := metrics_get metrics "retweets";
                  likes := metrics_get metrics "likes";
                  photos := photos |})
  end.

(** Lines 194-312: any exception of the body is printed and [None] is
    returned. *)
Definition extract_tweet_data (article : element) : option tweet :=
  match extract_tweet_body article with
  | Ok r => r
  | Raise _ => None
  end.

(** ** [scrape_tweets]: one scan of the rendered articles *)

Definition TWEET_LIMIT : nat := 100.
Definition max_scroll_attempts : nat := 30.

(** [tweet["id"] not in [t["id"] for t in tweets_data]] *)
Definition id_not_in (i : string) (tweets_data : list tweet) : bool :=
  negb (str_mem i (map id tweets_data)).

(** [value == s] for an attribute value that may be missing *)
Definition attr_is (value : option string) (s : string) : bool :=
  match value with
  | Some v => String.eqb v s
  | None => false
  end.

(** The body of the [try] of lines 136-140. *)
Definition process_article (article : element) (tweets_data : list tweet)
  : res (list tweet) :=
  let? testid := get_attribute article "data-testid" in
  if attr_is testid "tweet" then
    match extract_tweet_data article with
    | Some tweet =>
        if id_not_in (id tweet) tweets_data
        then Ok (tweets_data ++ [tweet])%list
        else Ok tweets_data
    | None => Ok tweets_data
    end
  else Ok tweets_data.

(** [for article in articles] of lines 134-143, with its
    [except Exception: continue]. *)
Fixpoint scan_articles (articles : list element) (tweets_data : list tweet)
  : list tweet :=
  match articles with
  | [] => tweets_data
  | article :: rest =>
      match process_article article tweets_data with
      | Ok tweets_data' => scan_articles rest tweets_data'
      | Raise _ => scan_articles rest tweets_data
      end
  end.

(** ** The WebDriver *)

Inductive By := CSS_SELECTOR | XPATH.

(** What [execute_script] hands back: a number, or nothing. *)
Inductive jsval :=
| JsNone
| JsNum (n : Z).

Definition jsval_eqb (a b : jsval) : bool :=
  match a, b with
  | JsNone, JsNone => true
  | JsNum x, JsNum y => (x =? y)%Z
  | _, _ => false
  end.

(** The driver calls made by [scrape_tweets]; each maps a driver state to
    an answer and the next state.  [wait_until_present t sel] is
    [WebDriverWait(driver, t).until(EC.presence_of_element_located(
    (By.CSS_SELECTOR, sel)))]. *)
Record webdriver (D : Type) := {
  driver_get : string -> D -> res unit * D;
  wait_until_present : nat -> string -> D -> res unit * D;
  execute_script : string -> list element -> D -> res jsval * D;
  driver_find_elements : By -> string -> D -> res (list element) * D;
  driver_find_element : By -> string -> D -> res element * D
}.
Arguments driver_get {D}.
Arguments wait_until_present {D}.
Arguments execute_script {D}.
Arguments driver_find_elements {D}.
Arguments driver_find_element {D}.

(** Local variables of [scrape_tweets] that live across iterations. *)
Record loop_state := {
  tweets_data : list tweet;
  last_height : jsval;
  scroll_attempts : nat;
  no_new_tweets_count : nat
}.

(** How the [while] loop was left.  [OutOfFuel] belongs to the model
    only: the loop is unfolded a given number of times, and
    [OutOfFuel] reports that this number was too small. *)
Inductive exit_path :=
| ByCondition
| ByExhaustion
| ByEndOfPage
| ByException (e : exn)
| OutOfFuel.

Inductive flow :=
| Next
| Break (why : exit_path).

Record run (D : Type) := {
  exit_by : exit_path;
  final : loop_state;
  cycles : nat;
  driver_after : D
}.
Arguments exit_by {D}.
Arguments final {D}.
Arguments cycles {D}.
Arguments driver_after {D}.

Definition height_script : string := "return document.body.scrollHeight".
Definition scroll_script : string :=
  "window.scrollTo(0, document.body.scrollHeight);".
Definition show_more_xpath : string := "//span[contains(text(), 'Show more')]".

Section Scraper.

Context {D : Type} (driver : webdriver D).

(** Driver computations: state passing with exceptions. *)
Definition M (A : Type) : Type := D -> res A * D.

Definition ret {A} (a : A) : M A := fun d => (Ok a, d).

Definition bind {A B} (m : M A) (k : A -> M B) : M B :=
  fun d =>
    match m d with
    | (Ok a, d') => k a d'
    | (Raise e, d') => (Raise e, d')
    end.

Notation "'let*' x ':=' m 'in' k" := (bind m (fun x => k))
  (at level 10, x pattern, m at level 100, k at level 200).

(** Lines 151-152: find the "Show more" control and click it. *)
Definition click_show_more : M jsval :=
  let* show_more_button := driver_find_element driver XPATH show_more_xpath in
  execute_script driver "arguments[0].click();" [show_more_button].

(** The body of the loop assigns to the local variables of
    [scrape_tweets] as it goes.  A step of the body maps the variables
    and the driver state to an answer, the variables and the driver
    state; what was assigned before an exception stays assigned. *)
Definition L (A : Type) : Type := loop_state -> D -> res A * loop_state * D.

Definition lret {A} (a : A) : L A := fun st d => (Ok a, st, d).

Definition lbind {A B} (m : L A) (k : A -> L B) : L B :=
  fun st d =>
    match m st d with
    | (Ok a, st', d') => k a st' d'
    | (Raise e, st', d') => (Raise e, st', d')
    end.

Notation "'let+' x ':=' m 'in' k" := (lbind m (fun x => k))
  (at level 10, x pattern, m at level 100, k at level 200).

(** A driver call, the value of a variable, an assignment. *)
Definition call {A} (m : M A) : L A :=
  fun st d => let '(r, d') := m d in (r, st, d').

Definition var {A} (f : loop_state -> A) : L A := fun st d => (Ok (f st), st, d).

Definition assign (f : loop_state -> loop_state) : L unit :=
  fun st d => (Ok tt, f st, d).

Definition set_tweets_data (v : list tweet) (st : loop_state) : loop_state :=
  {| tweets_data := v; last_height := last_height st;
     scroll_attempts := scroll_attempts st;
     no_new_tweets_count := no_new_tweets_count st |}.

Definition set_last_height (v : jsval) (st : loop_state) : loop_state :=
  {| tweets_data := tweets_data st; last_height := v;
     scroll_attempts := scroll_attempts st;
     no_new_tweets_count := no_new_tweets_count st |}.

Definition set_scroll_attempts (v : nat) (st : loop_state) : loop_state :=
  {| tweets_data := tweets_data st; last_height := last_height st;
     scroll_attempts := v;
     no_new_tweets_count := no_new_tweets_count st |}.

Definition set_no_new_tweets_count (v : nat) (st : loop_state) : loop_state :=
  {| tweets_data := tweets_data st; last_height := last_height st;
     scroll_attempts := scroll_attempts st;
     no_new_tweets_count := v |}.

(** Lines 150-160: the [try] around [click_show_more], with its
    [except NoSuchElementException]. *)
Definition try_show_more : L flow :=
  fun st d =>
    match click_show_more d with
    | (Ok _, d') => (Ok Next, set_no_new_tweets_count 0 st, d')
    | (Raise e, d') =>
        if is_NoSuchElement e
        then (Ok (if (5 <=? no_new_tweets_count st)%nat
                  then Break ByExhaustion else Next), st, d')
        else (Raise e, st, d')
    end.

(** Lines 146-162. *)
Definition check_new_tweets (tweets_before : nat) : L flow :=
  let+ tweets_now := var (fun st => length (tweets_data st)) in
  if (tweets_now =? tweets_before)%nat then
    let+ _ := assign (fun st =>
                set_no_new_tweets_count (no_new_tweets_count st + 1) st) in
    let+ count := var no_new_tweets_count in
    if (3 <=? count)%nat then try_show_more else lret Next
  else
    let+ _ := assign (set_no_new_tweets_count 0) in
    lret Next.

(** Lines 165-182: the end-of-page test, with the assignment to
    [last_height] of line 182 when the loop goes on. *)
Definition check_height : L flow :=
  let+ last := var last_height in
  let+ new_height := call (execute_script driver height_script []) in
  if jsval_eqb new_height last then
    let+ new_height := call (execute_script driver height_script []) in
    if jsval_eqb new_height last then
      let+ _ := call (execute_script driver
                        "window.scrollTo(0, document.body.scrollHeight * 0.8);" []) in
      let+ _ := call (execute_script driver scroll_script []) in
      let+ new_height := call (execute_script driver height_script []) in
      if jsval_eqb new_height last
      then lret (Break ByEndOfPage)
      else let+ _ := assign (set_last_height new_height) in lret Next
    else let+ _ := assign (set_last_height new_height) in lret Next
  else let+ _ := assign (set_last_height new_height) in lret Next.

(** The body of the [while] loop, lines 121-188. *)
Definition cycle : L flow :=
  let+ _ := assign (fun st => set_scroll_attempts (scroll_attempts st + 1) st) in
  let+ _ := call (execute_script driver scroll_script []) in
  let+ articles := call (driver_find_elements driver CSS_SELECTOR "article") in
  let+ tweets_before := var (fun st => length (tweets_data st)) in
  let+ _ := assign (fun st =>
              set_tweets_data (scan_articles articles (tweets_data st)) st) in
  let+ fl := check_new_tweets tweets_before in
  match fl with
  | Break why => lret (Break why)
  | Next => check_height
  end.

(** [while len(tweets_data) < TWEET_LIMIT and scroll_attempts <
    max_scroll_attempts] (line 120), unfolded at most [fuel] times;
    [n] counts the iterations begun so far.  [final] holds the local
    variables as they are when the loop is left, also by an
    exception. *)
Fixpoint scrape_loop (fuel : nat) (st : loop_state) (n : nat) (d : D) : run D :=
  if (length (tweets_data st) <? TWEET_LIMIT)%nat
     && (scroll_attempts st <? max_scroll_attempts)%nat
  then
    match fuel with
    | O => {| exit_by := OutOfFuel; final := st; cycles := n; driver_after := d |}
    | S fuel' =>
        match cycle st d with
        | (Ok Next, st', d') => scrape_loop fuel' st' (S n) d'
        | (Ok (Break why), st', d') =>
            {| exit_by := why; final := st'; cycles := S n; driver_after := d' |}
        | (Raise e, st', d') =>
            {| exit_by := ByException e; final := st'; cycles := S n;
               driver_after := d' |}
        end
    end
  else {| exit_by := ByCondition; final := st; cycles := n; driver_after := d |}.

Definition initial_state (height : jsval) : loop_state :=
  {| tweets_data := []; last_height := height;
     scroll_attempts := 0; no_new_tweets_count := 0 |}.

(** Lines 100-118, then the loop: [Ok None] is the [return []] of the
    load timeout, [Ok (Some r)] is a run of the loop. *)
Definition scrape_run (fuel : nat) (twitter_handle : string)
  : M (option (run D)) :=
  let* _ := driver_get driver ("https://twitter.com/" ++ twitter_handle ++ "/tweets") in
  fun d =>
    match wait_until_present driver 30 "article" d with
    | (Raise e, d') =>
        if is_Timeout e then (Ok None, d') else (Raise e, d')
    | (Ok _, d') =>
        (let* height := execute_script driver height_script [] in
         fun d =>
           let r := scrape_loop fuel (initial_state height) 0 d in
           (Ok (Some r), driver_after r)) d'
    end.

(** [scrape_tweets(driver, twitter_handle)] with the loop unfolded at most
    [fuel] times. *)
Definition scrape_tweets_fuel (fuel : nat) (twitter_handle : string)
  : M (list tweet) :=
  let* r := scrape_run fuel twitter_handle in
  match r with
  | None => ret []
  | Some r =>
      match exit_by r with
      | ByException e => fun d => (Raise e, d)
      | _ => ret (tweets_data (final r))
      end
  end.

(** [scrape_tweets(driver, twitter_handle)]: [max_scroll_attempts]
    unfoldings are always enough. *)
Definition scrape_tweets (twitter_handle : string) : M (list tweet) :=
  scrape_tweets_fuel max_scroll_attempts twitter_handle.

(** ** [main] *)

Record company := { name : string; handle : string }.

(** One row of the summary CSV. *)
Record summary_row := {
  row_name : string;
  row_handle : string;
  row_file : string;
  row_tweet_count : nat;
  row_image_count : nat
}.

(** What lies outside the driver during one company's iteration:
    [setup_driver()] gives a fresh driver state or raises;
    [login_to_twitter(driver)] talks to the user and the driver;
    [save_to_csv(tweets, handle)] writes the export and returns its path;
    [summary_append] is the opening of the summary file for the row
    written inside the [try] (lines 527 and 540), and
    [summary_append_error] the one of the [except] handler (line 548). *)
Record session := {
  setup_driver : res D;
  login_to_twitter : D -> res bool * D;
  save_to_csv : list tweet -> string -> res string;
  summary_append : res unit;
  summary_append_error : res unit
}.

(** [sum(1 for tweet in tweets if tweet['photos'])] *)
Definition image_count (tweets : list tweet) : nat :=
  length (List.filter (fun t => match photos t with [] => false | _ => true end) tweets).

(** The [try] body of lines 510-542, returning the row it appends. *)
Definition try_company (w : session) (c : company) : res summary_row :=
  let? d := setup_driver w in
  let '(r, d) := login_to_twitter w d in
  let? _ := r in
  let '(r, d) := scrape_tweets (handle c) d in
  let? tweets := r in
  match tweets with
  | _ :: _ =>
      let? output_file := save_to_csv w tweets (handle c) in
      let? _ := summary_append w in
      Ok {| row_name := name c; row_handle := handle c; row_file := output_file;
            row_tweet_count := length tweets;
            row_image_count := image_count tweets |}
  | [] =>
      let? _ := summary_append w in
      Ok {| row_name := name c; row_handle := handle c;
            row_file := "No tweets found";
            row_tweet_count := 0; row_image_count := 0 |}
  end.

(** One iteration of the [for company in COMPANIES] loop: the [try] and
    the [except Exception] of lines 544-550, returning the row that is
    appended.  An exception raised by the handler itself leaves the
    iteration.  The [finally] block only closes the browser and
    swallows whatever that raises. *)
Definition process_company (w : session) (c : company) : res summary_row :=
  match try_company w c with
  | Ok row => Ok row
  | Raise e =>
      let? _ := summary_append_error w in
      Ok {| row_name := name c; row_handle := handle c;
            row_file := "Error: " ++ exn_str e;
            row_tweet_count := 0; row_image_count := 0 |}
  end.

(** The loop of lines 498-563 over a list of companies; [world] gives
    each company's session and [summary] is the summary table so far.
    The result is the table written, and the exception that ended the
    loop early, if any. *)
Fixpoint main_loop (world : company -> session) (companies : list company)
  (summary : list summary_row) : list summary_row * option exn :=
  match companies with
  | [] => (summary, None)
  | c :: rest =>
      match process_company (world c) c with
      | Ok row => main_loop world rest (summary ++ [row])
      | Raise e => (summary, Some e)
      end
  end.

End Scraper.

Arguments session : clear implicits.

Definition COMPANIES : list company :=
  [ {| name := "Reliance Industries Ltd"; handle := "RIL_Updates" |};
    {| name := "HDFC Bank Ltd"; handle := "HDFC_Bank" |};
    {| name := "Tata Consultancy Services Ltd"; handle := "TCS" |};
    {| name := "Bharti Airtel Ltd"; handle := "airtelnews" |};
    {| name := "ICICI Bank Ltd"; handle := "ICICIBank" |};
    {| name := "State Bank of India"; handle := "TheOfficialSBI" |};
    {| name := "Infosys Ltd"; handle := "Infosys" |};
    {| name := "Bajaj Finance Ltd"; handle := "Bajaj_Finance" |};
    {| name := "Hindustan Unilever Ltd"; handle := "HUL_News" |};
    {| name := "ITC Ltd"; handle := "ITCCorpCom" |};
    {| name := "Larsen & Toubro Ltd"; handle := "larsentoubro" |};
    {| name := "HCL Technologies Ltd"; handle := "hcltech" |};
    {| name := "Kotak Mahindra Bank Ltd"; handle := "KotakBankLtd" |};
    {| name := "Sun Pharmaceutical Industries Ltd"; handle := "SunPharma_Live" |};
    {| name := "Maruti Suzuki India Ltd"; handle := "Maruti_Corp" |};
    {| name := "Mahindra & Mahindra Ltd"; handle := "MahindraRise" |};
    {| name := "Axis Bank Ltd"; handle := "AxisBank" |};
    {| name := "UltraTech Cement Ltd"; handle := "UltraTechCement" |};
    {| name := "NTPC Ltd"; handle := "ntpclimited" |};
    {| name := "Bajaj Finserv Ltd"; handle := "Bajaj_Finserv" |} ].

(** [main()]: the summary table written for the fixed company list. *)
Definition main {D} (driver : webdriver D) (world : company -> session D)
  : list summary_row * option exn :=
  main_loop driver world COMPANIES [].

(** ** Markup fixtures and a scripted driver

    Concrete elements and drivers on which the definitions above are
    evaluated. *)

Definition no_such {A} (selector : string) : res A :=
  Raise (Exn NoSuchElementException ("no such element: " ++ selector)).

Fixpoint assoc {A} (key : string) (l : list (string * A)) : option A :=
  match l with
  | [] => None
  | (k, v) :: rest => if String.eqb key k then Some v else assoc key rest
  end.

(** An element with the given attributes, visible text and, per
    selector, matching descendants. *)
Definition node (attrs : list (string * string)) (txt : string)
  (matches : list (string * list element)) : element :=
  {| find_element := fun selector =>
       match assoc selector matches with
       | Some (e :: _) => Ok e
       | _ => no_such selector
       end;
     find_elements := fun selector =>
       match assoc selector matches with
       | Some es => Ok es
       | None => Ok []
       end;
     get_attribute := fun a => Ok (assoc a attrs);
     text_of := Ok txt |}.

Definition permalink_of (tweet_id : string) : element :=
  node [("href", "https://twitter.com/TCS/status/" ++ tweet_id)] "" [].

(** A rendered tweet: a permalink, a body text and further descendants. *)
Definition tweet_article (tweet_id body : string)
  (more : list (string * list element)) : element :=
  node [("data-testid", "tweet")] body
       (("a[href*='/status/']", [permalink_of tweet_id])
        :: ("[data-testid='tweetText']", [node [] body []])
        :: more).

(** A metric button showing [count_text] in its counter span. *)
Definition counter (count_text : string) : element :=
  node [] ""
       [("span[data-testid='app-text-transition-container']",
         [node [] count_text []])].

(** A metric button without counter span or aria label. *)
Definition bare_button : element := node [] "" [].

Definition img (src : string) : element := node [("src", src)] "" [].

(** The driver state of a scripted page: whether the first article ever
    shows up, the article lists of the coming scans and the coming
    answers to the height script. *)
Record script := {
  loads : bool;
  scans : list (list element);
  heights : list Z
}.

(** A page without a "Show more" control.  Exhausted scripts answer with
    no article and with height 0. *)
Definition scripted : webdriver script :=
  {| driver_get := fun _ d => (Ok tt, d);
     wait_until_present := fun _ _ d =>
       if loads d then (Ok tt, d)
       else (Raise (Exn TimeoutException "timeout"), d);
     execute_script := fun js _ d =>
       if String.eqb js height_script then
         match heights d with
         | h :: hs => (Ok (JsNum h), {| loads := loads d; scans := scans d; heights := hs |})
         | [] => (Ok (JsNum 0), d)
         end
       else (Ok JsNone, d);
     driver_find_elements := fun _ _ d =>
       match scans d with
       | s :: ss => (Ok s, {| loads := loads d; scans := ss; heights := heights d |})
       | [] => (Ok [], d)
       end;
     driver_find_element := fun _ selector d => (no_such selector, d) |}.

(** The scenario of the specification: three scans showing the ids
    1,2 then 2,3 then 4, on a page whose height grows during the first
    two cycles and then stays at 300. *)
Definition three_scans : script :=
  {| loads := true;
     scans := [ [tweet_article "1" "one" []; tweet_article "2" "two" []];
                [tweet_article "2" "two again" []; tweet_article "3" "three" []];
                [tweet_article "4" "four" []] ];
     heights := [100; 200; 300; 300; 300; 300]%Z |}.

(** A tweet whose only image is a video thumbnail served from a profile
    path. *)
Definition video_article : element :=
  tweet_article "7" "watch"
    [("div[data-testid='videoPlayer'] img",
      [img "https://pbs.twimg.com/profile_images/7/poster.jpg"])].

(** A tweet whose reply button shows 5 and whose like button shows 7. *)
Definition replied_article : element :=
  tweet_article "8" "hello"
    [("[data-testid='reply']", [counter "5"]);
     ("[data-testid='like']", [counter "7"])].

(** A tweet whose only metric button is the like button [b]. *)
Definition like_button_article (b : element) : element :=
  tweet_article "9" "hi" [("[data-testid='like']", [b])].

(** A tweet whose like button shows [count_text]. *)
Definition liked_article (count_text : string) : element :=
  like_button_article (counter count_text).

(** A tweet whose like button has neither counter nor label. *)
Definition unlabelled_article : element := like_button_article bare_button.

(** A page that never stops growing and never shows a tweet. *)
Definition growing_empty_page : script :=
  {| loads := true; scans := [];
     heights := [100; 200; 300; 400; 500; 600; 700]%Z |}.

(** A rendered tweet without a permalink. *)
Definition anonymous_article : element :=
  node [("data-testid", "tweet")] "no link" [].

(** A rendered tweet whose descendants cannot be listed: every
    [find_elements] on it raises, so that neither its metric buttons
    nor its images can be looked up. *)
Definition unlistable_article : element :=
  {| find_element := find_element (tweet_article "5" "five" []);
     find_elements := fun _ =>
       Raise (Exn WebDriverException "stale element reference");
     get_attribute := get_attribute (tweet_article "5" "five" []);
     text_of := Ok "five" |}.

(** A page whose only scan shows a tweet, an article without permalink,
    an article whose descendants cannot be listed, and another tweet. *)
Definition faulty_page : script :=
  {| loads := true;
     scans := [ [ tweet_article "1" "one" []; anonymous_article;
                  unlistable_article; tweet_article "2" "two" [] ] ];
     heights := [100; 100; 100; 100]%Z |}.

(** A metric button that carries [label] as its aria label and has no
    counter span. *)
Definition labelled (label : string) : element :=
  node [("aria-label", label)] "" [].

(** A tweet whose like button is [labelled label]. *)
Definition labelled_article (label : string) : element :=
  like_button_article (labelled label).

(** The decimal numeral of [n]. *)
Definition numeral (n : nat) : string := NilZero.string_of_uint (Nat.to_uint n).

(** A page whose first scan already shows 101 different tweets. *)
Definition crowded_page : script :=
  {| loads := true;
     scans := [ map (fun k => tweet_article (numeral k) "tweet" []) (seq 1 101) ];
     heights := [100; 200; 200; 200; 200]%Z |}.

(** A page on which no article ever appears. *)
Definition blank_page : script :=
  {| loads := false; scans := []; heights := [] |}.

(** The world of a batch in which every browser opens on [page], nobody
    logs in and every file can be written. *)
Definition quiet_world (page : script) : company -> session script :=
  fun _ =>
    {| setup_driver := Ok page;
       login_to_twitter := fun d => (Ok false, d);
       save_to_csv := fun _ twitter_handle => Ok (twitter_handle ++ "_tweets.csv");
       summary_append := Ok tt;
       summary_append_error := Ok tt |}.

(** The world of a batch in which no browser can be started. *)
Definition broken_world : company -> session script :=
  fun _ =>
    {| setup_driver := Raise (Exn WebDriverException "chrome not reachable");
       login_to_twitter := fun d => (Ok false, d);
       save_to_csv := fun _ twitter_handle => Ok (twitter_handle ++ "_tweets.csv");
       summary_append := Ok tt;
       summary_append_error := Ok tt |}.

(** The world of a batch in which the summary file cannot be appended
    to, neither inside the [try] nor by the handler. *)
Definition unwritable_world (page : script) : company -> session script :=
  fun _ =>
    {| setup_driver := Ok page;
       login_to_twitter := fun d => (Ok false, d);
       save_to_csv := fun _ twitter_handle => Ok (twitter_handle ++ "_tweets.csv");
       summary_append := Raise (Exn OSError "Permission denied");
       summary_append_error := Raise (Exn OSError "Permission denied") |}.

Definition tcs : company :=
  {| name := "Tata Consultancy Services Ltd"; handle := "TCS" |}.

Definition infosys : company := {| name := "Infosys Ltd"; handle := "Infosys" |}.

(** ** Vocabulary of the statements *)

Open Scope list_scope.

(** The record, if any, that a rendered article contributes to a scan:
    it must carry [data-testid="tweet"] and extraction must succeed. *)
Definition candidate (article : element) : option tweet :=
  match get_attribute article "data-testid" with
  | Ok value => if attr_is value "tweet" then extract_tweet_data article else None
  | Raise _ => None
  end.

(** The records contributed by a list of articles, in scan order. *)
Fixpoint candidates (articles : list element) : list tweet :=
  match articles with
  | [] => []
  | article :: rest =>
      match candidate article with
      | Some t => t :: candidates rest
      | None => candidates rest
      end
  end.

(** What one accepted candidate does to the accumulated list. *)
Definition accept (tweets_data : list tweet) (t : tweet) : list tweet :=
  if id_not_in (id t) tweets_data then tweets_data ++ [t] else tweets_data.

(** The first record with the given id. *)
Definition find_by_id (i : string) (tweets : list tweet) : option tweet :=
  List.find (fun t => String.eqb (id t) i) tweets.

(** A fault while one article is processed: the attribute read of line
    136 raises, the body of [extract_tweet_data] raises, or no
    identifier can be obtained. *)
Definition no_identifier (article : element) : Prop :=
  exists e, extract_id article = Raise e.

Definition faulty (article : element) : Prop :=
  (exists e, get_attribute article "data-testid" = Raise e)
  \/ (exists e, extract_tweet_body article = Raise e)
  \/ no_identifier article.

(** A fault inside the extraction of a record that has its identifier:
    listing the reply buttons, or the images of the first media
    selector, raises. *)
Definition lookup_fault (article : element) : Prop :=
  (exists e, find_elements article "[data-testid='reply']" = Raise e)
  \/ (exists e,
        find_elements article "img[src*='https://pbs.twimg.com/media/']"
        = Raise e).

(** Every fault raised while an article is processed makes the scan
    skip that article. *)
Definition every_fault_skips : Prop :=
  forall (article : element) (post : list element) (tweets_data : list tweet),
    faulty article \/ lookup_fault article ->
    scan_articles (article :: post) tweets_data
    = scan_articles post tweets_data.

(** [other] is [article] with other answers to [find_elements]: the
    single elements found in it and its attributes are the same. *)
Definition same_but_lists (article other : element) : Prop :=
  (forall selector, find_element other selector = find_element article selector)
  /\ (forall a, get_attribute other a = get_attribute article a).

(** The record [t] with the counts and photos extracted from
    [article]. *)
Definition with_lists_of (article : element) (t : tweet) : tweet :=
  {| id := id t; url := url t; text := text t; timestamp := timestamp t;
     replies := metrics_get (extract_metrics article) "replies";
     retweets := metrics_get (extract_metrics article) "retweets";
     likes := metrics_get (extract_metrics article) "likes";
     photos := extract_photos article |}.

(** The record [t] without counts and photos. *)
Definition without_lists (t : tweet) : tweet :=
  {| id := id t; url := url t; text := text t; timestamp := timestamp t;
     replies := PyInt 0; retweets := PyInt 0; likes := PyInt 0;
     photos := [] |}.

(** [src] mentions "profile" or "avatar" in some letter case. *)
Definition mentions_profile (src : string) : bool :=
  str_in "profile" (str_lower src) || str_in "avatar" (str_lower src).

(** The height script, run on the driver state in which the loop was
    left, answers the value the loop holds in [last_height]. *)
Definition height_unchanged {D} (driver : webdriver D) (r : run D) : Prop :=
  fst (execute_script driver height_script [] (driver_after r))
  = Ok (last_height (final r)).

(** The exhaustion exit needs the counter at 5 or more together with an
    unchanged document height. *)
Definition exhaustion_on_stalled_height {D} (driver : webdriver D)
  (height : jsval) (d : D) : Prop :=
  let r := scrape_loop driver max_scroll_attempts (initial_state height) 0 d in
  exit_by r = ByExhaustion ->
  5 <= no_new_tweets_count (final r) /\ height_unchanged driver r.

(** The local variables after the scroll and a scan that gained no
    record: the attempt is counted, the scan result is held and the
    no-growth counter is incremented. *)
Definition stalled (st : loop_state) (articles : list element) : loop_state :=
  {| tweets_data := scan_articles articles (tweets_data st);
     last_height := last_height st;
     scroll_attempts := scroll_attempts st + 1;
     no_new_tweets_count := no_new_tweets_count st + 1 |}.

(** [s] begins with a decimal digit. *)
Definition starts_with_digit (s : string) : bool :=
  match s with
  | String c _ => is_digit c
  | EmptyString => false
  end.

(** The like count stored in the record extracted from [article]. *)
Definition recorded_likes (article : element) : option pynum :=
  option_map likes (extract_tweet_data article).

(** Every extracted count is non-negative, whatever the counter shows. *)
Definition counts_never_negative : Prop :=
  forall (count_text : string) (c : pynum),
    recorded_likes (liked_article count_text) = Some c -> num_nonneg c = true.

(** [f >= 0] *)
Definition float_nonneg (f : float64) : bool := num_nonneg (PyFloat f).

(** The suffix letter by which a count text is converted: the first of
    K, M and B that occurs in it. *)
Definition suffix_letter (count_text : string) : option ascii :=
  if char_in "K" count_text then Some "K"%char
  else if char_in "M" count_text then Some "M"%char
  else if char_in "B" count_text then Some "B"%char
  else None.

(** The summary row of a company without tweets (line 542). *)
Definition empty_row (c : company) : summary_row :=
  {| row_name := name c; row_handle := handle c; row_file := "No tweets found";
     row_tweet_count := 0; row_image_count := 0 |}.

(** The summary row of a company whose processing raised [e] (line 550). *)
Definition error_row (c : company) (e : exn) : summary_row :=
  {| row_name := name c; row_handle := handle c;
     row_file := ("Error: " ++ exn_str e)%string;
     row_tweet_count := 0; row_image_count := 0 |}.

(** Some stage of one company's processing raises [e]: starting the
    browser, the login dialogue, the scrape, the export, or the opening
    of the summary file. *)
Inductive stage_fault {D} (driver : webdriver D) (w : session D) (c : company)
  (e : exn) : Prop :=
| fault_setup :
    setup_driver w = Raise e -> stage_fault driver w c e
| fault_login (d0 d1 : D) :
    setup_driver w = Ok d0 ->
    login_to_twitter w d0 = (Raise e, d1) -> stage_fault driver w c e
| fault_scrape (d0 d1 d2 : D) (logged : bool) :
    setup_driver w = Ok d0 ->
    login_to_twitter w d0 = (Ok logged, d1) ->
    scrape_tweets driver (handle c) d1 = (Raise e, d2) -> stage_fault driver w c e
| fault_save (d0 d1 d2 : D) (logged : bool) (t : tweet) (tweets : list tweet) :
    setup_driver w = Ok d0 ->
    login_to_twitter w d0 = (Ok logged, d1) ->
    scrape_tweets driver (handle c) d1 = (Ok (t :: tweets), d2) ->
    save_to_csv w (t :: tweets) (handle c) = Raise e -> stage_fault driver w c e
| fault_summary (d0 d1 d2 : D) (logged : bool) (tweets : list tweet) :
    setup_driver w = Ok d0 ->
    login_to_twitter w d0 = (Ok logged, d1) ->
    scrape_tweets driver (handle c) d1 = (Ok tweets, d2) ->
    (tweets = [] \/ exists f, save_to_csv w tweets (handle c) = Ok f) ->
    summary_append w = Raise e -> stage_fault driver w c e.

(** The iterations of [companies] append the rows [rows], one each. *)
Definition rows_appended {D} (driver : webdriver D)
  (world : company -> session D) (companies : list company)
  (rows : list summary_row) : Prop :=
  Forall2 (fun c row => process_company driver (world c) c = Ok row)
          companies rows.

(** The initial wait of the scrape of [c] times out. *)
Definition wait_times_out {D} (driver : webdriver D) (w : session D)
  (c : company) : Prop :=
  exists (d0 d1 d2 d3 : D) (logged : bool) (e : exn),
    setup_driver w = Ok d0
    /\ login_to_twitter w d0 = (Ok logged, d1)
    /\ driver_get driver ("https://twitter.com/" ++ handle c ++ "/tweets")%string d1
       = (Ok tt, d2)
    /\ wait_until_present driver 30 "article" d2 = (Raise e, d3)
    /\ is_Timeout e = true.

(** A company whose initial wait times out always gets a row with zero
    counts in the summary table. *)
Definition timeout_row_always {D} (driver : webdriver D)
  (world : company -> session D) : Prop :=
  forall (c : company) (rest : list company) (summary : list summary_row),
    wait_times_out driver (world c) c ->
    exists (row : summary_row) (after : list summary_row),
      row_tweet_count row = 0 /\ row_image_count row = 0
      /\ fst (main_loop driver world (c :: rest) summary)
         = summary ++ row :: after.

(** A fault at any stage of a company's processing always leaves the
    error row of that company in the summary table. *)
Definition fault_always_contained {D} (driver : webdriver D)
  (world : company -> session D) : Prop :=
  forall (c : company) (e : exn) (rest : list company)
         (summary : list summary_row),
    stage_fault driver (world c) c e ->
    exists after : list summary_row,
      fst (main_loop driver world (c :: rest) summary)
      = summary ++ error_row c e :: after.

(** ** Closed forms used in the statements about metrics *)

(** The count at which the element loop of lines 232-265 stops: that of
    the first element whose count can be read. *)
Fixpoint first_count (metric_elements : list element) : option pynum :=
  match metric_elements with
  | [] => None
  | metric_element :: rest =>
      match read_count metric_element with
      | Ok (Some count) => Some count
      | _ => first_count rest
      end
  end.

(** The count one selector yields for an article, if any. *)
Definition selector_count (article : element) (selector : string)
  : option pynum :=
  match find_elements article selector with
  | Ok metric_elements => first_count metric_elements
  | Raise _ => None
  end.

(** What two selectors tried in order leave for a metric that starts
    at 0. *)
Definition metric_value (article : element) (s1 s2 : string) : pynum :=
  match selector_count article s1 with
  | Some v =>
      if num_pos v then v
      else match selector_count article s2 with
           | Some w => w
           | None => v
           end
  | None =>
      match selector_count article s2 with
      | Some w => w
      | None => PyInt 0
      end
  end.

(** The driver [driver] with another answer to [driver_find_element]. *)
Definition with_find_element {D} (driver : webdriver D)
  (other : By -> string -> D -> res element * D) : webdriver D :=
  {| driver_get := driver_get driver;
     wait_until_present := wait_until_present driver;
     execute_script := execute_script driver;
     driver_find_elements := driver_find_elements driver;
     driver_find_element := other |}.

(** A scripted page on which a "Show more" control is always found. *)
Definition scripted_with_control : webdriver script :=
  with_find_element scripted (fun _ _ d => (Ok (node [] "Show more" []), d)).

(** A scripted page without the control on which the lookup of the
    control fails with another exception once three answers to the
    height script are left. *)
Definition lookup_fails_late : webdriver script :=
  with_find_element scripted
    (fun _ selector d =>
       if (length (heights d) <=? 3)%nat
       then (Raise (Exn WebDriverException "invalid session id"), d)
       else (no_such selector, d)).

(** A scripted page whose browser loses its connection while the first
    article is awaited. *)
Definition disconnected : webdriver script :=
  {| driver_get := driver_get scripted;
     wait_until_present := fun _ _ d =>
       (Raise (Exn WebDriverException "disconnected"), d);
     execute_script := execute_script scripted;
     driver_find_elements := driver_find_elements scripted;
     driver_find_element := driver_find_element scripted |}.

(** A page that shows one tweet and then stays as it is. *)
Definition still_page : script :=
  {| loads := true;
     scans := [[tweet_article "1" "one" []]];
     heights := [100; 100; 100; 100]%Z |}.

(** The factor a suffix letter stands for. *)
Definition suffix_factor (c : ascii) : float64 :=
  if Ascii.eqb c "K" then float_of 1000
  else if Ascii.eqb c "M" then float_of 1000000
  else float_of 1000000000.

(** The float nearest to the decimal literal [ip.fp]. *)
Definition decimal_value (ip fp : string) : float64 :=
  b64_round false (decimal_q (ip ++ fp) (- Z.of_nat (String.length fp))).

(** The characters of a decimal literal: digits and the point. *)
Definition literal_char (c : ascii) : bool := is_digit c || Ascii.eqb c ".".

(** ** More Python string and path operations *)

(** [sep.join(parts)] *)
Fixpoint str_join (sep : string) (parts : list string) : string :=
  match parts with
  | [] => ""
  | x :: rest =>
      match rest with
      | [] => x
      | _ :: _ => (x ++ sep ++ str_join sep rest)%string
      end
  end.

(** [s.split(sep)] for a non-empty separator, scanning from the left:
    [skip] characters of a separator just matched are still to be
    passed, [cur] is the piece read so far. *)
Fixpoint split_from (sep : string) (skip : nat) (cur : string) (s : string)
  : list string :=
  match s with
  | EmptyString => [cur]
  | String c t =>
      match skip with
      | S k => split_from sep k cur t
      | O =>
          if String.prefix sep s
          then cur :: split_from sep (String.length sep - 1) "" t
          else split_from sep 0 (cur ++ String c "")%string t
      end
  end.

Definition str_split (sep s : string) : list string := split_from sep 0 "" s.

(** [s.replace(c, by)] for a one-character target *)
Fixpoint str_replace_char (c : ascii) (by_ : string) (s : string) : string :=
  match s with
  | EmptyString => EmptyString
  | String d t =>
      if Ascii.eqb c d then (by_ ++ str_replace_char c by_ t)%string
      else String d (str_replace_char c by_ t)
  end.

(** [s1.startswith(s2)] is [String.prefix s2 s1]; [s.endswith("/")]: *)
Fixpoint ends_with_slash (s : string) : bool :=
  match s with
  | EmptyString => false
  | String c EmptyString => Ascii.eqb c "/"
  | String _ t => ends_with_slash t
  end.

(** [os.path.join(a, b)] on POSIX paths *)
Definition path_join (a b : string) : string :=
  if String.prefix "/" b then b
  else if negb (str_nonempty a) || ends_with_slash a then (a ++ b)%string
  else (a ++ "/" ++ b)%string.

(** [os.path.basename(p)] on POSIX paths: what follows the last slash. *)
Fixpoint basename_from (cur : string) (p : string) : string :=
  match p with
  | EmptyString => cur
  | String c t =>
      if Ascii.eqb c "/" then basename_from "" t
      else basename_from (cur ++ String c "")%string t
  end.

Definition basename (p : string) : string := basename_from "" p.

Definition BASE_DIR : string := "company_tweets".
Definition TEMP_DIR : string := "temp_images".

(** ** [download_image] and [save_to_csv] of the scraper *)

(** What the export touches outside the program: the clock, the file
    system, the network and two library functions.
    [now_stamp] is [datetime.now().strftime('%Y%m%d_%H%M%S')];
    [url_extension url] is [os.path.splitext(urlparse(url).path)[1]];
    [fetch url filepath] is the request, its status check and the
    writing of the body to [filepath];
    [format_iso s] is
    [datetime.fromisoformat(s).strftime('%Y-%m-%d %H:%M:%S')]. *)
Record export_env := {
  now_stamp : string;
  makedirs : string -> res unit;
  open_output : string -> res unit;
  url_extension : string -> res string;
  fetch : string -> string -> res unit;
  format_iso : string -> res string
}.

(** Lines 315-345.  [os.makedirs] stands before the [try]; what the
    [try] raises becomes [None]. *)
Definition download_image (env : export_env) (url folder filename : string)
  : res (option string) :=
  let? _ := makedirs env folder in
  Ok (match
        (let? ext0 := url_extension env url in
         let ext := if str_nonempty ext0 then ext0 else ".jpg" in
         let filepath := path_join folder (filename ++ ext)%string in
         let? _ := fetch env url filepath in
         Ok filepath)
      with
      | Ok filepath => Some filepath
      | Raise _ => None
      end).

(** One row of the export, the columns of lines 364-374. *)
Record csv_row := {
  S_No : nat;
  Tweet_ID : string;
  Date : option string;
  Tweet_Text : string;
  Likes : pynum;
  Retweets : pynum;
  Replies : pynum;
  Image_URLs : string;
  Local_Images : string
}.

(** [for j, photo_url in enumerate(tweet['photos'], 1)] of lines
    384-391. *)
Fixpoint download_photos (env : export_env) (image_folder tweet_id : string)
  (j : nat) (photos : list string) (local_images : list string)
  : res (list string) :=
  match photos with
  | [] => Ok local_images
  | photo_url :: rest =>
      let? local_path :=
        download_image env photo_url image_folder
          ("tweet_" ++ tweet_id ++ "_img_" ++ numeral j)%string in
      download_photos env image_folder tweet_id (S j) rest
        (match local_path with
         | Some p => local_images ++ [p]
         | None => local_images
         end)
  end.

(** Lines 394-400.  A missing timestamp makes [date.replace] raise,
    which the bare [except] answers like a failed parse. *)
Definition formatted_date (env : export_env) (date : option string)
  : option string :=
  match date with
  | None => None
  | Some d =>
      match format_iso env (str_replace_char "Z" "+00:00" d) with
      | Ok formatted => Some formatted
      | Raise _ => Some d
      end
  end.

(** [for i, tweet in enumerate(tweets, 1)] of lines 380-412, returning
    the rows written. *)
Fixpoint write_rows (env : export_env) (image_folder : string) (i : nat)
  (tweets : list tweet) : res (list csv_row) :=
  match tweets with
  | [] => Ok []
  | tweet :: rest =>
      let? local_images :=
        download_photos env image_folder (id tweet) 1 (photos tweet) [] in
      let row :=
        {| S_No := i;
           Tweet_ID := id tweet;
           Date := formatted_date env (timestamp tweet);
           Tweet_Text := text tweet;
           Likes := likes tweet;
           Retweets := retweets tweet;
           Replies := replies tweet;
           Image_URLs := str_join "; " (photos tweet);
           Local_Images := str_join "; " local_images |} in
      let? rows := write_rows env image_folder (S i) rest in
      Ok (row :: rows)
  end.

(** [save_to_csv(tweets, twitter_handle)], lines 348-418: [None] for an
    empty list, else the path of the export together with the rows
    written to it. *)
Definition save_to_csv_file (env : export_env) (tweets : list tweet)
  (twitter_handle : string) : res (option (string * list csv_row)) :=
  match tweets with
  | [] => Ok None
  | _ :: _ =>
      let? _ := makedirs env BASE_DIR in
      let timestamp := now_stamp env in
      let image_folder :=
        path_join BASE_DIR (twitter_handle ++ "_images_" ++ timestamp)%string in
      let output_file :=
        path_join BASE_DIR
          (twitter_handle ++ "_tweets_" ++ timestamp ++ ".csv")%string in
      let? _ := open_output env output_file in
      let? rows := write_rows env image_folder 1 tweets in
      Ok (Some (output_file, rows))
  end.

(** ** The image analysis scripts: [get_image_paths] and [process_tweet]

    Both [analyze_tweet_images.py] and [analyze_tweets_new_model.py]
    read the merged table with [pandas.read_csv], which turns an empty
    field into NaN. *)

(** A cell of the table read by pandas. *)
Inductive cell :=
| NaN
| Text (s : string)
| Number (q : Q).

(** [bool(c)]: NaN is a float different from zero. *)
Definition cell_truthy (c : cell) : bool :=
  match c with
  | NaN => true
  | Text s => str_nonempty s
  | Number q => negb (Qeq_bool q 0)
  end.

(** [c != ''] *)
Definition cell_not_empty (c : cell) : bool :=
  match c with
  | Text s => str_nonempty s
  | _ => true
  end.

(** [c.split('; ')]: only strings have the method. *)
Definition cell_split (c : cell) : res (list string) :=
  match c with
  | Text s => Ok (str_split "; " s)
  | NaN | Number _ =>
      Raise (Exn AttributeError "'float' object has no attribute 'split'")
  end.

(** The row handed to [get_image_paths] and [process_tweet].
    [row_Tweet_ID] and [row_Company_Handle] are the texts that
    formatting these cells in an f-string gives; the other cells are
    passed on as they are. *)
Record table_row := {
  row_Company_Name : cell;
  row_Company_Handle : string;
  row_Tweet_ID : string;
  row_Date : cell;
  row_Tweet_Text : cell;
  row_Likes : cell;
  row_Retweets : cell;
  row_Image_URLs : cell;
  row_Local_Images : cell
}.

(** The file system and the network as the analysis sees them:
    [os.path.exists] and the outcome of [download_image(url,
    output_path)] of lines 38-51, which answers [output_path] or
    [None] and never raises. *)
Record image_env := {
  path_exists : string -> bool;
  image_fetched : string -> string -> bool
}.

Definition fetch_image (env : image_env) (url output_path : string)
  : option string :=
  if image_fetched env url output_path then Some output_path else None.

(** [for i, url in enumerate(urls)] of lines 70-78; [i] counts from 0. *)
Fixpoint fetch_all (env : image_env) (tweet_id : string) (i : nat)
  (urls : list string) (image_paths : list string) : list string :=
  match urls with
  | [] => image_paths
  | url :: rest =>
      let filename := (tweet_id ++ "_img_" ++ numeral (i + 1) ++ ".jpg")%string in
      let output_path := path_join TEMP_DIR filename in
      fetch_all env tweet_id (S i) rest
        (match fetch_image env url output_path with
         | Some downloaded_path => image_paths ++ [downloaded_path]
         | None => image_paths
         end)
  end.

(** [get_image_paths(tweet_row)], lines 53-80 of
    [analyze_tweet_images.py]. *)
Definition get_image_paths (env : image_env) (tweet_row : table_row)
  : res (list string) :=
  let? image_paths :=
    if cell_truthy (row_Local_Images tweet_row)
       && cell_not_empty (row_Local_Images tweet_row)
    then
      let? paths := cell_split (row_Local_Images tweet_row) in
      Ok (List.filter (path_exists env) paths)
    else Ok [] in
  if match image_paths with [] => true | _ => false end
     && cell_truthy (row_Image_URLs tweet_row)
     && cell_not_empty (row_Image_URLs tweet_row)
  then
    let? urls := cell_split (row_Image_URLs tweet_row) in
    Ok (fetch_all env (row_Tweet_ID tweet_row) 0 urls image_paths)
  else Ok image_paths.

(** What the face detector of [analyze_tweet_images.py] reports for an
    image file: an exception, an unreadable image ([None]), or the
    boxes [(x, y, w, h)] of the faces found. *)
Definition face := (Z * Z * Z * Z)%type.

(** [analyze_image(image_path)], lines 82-128 of
    [analyze_tweet_images.py]. *)
Definition analyze_image (detect : string -> res (option (list face)))
  (image_path : string) : bool * string :=
  match detect image_path with
  | Raise _ => (false, "unknown")
  | Ok None => (false, "unknown")
  | Ok (Some faces) =>
      match faces with
      | [] => (false, "unknown")
      | [(_, _, face_width, face_height)] =>
          if (face_height <? face_width)%Z then (true, "male")
          else (true, "female")
      | _ :: _ :: _ => (true, "both")
      end
  end.

(** [for image_path in image_paths] of lines 146-150. *)
Fixpoint analyze_all (analyze : string -> bool * string)
  (image_paths : list string) (humans_detected : bool) (genders : list string)
  : bool * list string :=
  match image_paths with
  | [] => (humans_detected, genders)
  | image_path :: rest =>
      let '(human, gender) := analyze image_path in
      if human then analyze_all analyze rest true (genders ++ [gender])
      else analyze_all analyze rest humans_detected genders
  end.

(** Lines 156-164. *)
Definition overall_gender (genders : list string) : string :=
  if str_mem "both" genders then "both"
  else if str_mem "male" genders && str_mem "female" genders then "both"
  else if str_mem "male" genders then "male"
  else if str_mem "female" genders then "female"
  else "unknown".

(** The row [process_tweet] builds. *)
Record analysis_row := {
  tweet_url : string;
  a_text : cell;
  likes_count : cell;
  reshares_count : cell;
  num_images : nat;
  human_present : string;
  detected_gender : string;
  image_file_paths : string;
  company_name : cell;
  company_handle : string;
  a_tweet_id : string;
  a_date : cell
}.

(** Lines 137-164: the two answers for a list of image paths. *)
Definition verdict (analyze : string -> bool * string)
  (image_paths : list string) : string * string :=
  if (0 <? length image_paths)%nat then
    let '(humans_detected, genders) := analyze_all analyze image_paths false [] in
    (if humans_detected then "yes" else "no", overall_gender genders)
  else ("no", "unknown").

(** [process_tweet(tweet_row)], lines 130-185. *)
Definition process_tweet (env : image_env) (analyze : string -> bool * string)
  (tweet_row : table_row) : res analysis_row :=
  let? image_paths := get_image_paths env tweet_row in
  let '(present, gender) := verdict analyze image_paths in
  Ok {| tweet_url :=
          ("https://twitter.com/" ++ row_Company_Handle tweet_row
           ++ "/status/" ++ row_Tweet_ID tweet_row)%string;
        a_text := row_Tweet_Text tweet_row;
        likes_count := row_Likes tweet_row;
        reshares_count := row_Retweets tweet_row;
        num_images := length image_paths;
        human_present := present;
        detected_gender := gender;
        image_file_paths :=
          match image_paths with
          | [] => ""
          | _ :: _ => str_join "; " image_paths
          end;
        company_name := row_Company_Name tweet_row;
        company_handle := row_Company_Handle tweet_row;
        a_tweet_id := row_Tweet_ID tweet_row;
        a_date := row_Date tweet_row |}.

(** What the person detector and the gender classifier of
    [analyze_tweets_new_model.py] report: per detection result its
    boxes, each with its class number and the outcome of
    [DeepFace.analyze] on the box ([analysis[0]['gender']], a
    dictionary of scores or something else). *)
Inductive gender_field :=
| Scores (scores : list (string * Q))
| NotADict.

Record box := {
  box_class : Z;
  box_gender : res gender_field
}.

(** [max(gender_scores, key=gender_scores.get)] on a non-empty
    dictionary: the first key with the greatest score. *)
Fixpoint best_key (best : string * Q) (rest : list (string * Q)) : string :=
  match rest with
  | [] => fst best
  | (k, v) :: rest' =>
      if negb (Qle_bool v (snd best)) then best_key (k, v) rest'
      else best_key best rest'
  end.

(** Lines 90-105: the gender appended for one person box. *)
Definition box_label (b : box) : string :=
  match box_gender b with
  | Raise _ => "unknown"
  | Ok NotADict => "unknown"
  | Ok (Scores []) => "unknown"
  | Ok (Scores (first :: rest)) =>
      let predicted_gender := str_lower (best_key first rest) in
      if str_mem predicted_gender ["man"; "male"] then "male"
      else if str_mem predicted_gender ["woman"; "female"] then "female"
      else "unknown"
  end.

(** [for box in result.boxes.data] of lines 83-105. *)
Fixpoint boxes_loop (boxes : list box) (human_detected : bool)
  (genders : list string) : bool * list string :=
  match boxes with
  | [] => (human_detected, genders)
  | b :: rest =>
      if (box_class b =? 0)%Z
      then boxes_loop rest true (genders ++ [box_label b])
      else boxes_loop rest human_detected genders
  end.

(** [for result in results] of line 82. *)
Fixpoint results_loop (results : list (list box)) (human_detected : bool)
  (genders : list string) : bool * list string :=
  match results with
  | [] => (human_detected, genders)
  | boxes :: rest =>
      let '(h, g) := boxes_loop boxes human_detected genders in
      results_loop rest h g
  end.

(** [analyze_image(image_path)], lines 67-121 of
    [analyze_tweets_new_model.py]. *)
Definition analyze_image_yolo
  (detect : string -> res (option (list (list box)))) (image_path : string)
  : bool * string :=
  match detect image_path with
  | Raise _ => (false, "unknown")
  | Ok None => (false, "unknown")
  | Ok (Some results) =>
      let '(human_detected, genders) := results_loop results false [] in
      if negb human_detected then (false, "unknown")
      else if str_mem "male" genders && str_mem "female" genders
           then (true, "both")
      else if str_mem "male" genders then (true, "male")
      else if str_mem "female" genders then (true, "female")
      else (true, "unknown")
  end.

(** ** [merge_company_tweets.py] *)

(** How a call of the merge script ends when it raises: [StopIteration]
    is what [next(reader)] raises on a file without lines;
    [DateTypeError] is the [TypeError] of comparing a [Date] that is
    [None] in the sort of line 81. *)
Inductive merge_fault :=
| StopIteration
| ReadFault (e : exn)
| DateTypeError
| WriteFault (e : exn).

Inductive outcome (A : Type) :=
| Returns (a : A)
| Raises (f : merge_fault).
Arguments Returns {A} a.
Arguments Raises {A} f.

(** [max(paths)]: the greatest path in the order of strings. *)
Fixpoint str_max (best : string) (paths : list string) : string :=
  match paths with
  | [] => best
  | p :: rest => if String.ltb best p then str_max p rest else str_max best rest
  end.

(** The summary files found by [glob]: each path with what reading it
    gives: the exception of opening it, or the lines [csv.reader]
    yields and the exception, if any, that ends the reading after
    them. *)
Definition summary_store : Type :=
  list (string * res (list (list string) * option exn)).

(** [for row in reader] of lines 128-130 *)
Fixpoint find_company (company_handle : string) (rows : list (list string))
  : option string :=
  match rows with
  | [] => None
  | row :: rest =>
      match row with
      | name :: handle' :: _ =>
          if String.eqb handle' company_handle then Some name
          else find_company company_handle rest
      | _ => find_company company_handle rest
      end
  end.

(** [get_company_name(company_handle)], lines 111-133. *)
Definition get_company_name (summary_files : summary_store)
  (company_handle : string) : outcome string :=
  match summary_files with
  | [] => Returns company_handle
  | (first, _) :: rest =>
      let summary_file := str_max first (map fst rest) in
      match assoc summary_file summary_files with
      | None => Returns company_handle
      | Some (Raise e) => Raises (ReadFault e)
      | Some (Ok ([], None)) => Raises StopIteration
      | Some (Ok ([], Some e)) => Raises (ReadFault e)
      | Some (Ok (_ :: rows, stop)) =>
          match find_company company_handle rows with
          | Some name => Returns name
          | None =>
              match stop with
              | Some e => Raises (ReadFault e)
              | None => Returns company_handle
              end
          end
      end
  end.

(** A dictionary that [csv.DictReader] yields for a line, or that lines
    61-73 build from it, maps a column name to a field: a text, or
    [None] for a column that a line shorter than the header leaves
    without a value. *)

(** [row.get(key, default)] *)
Definition row_get (row : gmap string (option string)) (key : string) (default : option string)
  : option string :=
  match row !! key with
  | Some v => v
  | None => default
  end.

(** The dictionary of lines 61-73. *)
Definition standard_tweet (company_name company_handle : string)
  (row : gmap string (option string)) : gmap string (option string) :=
  <["Company_Name" := Some company_name]> (
  <["Company_Handle" := Some company_handle]> (
  <["S.No" := row_get row "S.No" (Some "")]> (
  <["Tweet_ID" := row_get row "Tweet_ID" (row_get row "tweet_id" (Some ""))]> (
  <["Date" := row_get row "Date" (row_get row "timestamp" (Some ""))]> (
  <["Tweet_Text" := row_get row "Tweet_Text" (row_get row "text" (Some ""))]> (
  <["Likes" := row_get row "Likes" (row_get row "likes" (Some "0"))]> (
  <["Retweets" := row_get row "Retweets" (row_get row "retweets" (Some "0"))]> (
  <["Replies" := row_get row "Replies" (row_get row "replies" (Some "0"))]> (
  <["Image_URLs" := row_get row "Image_URLs" (row_get row "photos" (Some ""))]> (
  <["Local_Images" := row_get row "Local_Images" (Some "")]> ∅)))))))))).

(** The output columns of lines 84-96. *)
Definition merged_fieldnames : list string :=
  [ "Company_Name"; "Company_Handle"; "S.No"; "Tweet_ID"; "Date";
    "Tweet_Text"; "Likes"; "Retweets"; "Replies"; "Image_URLs";
    "Local_Images" ].

(** The test of line 54 on [reader.fieldnames]. *)
Definition is_tweet_file (fieldnames : option (list string)) : bool :=
  match fieldnames with
  | None => false
  | Some [] => false
  | Some fields =>
      existsb (fun field => str_mem field fields)
              ["Tweet_ID"; "tweet_id"; "Tweet ID"]
  end.

(** A file found by [glob]: its path and what reading it gives: the
    header and the rows yielded before the file ends or an exception
    stops the reading, or the exception of opening it. *)
Record tweet_file := {
  file_path : string;
  file_read : res (option (list string) * list (gmap string (option string)))
}.

(** The filter of line 25. *)
Definition not_summary (f : tweet_file) : bool :=
  negb (str_in "summary" (str_lower (file_path f))).

(** The handle of lines 39-40. *)
Definition handle_of_path (csv_file : string) : string :=
  hd "" (str_split "_tweets_" (basename csv_file)).

(** [for csv_file in csv_files] of lines 37-78. *)
Fixpoint collect_tweets (summary_files : summary_store)
  (csv_files : list tweet_file) (all_tweets : list (gmap string (option string)))
  : outcome (list (gmap string (option string))) :=
  match csv_files with
  | [] => Returns all_tweets
  | csv_file :: rest =>
      let company_handle := handle_of_path (file_path csv_file) in
      match get_company_name summary_files company_handle with
      | Raises f => Raises f
      | Returns company_name =>
          match file_read csv_file with
          | Raise _ => collect_tweets summary_files rest all_tweets
          | Ok (fieldnames, rows) =>
              if is_tweet_file fieldnames
              then collect_tweets summary_files rest
                     (all_tweets
                      ++ map (standard_tweet company_name company_handle) rows)
              else collect_tweets summary_files rest all_tweets
          end
      end
  end.

(** The sort key of line 81. *)
Definition date_key (tweet : gmap string (option string)) : option string :=
  row_get tweet "Date" (Some "").

(** The key as a text. *)
Definition date_text (tweet : gmap string (option string)) : string :=
  match date_key tweet with
  | Some d => d
  | None => ""
  end.

Definition has_date (tweet : gmap string (option string)) : bool :=
  match date_key tweet with
  | Some _ => true
  | None => false
  end.

(** Whether the sort of line 81 can compare its keys: a list of fewer
    than two tweets is not compared at all; in a longer one every key
    is compared with another, which raises [TypeError] as soon as one
    of the two is [None]. *)
Definition sortable (all_tweets : list (gmap string (option string))) : bool :=
  (length all_tweets <? 2)%nat || forallb has_date all_tweets.

(** Python's sort is stable, also with [reverse=True], so its result
    is the one of any stable sort into descending order; here,
    insertion from the right ([stable_descending]). *)
Fixpoint insert_newest (tweet : gmap string (option string))
  (sorted : list (gmap string (option string)))
  : list (gmap string (option string)) :=
  match sorted with
  | [] => [tweet]
  | y :: ys =>
      if String.ltb (date_text tweet) (date_text y)
      then y :: insert_newest tweet ys
      else tweet :: y :: ys
  end.

Definition stable_descending (all_tweets : list (gmap string (option string)))
  : list (gmap string (option string)) :=
  fold_right insert_newest [] all_tweets.

(** [all_tweets.sort(key=lambda x: x.get('Date', ''), reverse=True)] *)
Definition sort_newest_first (all_tweets : list (gmap string (option string)))
  : outcome (list (gmap string (option string))) :=
  if sortable all_tweets
  then Returns (stable_descending all_tweets)
  else Raises DateTypeError.

(** [for i, tweet in enumerate(all_tweets, 1): tweet['S.No'] = i], with
    the number as it is written. *)
Fixpoint renumber (i : nat) (tweets : list (gmap string (option string)))
  : list (gmap string (option string)) :=
  match tweets with
  | [] => []
  | tweet :: rest => <["S.No" := Some (numeral i)]> tweet :: renumber (S i) rest
  end.

(** [merge_csv_files()], lines 19-108: [None] when no file is left to
    merge, else the rows written to the output file, a field that is
    [None] being written as an empty one.  [output] is what opening
    [OUTPUT_FILE] and writing to it gives. *)
Definition merge_csv_files (summary_files : summary_store)
  (found : list tweet_file) (output : res unit)
  : outcome (option (list (gmap string (option string)))) :=
  let csv_files := List.filter not_summary found in
  match csv_files with
  | [] => Returns None
  | _ :: _ =>
      match collect_tweets summary_files csv_files [] with
      | Raises f => Raises f
      | Returns all_tweets =>
          match sort_newest_first all_tweets with
          | Raises f => Raises f
          | Returns sorted =>
              match output with
              | Raise e => Raises (WriteFault e)
              | Ok _ => Returns (Some (renumber 1 sorted))
              end
          end
      end
  end.

(** ** [login_to_twitter] *)

Definition TWITTER_LOGIN_URL : string := "https://twitter.com/i/flow/login".

(** White space ([c.isspace()]), as [str.strip] removes it: tab to
    carriage return, the separators U+001C to U+001F, the blank, and
    U+0085 and U+00A0. *)
Definition is_space (c : ascii) : bool :=
  let n := nat_of_ascii c in
  ((9 <=? n)%nat && (n <=? 13)%nat) || ((28 <=? n)%nat && (n <=? 32)%nat)
  || (n =? 133)%nat || (n =? 160)%nat.

Fixpoint lstrip (s : string) : string :=
  match s with
  | EmptyString => EmptyString
  | String c t => if is_space c then lstrip t else s
  end.

Fixpoint all_space (s : string) : bool :=
  match s with
  | EmptyString => true
  | String c t => is_space c && all_space t
  end.

Fixpoint rstrip (s : string) : string :=
  match s with
  | EmptyString => EmptyString
  | String c t => if all_space s then EmptyString else String c (rstrip t)
  end.

(** [s.strip()] *)
Definition str_strip (s : string) : string := rstrip (lstrip s).

(** What the user types: the answers to the three prompts, each of
    which may raise (end of input). *)
Record console := {
  input_choice : res string;
  input_username : res string;
  getpass_password : res string
}.

(** Typing into and clicking on elements; both act on the browser. *)
Record keyboard (D : Type) := {
  send_keys : element -> string -> D -> res unit * D;
  click : element -> D -> res unit * D
}.
Arguments send_keys {D}.
Arguments click {D}.

Section Login.

Context {D : Type} (driver : webdriver D) (keys : keyboard D).

Notation "'let*' x ':=' m 'in' k" := (bind m (fun x => k))
  (at level 10, x pattern, m at level 100, k at level 200).

(** The body of the [try] of lines 443-479. *)
Definition login_steps (username password : string) : M bool :=
  let* _ := driver_get driver TWITTER_LOGIN_URL in
  let* _ := wait_until_present driver 20 "input[name='text']" in
  let* username_field := driver_find_element driver CSS_SELECTOR "input[name='text']" in
  let* _ := send_keys keys username_field username in
  let* next_button := driver_find_element driver XPATH "//span[contains(text(), 'Next')]" in
  let* _ := click keys next_button in
  let* _ := wait_until_present driver 10 "input[name='password']" in
  let* password_field :=
    driver_find_element driver CSS_SELECTOR "input[name='password']" in
  let* _ := send_keys keys password_field password in
  let* login_button :=
    driver_find_element driver XPATH "//span[contains(text(), 'Log in')]" in
  let* _ := click keys login_button in
  let* _ := wait_until_present driver 20 "a[aria-label='Home']" in
  ret true.

(** [login_to_twitter(driver)], lines 421-483. *)
Definition twitter_login (user : console) : M bool :=
  fun d =>
    match input_choice user with
    | Raise e => (Raise e, d)
    | Ok answer =>
        let choice := str_lower (str_strip answer) in
        if negb (String.eqb choice "y") then (Ok false, d)
        else
          match input_username user with
          | Raise e => (Raise e, d)
          | Ok typed =>
              let username := str_strip typed in
              match getpass_password user with
              | Raise e => (Raise e, d)
              | Ok password =>
                  if negb (str_nonempty username) || negb (str_nonempty password)
                  then (Ok false, d)
                  else
                    match login_steps username password d with
                    | (Ok b, d') => (Ok b, d')
                    | (Raise _, d') => (Ok false, d')
                    end
              end
          end
    end.

End Login.

(** ** Fixtures for the export, the analysis and the merge *)

(** An export in which every directory and file can be written, every
    image can be fetched, URLs carry no extension and timestamps cannot
    be parsed. *)
Definition plain_export : export_env :=
  {| now_stamp := "20250517_155120";
     makedirs := fun _ => Ok tt;
     open_output := fun _ => Ok tt;
     url_extension := fun _ => Ok "";
     fetch := fun _ _ => Ok tt;
     format_iso := fun s =>
       Raise (Exn ValueError ("Invalid isoformat string: " ++ s)%string) |}.

Definition sample_tweet : tweet :=
  {| id := "1790"; url := "https://twitter.com/TCS/status/1790";
     text := "results"; timestamp := Some "yesterday";
     replies := PyInt 0; retweets := PyInt 3; likes := PyFloat (Fnum false 1200);
     photos := ["https://pbs.twimg.com/media/a.jpg";
                "https://pbs.twimg.com/media/b.jpg"] |}.

Definition sample_row : csv_row :=
  {| S_No := 1; Tweet_ID := "1790"; Date := Some "yesterday";
     Tweet_Text := "results";
     Likes := PyFloat (Fnum false 1200); Retweets := PyInt 3; Replies := PyInt 0;
     Image_URLs :=
       "https://pbs.twimg.com/media/a.jpg; https://pbs.twimg.com/media/b.jpg";
     Local_Images :=
       "company_tweets/TCS_images_20250517_155120/tweet_1790_img_1.jpg; company_tweets/TCS_images_20250517_155120/tweet_1790_img_2.jpg" |}.

(** A machine without local images on which only the first URL of a
    tweet can be fetched. *)
Definition first_only : image_env :=
  {| path_exists := fun _ => false;
     image_fetched := fun url _ =>
       String.eqb url "https://pbs.twimg.com/media/a.jpg" |}.

(** A machine holding the image [a.jpg] and no network. *)
Definition offline : image_env :=
  {| path_exists := fun p => String.eqb p "a.jpg";
     image_fetched := fun _ _ => false |}.

(** The merged row of [sample_tweet], with the given [Local_Images]. *)
Definition sample_table_row (local : cell) : table_row :=
  {| row_Company_Name := Text "Tata Consultancy Services Ltd";
     row_Company_Handle := "TCS";
     row_Tweet_ID := "1790";
     row_Date := Text "yesterday";
     row_Tweet_Text := Text "results";
     row_Likes := Number (1200 # 1);
     row_Retweets := Number 3;
     row_Image_URLs :=
       Text "https://pbs.twimg.com/media/a.jpg; https://pbs.twimg.com/media/b.jpg";
     row_Local_Images := local |}.

(** A rendered tweet showing the two photos of [sample_tweet], and the
    record extracted from it. *)
Definition two_photo_article : element :=
  tweet_article "1790" "results"
    [("img[src*='pbs.twimg.com/media']",
      [img "https://pbs.twimg.com/media/a.jpg";
       img "https://pbs.twimg.com/media/b.jpg"])].

Definition scraped_tweet : tweet :=
  {| id := "1790"; url := "https://twitter.com/TCS/status/1790";
     text := "results"; timestamp := Some "";
     replies := PyInt 0; retweets := PyInt 0; likes := PyInt 0;
     photos := ["https://pbs.twimg.com/media/a.jpg";
                "https://pbs.twimg.com/media/b.jpg"] |}.

(** A detector that finds one wide face in "a.jpg", two faces in
    "b.jpg" and cannot read anything else. *)
Definition sample_faces (image_path : string) : res (option (list face)) :=
  if String.eqb image_path "a.jpg" then Ok (Some [(0, 0, 40, 30)%Z])
  else if String.eqb image_path "b.jpg"
       then Ok (Some [(0, 0, 30, 40)%Z; (50, 0, 30, 40)%Z])
  else Ok None.

(** A detector that finds, in "a.jpg", a person the classifier calls a
    woman and a dog, and cannot read anything else. *)
Definition sample_people (image_path : string)
  : res (option (list (list box))) :=
  if String.eqb image_path "a.jpg"
  then Ok (Some [[ {| box_class := 0;
                      box_gender := Ok (Scores [("Woman", 99 # 1); ("Man", 1 # 1)]) |};
                   {| box_class := 16;
                      box_gender := Ok NotADict |} ]])
  else Ok None.

(** ** Vocabulary of the statements about the merge *)

(** Every date is at most the dates before it. *)
Fixpoint newest_first (tweets : list (gmap string (option string))) : Prop :=
  match tweets with
  | [] => True
  | t :: rest =>
      Forall (fun u => String.leb (date_text u) (date_text t) = true) rest
      /\ newest_first rest
  end.

(** The rows dated [d]. *)
Definition dated (d : string) (tweets : list (gmap string (option string)))
  : list (gmap string (option string)) :=
  List.filter (fun t => String.eqb (date_text t) d) tweets.

(** A row without its serial number. *)
Definition unnumbered (tweet : gmap string (option string))
  : gmap string (option string) :=
  delete "S.No" tweet.

(** The sort of line 81 can compare the dates of [tweets]: there are
    fewer than two, or every [Date] is a text. *)
Definition dates_comparable (tweets : list (gmap string (option string))) : Prop :=
  length tweets < 2 \/ Forall (fun t => exists d, date_key t = Some d) tweets.

(** The name lookup returns for every file of [csv_files]. *)
Definition names_found (summary_files : summary_store)
  (csv_files : list tweet_file) : Prop :=
  Forall (fun g => exists company_name,
                     get_company_name summary_files
                       (handle_of_path (file_path g))
                     = Returns company_name) csv_files.

(** The tweet [t] is the standard form of a row of the readable tweet
    file [f], under the company name looked up for the handle in the
    name of [f]. *)
Definition merged_from (summary_files : summary_store) (f : tweet_file)
  (t : gmap string (option string)) : Prop :=
  exists company_name fieldnames rows row,
    get_company_name summary_files (handle_of_path (file_path f))
    = Returns company_name
    /\ file_read f = Ok (fieldnames, rows)
    /\ is_tweet_file fieldnames = true
    /\ In row rows
    /\ t = standard_tweet company_name (handle_of_path (file_path f)) row.

(** No occurrence of [sep] begins inside [h] when [sep] follows [h]. *)
Fixpoint clear_before (sep h : string) : bool :=
  match h with
  | EmptyString => true
  | String c h' =>
      negb (String.prefix sep (h ++ sep)%string) && clear_before sep h'
  end.

(** The lines of the summary file after [main] wrote [rows]: the header
    of line 495 and one line per row. *)
Definition summary_line (r : summary_row) : list string :=
  [row_name r; row_handle r; row_file r;
   numeral (row_tweet_count r); numeral (row_image_count r)].

Definition summary_lines (rows : list summary_row) : list (list string) :=
  ["Company Name"; "Twitter Handle"; "Tweets CSV File"; "Tweet Count";
   "Images Count"] :: map summary_line rows.

(** Two export files and a summary, as [glob] could find them. *)
Definition tcs_file : tweet_file :=
  {| file_path := "company_tweets/TCS_tweets_20250517_155120.csv";
     file_read :=
       Ok (Some ["S.No"; "Tweet_ID"; "Date"; "Tweet_Text"],
           [ list_to_map [("S.No", Some "1"); ("Tweet_ID", Some "11");
                          ("Date", Some "2025-05-01 10:00:00");
                          ("Tweet_Text", Some "a")];
             list_to_map [("S.No", Some "2"); ("Tweet_ID", Some "12");
                          ("Date", Some "2025-05-03 10:00:00");
                          ("Tweet_Text", Some "b")] ]) |}.

Definition infosys_file : tweet_file :=
  {| file_path := "company_tweets/Infosys_tweets_20250517_160000.csv";
     file_read :=
       Ok (Some ["S.No"; "tweet_id"; "timestamp"; "text"],
           [ list_to_map [("S.No", Some "1"); ("tweet_id", Some "21");
                          ("timestamp", Some "2025-05-03 10:00:00");
                          ("text", Some "c")] ]) |}.

(** An export in which the second line stops after the identifier: the
    reader gives its [Date] and [Tweet_Text] as [None]. *)
Definition short_line_file : tweet_file :=
  {| file_path := "company_tweets/Wipro_tweets_20250517_161500.csv";
     file_read :=
       Ok (Some ["S.No"; "Tweet_ID"; "Date"; "Tweet_Text"],
           [ list_to_map [("S.No", Some "1"); ("Tweet_ID", Some "31");
                          ("Date", Some "2025-05-02 10:00:00");
                          ("Tweet_Text", Some "d")];
             list_to_map [("S.No", Some "2"); ("Tweet_ID", Some "32");
                          ("Date", None); ("Tweet_Text", None)] ]) |}.

Definition summary_file_found : tweet_file :=
  {| file_path := "company_tweets/company_tweets_summary_20250517_150000.csv";
     file_read :=
       Ok (Some ["Company Name"; "Twitter Handle"], []) |}.

Definition sample_summaries : summary_store :=
  [ ("company_tweets/company_tweets_summary_20250517_150000.csv",
     Ok (summary_lines
           [ {| row_name := "Tata Consultancy Services Ltd"; row_handle := "TCS";
                row_file := "company_tweets/TCS_tweets_20250517_155120.csv";
                row_tweet_count := 2; row_image_count := 0 |} ], None)) ].

(** A summary whose reading stops with an exception after the line of
    TCS. *)
Definition damaged_summaries : summary_store :=
  [ ("company_tweets/company_tweets_summary_20250517_150000.csv",
     Ok (summary_lines
           [ {| row_name := "Tata Consultancy Services Ltd"; row_handle := "TCS";
                row_file := "company_tweets/TCS_tweets_20250517_155120.csv";
                row_tweet_count := 2; row_image_count := 0 |} ],
         Some (Exn ValueError "invalid start byte"))) ].

(** A merged row without counts and images. *)
Definition merged_row (company_name company_handle serial tweet_id date
  tweet_text : string) : gmap string (option string) :=
  list_to_map
    [ ("Company_Name", Some company_name); ("Company_Handle", Some company_handle);
      ("S.No", Some serial); ("Tweet_ID", Some tweet_id); ("Date", Some date);
      ("Tweet_Text", Some tweet_text); ("Likes", Some "0");
      ("Retweets", Some "0"); ("Replies", Some "0"); ("Image_URLs", Some "");
      ("Local_Images", Some "") ].

(** What merging [tcs_file] and [infosys_file] writes. *)
Definition merged_sample : list (gmap string (option string)) :=
  [ merged_row "Tata Consultancy Services Ltd" "TCS" "1" "12"
      "2025-05-03 10:00:00" "b";
    merged_row "Infosys" "Infosys" "2" "21" "2025-05-03 10:00:00" "c";
    merged_row "Tata Consultancy Services Ltd" "TCS" "3" "11"
      "2025-05-01 10:00:00" "a" ].

(** The summary files [before] and [after] and, between them, the file
    [path], which is read to its end and holds [lines]. *)
Definition with_newest (before after : summary_store) (path : string)
  (lines : list (list string)) : summary_store :=
  before ++ (path, Ok (lines, None)) :: after.

(** A keyboard that always works, and two users: one who declines to
    log in, one who types credentials. *)
Definition typist : keyboard script :=
  {| send_keys := fun _ _ d => (Ok tt, d);
     click := fun _ d => (Ok tt, d) |}.

Definition declining_user : console :=
  {| input_choice := Ok " N ";
     input_username := Raise (Exn EOFError "EOF when reading a line");
     getpass_password := Raise (Exn EOFError "EOF when reading a line") |}.

Definition typing_user : console :=
  {| input_choice := Ok " Y ";
     input_username := Ok " alice ";
     getpass_password := Ok "secret" |}.

(** * Properties *)

(** ** The string helpers on sample inputs *)

Example search_status_permalink :
  search_status "https://twitter.com/TCS/status/1790/photo/1" = Some "1790".
Proof. reflexivity. Qed.

Example search_status_no_digits :
  search_status "https://twitter.com/TCS/status/" = None.
Proof. reflexivity. Qed.

Example search_count_label : search_count "1.2K Likes. Like" = Some "1.2K".
Proof. reflexivity. Qed.

Example search_count_trailing_point : search_count "12. replies" = Some "12".
Proof. reflexivity. Qed.

Example py_float_decimal :
  py_float "1.2" = Ok (Fnum false (5404319552844595 # 4503599627370496)).
Proof. vm_compute. reflexivity. Qed.

Example py_float_blanks_and_groups :
  py_float " 1_000.5e-1 "
  = Ok (Fnum false (7040392854975283 # 70368744177664)).
Proof. vm_compute. reflexivity. Qed.

Example convert_count_rounds :
  convert_count "16.1K"
  = Ok (PyFloat (Fnum false (8851068603596801 # 549755813888))).
Proof. vm_compute. reflexivity. Qed.

Example convert_count_exponent :
  convert_count "1e3K" = Ok (PyFloat (Fnum false 1000000)).
Proof. vm_compute. reflexivity. Qed.

Example convert_count_infinity : convert_count "infK" = Ok (PyFloat (Finf false)).
Proof. vm_compute. reflexivity. Qed.

Example convert_count_superscript :
  convert_count (String (ascii_of_nat 178) "")
  = Raise (Exn ValueError
             ("invalid literal for int() with base 10: "
              ++ String (ascii_of_nat 178) "")).
Proof. vm_compute. reflexivity. Qed.

Example py_float_word :
  py_float "abc" = Raise (Exn ValueError "could not convert string to float: abc").
Proof. reflexivity. Qed.

Example convert_count_grouped : convert_count "1,234" = Ok (PyInt 0).
Proof. reflexivity. Qed.

Example str_lower_mixed : str_lower "Profile_IMAGES" = "profile_images".
Proof. reflexivity. Qed.

(** ** Scanning *)

Lemma process_article_accept (article : element) (tweets_data : list tweet) :
  match process_article article tweets_data with
  | Ok tweets_data' =>
      tweets_data' = match candidate article with
                     | Some t => accept tweets_data t
                     | None => tweets_data
                     end
  | Raise _ => candidate article = None
  end.
Proof.
  unfold process_article, candidate, accept.
  destruct (get_attribute article "data-testid") as [value|e]; cbn; [|reflexivity].
  destruct (attr_is value "tweet"); [|reflexivity].
  destruct (extract_tweet_data article) as [t|]; [|reflexivity].
  destruct (id_not_in (id t) tweets_data); reflexivity.
Qed.

Lemma scan_articles_fold (articles : list element) (tweets_data : list tweet) :
  scan_articles articles tweets_data
  = fold_left accept (candidates articles) tweets_data.
Proof.
  revert tweets_data.
  induction articles as [|article rest IH]; intros tweets_data; cbn; [reflexivity|].
  pose proof (process_article_accept article tweets_data) as H.
  destruct (process_article article tweets_data) as [tweets_data'|e].
  - subst tweets_data'. rewrite IH.
    destruct (candidate article); reflexivity.
  - rewrite H. apply IH.
Qed.

Lemma candidates_app (xs ys : list element) :
  candidates (xs ++ ys) = candidates xs ++ candidates ys.
Proof.
  induction xs as [|x xs IH]; cbn; [reflexivity|].
  destruct (candidate x); cbn; rewrite IH; reflexivity.
Qed.

Lemma str_mem_In (s : string) (l : list string) :
  str_mem s l = true <-> In s l.
Proof.
  unfold str_mem. rewrite existsb_exists. split.
  - intros (x & Hx & Heq). apply String.eqb_eq in Heq. now subst.
  - intros H. exists s. split; [assumption|apply String.eqb_refl].
Qed.

Lemma id_not_in_false (i : string) (tweets : list tweet) :
  id_not_in i tweets = false <-> In i (map id tweets).
Proof.
  unfold id_not_in. rewrite negb_false_iff. apply str_mem_In.
Qed.

Lemma id_not_in_true (i : string) (tweets : list tweet) :
  id_not_in i tweets = true <-> ~ In i (map id tweets).
Proof.
  unfold id_not_in. rewrite negb_true_iff, <- str_mem_In.
  destruct (str_mem i (map id tweets)); split; congruence.
Qed.

Lemma accept_extends (tweets : list tweet) (t : tweet) :
  exists new, accept tweets t = tweets ++ new.
Proof.
  unfold accept. destruct (id_not_in (id t) tweets).
  - now exists [t].
  - exists []. now rewrite app_nil_r.
Qed.

Lemma fold_accept_extends (ts tweets : list tweet) :
  exists new, fold_left accept ts tweets = tweets ++ new.
Proof.
  revert tweets. induction ts as [|t ts IH]; intros tweets; cbn.
  - exists []. now rewrite app_nil_r.
  - destruct (accept_extends tweets t) as [n1 H1].
    destruct (IH (accept tweets t)) as [n2 H2].
    exists (n1 ++ n2). rewrite H2, H1. now rewrite app_assoc.
Qed.

Lemma accept_NoDup (tweets : list tweet) (t : tweet) :
  NoDup (map id tweets) -> NoDup (map id (accept tweets t)).
Proof.
  intros H. unfold accept.
  destruct (id_not_in (id t) tweets) eqn:E; [|assumption].
  apply id_not_in_true in E.
  rewrite map_app. cbn.
  apply NoDup_app; repeat split.
  - assumption.
  - intros x Hx Hin. apply list_elem_of_In in Hx, Hin.
    destruct Hin as [<-|[]]. contradiction.
  - apply NoDup_singleton.
Qed.

Lemma fold_accept_NoDup (ts tweets : list tweet) :
  NoDup (map id tweets) -> NoDup (map id (fold_left accept ts tweets)).
Proof.
  revert tweets. induction ts as [|t ts IH]; intros tweets H; cbn; [assumption|].
  apply IH, accept_NoDup, H.
Qed.

Lemma scan_articles_NoDup (articles : list element) (tweets : list tweet) :
  NoDup (map id tweets) -> NoDup (map id (scan_articles articles tweets)).
Proof. rewrite scan_articles_fold. apply fold_accept_NoDup. Qed.

Lemma find_by_id_app (i : string) (xs ys : list tweet) :
  find_by_id i (xs ++ ys)
  = match find_by_id i xs with
    | Some t => Some t
    | None => find_by_id i ys
    end.
Proof.
  unfold find_by_id. induction xs as [|x xs IH]; cbn; [reflexivity|].
  destruct (String.eqb (id x) i); [reflexivity|apply IH].
Qed.

Lemma find_by_id_In (i : string) (tweets : list tweet) :
  In i (map id tweets) -> exists t, find_by_id i tweets = Some t.
Proof.
  unfold find_by_id. induction tweets as [|x xs IH]; cbn; [intros []|].
  intros [H|H].
  - subst i. rewrite String.eqb_refl. eauto.
  - destruct (String.eqb (id x) i); eauto.
Qed.

Lemma find_by_id_accept (i : string) (tweets : list tweet) (t : tweet) :
  find_by_id i (accept tweets t) = find_by_id i (tweets ++ [t]).
Proof.
  unfold accept. destruct (id_not_in (id t) tweets) eqn:E; [reflexivity|].
  apply id_not_in_false in E.
  rewrite find_by_id_app. cbn.
  destruct (String.eqb (id t) i) eqn:Ei.
  - apply String.eqb_eq in Ei. subst i.
    destruct (find_by_id_In _ _ E) as [t' ->]. reflexivity.
  - destruct (find_by_id i tweets); reflexivity.
Qed.

Lemma find_by_id_fold (i : string) (ts tweets : list tweet) :
  find_by_id i (fold_left accept ts tweets) = find_by_id i (tweets ++ ts).
Proof.
  revert tweets. induction ts as [|t ts IH]; intros tweets; cbn [fold_left].
  - now rewrite app_nil_r.
  - rewrite IH. rewrite !find_by_id_app. rewrite find_by_id_accept.
    rewrite find_by_id_app.
    destruct (find_by_id i tweets); [reflexivity|].
    change (t :: ts) with ([t] ++ ts). now rewrite find_by_id_app.
Qed.

(** ** One cycle of the scroll loop *)

Lemma jsval_eqb_eq (a b : jsval) : jsval_eqb a b = true <-> a = b.
Proof.
  destruct a as [|x], b as [|y]; cbn; split; try congruence; try discriminate.
  - intros H. apply Z.eqb_eq in H. now subst.
  - intros H. injection H as ->. apply Z.eqb_refl.
Qed.

Ltac unfold_cycle :=
  unfold cycle, check_new_tweets, check_height, try_show_more, click_show_more,
    lbind, lret, call, var, assign, bind, ret,
    set_tweets_data, set_last_height, set_scroll_attempts,
    set_no_new_tweets_count in *.

Ltac nat_tests :=
  repeat match goal with
         | H : (_ <=? _)%nat = true |- _ => apply Nat.leb_le in H
         | H : (_ <=? _)%nat = false |- _ => apply Nat.leb_gt in H
         | H : (_ =? _)%nat = true |- _ => apply Nat.eqb_eq in H
         | H : (_ =? _)%nat = false |- _ => apply Nat.eqb_neq in H
         end.

(** What one cycle does to the local variables, however it ends. *)
Lemma cycle_inv {D} (driver : webdriver D) (st st' : loop_state)
  (r : res flow) (d d' : D) :
  cycle driver st d = (r, st', d') ->
  scroll_attempts st' = scroll_attempts st + 1
  /\ (exists articles, tweets_data st' = scan_articles articles (tweets_data st))
  /\ (forall why, r = Ok (Break why) -> why = ByExhaustion \/ why = ByEndOfPage)
  /\ (r = Ok (Break ByExhaustion) ->
      no_new_tweets_count st' = no_new_tweets_count st + 1
      /\ 5 <= no_new_tweets_count st')
  /\ (r = Ok Next \/ r = Ok (Break ByEndOfPage) -> no_new_tweets_count st' <= 4)
  /\ (forall e, r = Raise e ->
        no_new_tweets_count st' = no_new_tweets_count st
        \/ no_new_tweets_count st' <= 4
        \/ (no_new_tweets_count st' = no_new_tweets_count st + 1
            /\ 3 <= no_new_tweets_count st'
            /\ is_NoSuchElement e = false
            /\ exists d2, click_show_more driver d2 = (Raise e, d'))).
Proof.
  intros H. unfold_cycle.
  repeat (case_match; simplify_eq);
    cbn [scroll_attempts tweets_data no_new_tweets_count last_height] in *;
    nat_tests;
    (split; [reflexivity|]);
    (split; [first [eexists; reflexivity | exists []; reflexivity]|]);
    (split; [intros why Hw; simplify_eq; auto|]);
    (split; [intros Hx; simplify_eq; try (split; [reflexivity|lia])|]);
    (split; [intros [Hx|Hx]; simplify_eq; lia|]);
    intros e' He'; simplify_eq; try (left; reflexivity); try (right; left; lia);
    right; right; (split; [reflexivity|]); (split; [lia|]);
    (split; [assumption|]); eexists; unfold click_show_more, bind;
    match goal with
    | H : driver_find_element driver XPATH show_more_xpath ?d2 = _ |- _ =>
        instantiate (1 := d2); rewrite H; try reflexivity
    end;
    match goal with
    | H : execute_script driver "arguments[0].click();" _ _ = _ |- _ => now rewrite H
    end.
Qed.

(** ** The scroll loop *)

Lemma loop_condition_true (st : loop_state) :
  (length (tweets_data st) <? TWEET_LIMIT)%nat
  && (scroll_attempts st <? max_scroll_attempts)%nat = true ->
  length (tweets_data st) < TWEET_LIMIT
  /\ scroll_attempts st < max_scroll_attempts.
Proof.
  intros H. apply andb_true_iff in H as [H1 H2].
  apply Nat.ltb_lt in H1, H2. now split.
Qed.

(** With at least as much fuel as scroll attempts are left, the loop
    ends by itself, within that many further cycles. *)
Lemma scrape_loop_enough {D} (driver : webdriver D) (fuel : nat) :
  forall (st : loop_state) (n : nat) (d : D),
    max_scroll_attempts - scroll_attempts st <= fuel ->
    exit_by (scrape_loop driver fuel st n d) <> OutOfFuel
    /\ cycles (scrape_loop driver fuel st n d)
       <= n + (max_scroll_attempts - scroll_attempts st).
Proof.
  induction fuel as [|fuel IH]; intros st n d Hfuel; cbn [scrape_loop];
    destruct ((length (tweets_data st) <? TWEET_LIMIT)%nat
              && (scroll_attempts st <? max_scroll_attempts)%nat) eqn:Hc;
    try (cbn [exit_by cycles]; split; [discriminate|lia]).
  - apply loop_condition_true in Hc. lia.
  - apply loop_condition_true in Hc as [_ Hsa].
    destruct (cycle driver st d) as [[[fl|e] st'] d'] eqn:Hcy.
    + apply cycle_inv in Hcy as (Hs & _ & Hfl & _).
      destruct fl as [|why].
      * destruct (IH st' (S n) d') as [H1 H2]; [lia|].
        split; [exact H1|]. lia.
      * cbn [exit_by cycles]. split; [|lia].
        destruct (Hfl why eq_refl) as [->| ->]; discriminate.
    + cbn [exit_by cycles]. split; [discriminate|lia].
Qed.

(** Any two sufficient amounts of fuel give the same run. *)
Lemma scrape_loop_fuel_irrelevant {D} (driver : webdriver D) (fuel : nat) :
  forall (fuel' : nat) (st : loop_state) (n : nat) (d : D),
    max_scroll_attempts - scroll_attempts st <= fuel ->
    max_scroll_attempts - scroll_attempts st <= fuel' ->
    scrape_loop driver fuel st n d = scrape_loop driver fuel' st n d.
Proof.
  induction fuel as [|fuel IH]; intros fuel' st n d H H';
    destruct fuel' as [|fuel']; cbn [scrape_loop];
    destruct ((length (tweets_data st) <? TWEET_LIMIT)%nat
              && (scroll_attempts st <? max_scroll_attempts)%nat) eqn:Hc;
    try reflexivity;
    apply loop_condition_true in Hc as [_ Hsa]; try lia.
  destruct (cycle driver st d) as [[[fl|e] st'] d'] eqn:Hcy; [|reflexivity].
  apply cycle_inv in Hcy as (Hs & _).
  destruct fl; [|reflexivity].
  apply IH; lia.
Qed.

(** The ids held by the loop stay pairwise distinct. *)
Lemma scrape_loop_NoDup {D} (driver : webdriver D) (fuel : nat) :
  forall (st : loop_state) (n : nat) (d : D),
    NoDup (map id (tweets_data st)) ->
    NoDup (map id (tweets_data (final (scrape_loop driver fuel st n d)))).
Proof.
  induction fuel as [|fuel IH]; intros st n d Hst; cbn [scrape_loop];
    destruct ((length (tweets_data st) <? TWEET_LIMIT)%nat
              && (scroll_attempts st <? max_scroll_attempts)%nat);
    try exact Hst.
  destruct (cycle driver st d) as [[r st'] d'] eqn:Hcy.
  apply cycle_inv in Hcy as (_ & (articles & Hts) & _).
  assert (NoDup (map id (tweets_data st'))) as Hst'
    by (rewrite Hts; now apply scan_articles_NoDup).
  destruct r as [[|why]|e]; [now apply IH|exact Hst'..].
Qed.

(** Whatever the loop holds was produced by scanning, cycle after
    cycle, from what it held before. *)
Lemma scrape_loop_scans {D} (driver : webdriver D) (fuel : nat) :
  forall (st : loop_state) (n : nat) (d : D),
    exists scanned : list (list element),
      tweets_data (final (scrape_loop driver fuel st n d))
      = fold_left (fun acc articles => scan_articles articles acc)
                  scanned (tweets_data st).
Proof.
  induction fuel as [|fuel IH]; intros st n d; cbn [scrape_loop];
    destruct ((length (tweets_data st) <? TWEET_LIMIT)%nat
              && (scroll_attempts st <? max_scroll_attempts)%nat);
    try (now exists []).
  destruct (cycle driver st d) as [[r st'] d'] eqn:Hcy.
  apply cycle_inv in Hcy as (_ & (articles & Hts) & _).
  destruct r as [[|why]|e].
  - destruct (IH st' (S n) d') as [scanned Hsc].
    exists (articles :: scanned). cbn. now rewrite <- Hts.
  - exists [articles]. cbn. now rewrite <- Hts.
  - exists [articles]. cbn. now rewrite <- Hts.
Qed.

(** The exhaustion exit is taken with the counter at exactly 5. *)
Lemma scrape_loop_exhaustion {D} (driver : webdriver D) (fuel : nat) :
  forall (st : loop_state) (n : nat) (d : D),
    no_new_tweets_count st <= 4 ->
    exit_by (scrape_loop driver fuel st n d) = ByExhaustion ->
    no_new_tweets_count (final (scrape_loop driver fuel st n d)) = 5.
Proof.
  induction fuel as [|fuel IH]; intros st n d Hst; cbn [scrape_loop];
    destruct ((length (tweets_data st) <? TWEET_LIMIT)%nat
              && (scroll_attempts st <? max_scroll_attempts)%nat);
    try (cbn; discriminate).
  destruct (cycle driver st d) as [[[fl|e] st'] d'] eqn:Hcy; [|cbn; discriminate].
  apply cycle_inv in Hcy as (_ & _ & _ & Hex & Hnx & _).
  destruct fl as [|why].
  - apply IH. apply Hnx. now left.
  - cbn. intros ->. destruct Hex as [H1 H2]; [reflexivity|]. lia.
Qed.

(** Unfolding the loop more than [max_scroll_attempts] times changes
    nothing in what [scrape_tweets] returns. *)
Lemma scrape_tweets_fuel_enough {D} (driver : webdriver D) (extra : nat)
  (twitter_handle : string) (d : D) :
  scrape_tweets_fuel driver (max_scroll_attempts + extra) twitter_handle d
  = scrape_tweets driver twitter_handle d.
Proof.
  unfold scrape_tweets, scrape_tweets_fuel, scrape_run, bind.
  destruct (driver_get driver _ d) as [[u|e] d1]; [|reflexivity].
  destruct (wait_until_present driver 30 "article" d1) as [[u'|e] d2];
    [|reflexivity].
  destruct (execute_script driver height_script [] d2) as [[height|e] d3];
    [|reflexivity].
  rewrite (scrape_loop_fuel_irrelevant driver (max_scroll_attempts + extra)
             max_scroll_attempts (initial_state height) 0 d3);
    [reflexivity| |]; cbn [initial_state scroll_attempts]; lia.
Qed.

(** C3.  Whatever the driver answers (article lists, extraction
    outcomes, document heights, exceptions), the [while] loop of
    [scrape_tweets] ends by itself after at most [max_scroll_attempts]
    = 30 cycles: unfolding it 30 times or more never runs out of fuel,
    and every such unfolding gives the same run and the same result of
    [scrape_tweets]. *)
Theorem scroll_loop_terminates {D} (driver : webdriver D) (extra : nat)
  (height : jsval) (twitter_handle : string) (d : D) :
  let r := scrape_loop driver (max_scroll_attempts + extra)
                       (initial_state height) 0 d in
  exit_by r <> OutOfFuel
  /\ cycles r <= max_scroll_attempts
  /\ max_scroll_attempts = 30
  /\ r = scrape_loop driver max_scroll_attempts (initial_state height) 0 d
  /\ scrape_tweets_fuel driver (max_scroll_attempts + extra) twitter_handle d
     = scrape_tweets driver twitter_handle d.
Proof.
  cbv zeta.
  destruct (scrape_loop_enough driver (max_scroll_attempts + extra)
              (initial_state height) 0 d) as [H1 H2].
  { cbn [initial_state scroll_attempts]. lia. }
  cbn [initial_state scroll_attempts] in H2.
  split; [exact H1|]. split; [lia|]. split; [reflexivity|].
  split; [|apply scrape_tweets_fuel_enough].
  apply scrape_loop_fuel_irrelevant; cbn [initial_state scroll_attempts]; lia.
Qed.

(** C2.  Within one run, a candidate whose id is already held is not
    appended: looking up any id in the result of a scan gives the first
    record with that id among the records held before followed by the
    scanned candidates; held records stay where they are; the ids of a
    run are pairwise distinct and its records come from scanning cycle
    after cycle.  On the three scans showing the ids 1,2 / 2,3 / 4 the
    run returns the records 1,2,3,4 in this order, and record 2 is the
    one of the first scan. *)
Theorem first_scanned_record_retained :
  (forall (articles : list element) (tweets_data : list tweet) (i : string),
      find_by_id i (scan_articles articles tweets_data)
      = find_by_id i (tweets_data ++ candidates articles))
  /\ (forall (articles : list element) (tweets_data : list tweet),
         exists new, scan_articles articles tweets_data = tweets_data ++ new)
  /\ (forall D (driver : webdriver D) (fuel : nat) (height : jsval) (d : D),
         let r := scrape_loop driver fuel (initial_state height) 0 d in
         NoDup (map id (tweets_data (final r)))
         /\ exists scanned : list (list element),
              tweets_data (final r)
              = fold_left (fun acc articles => scan_articles articles acc)
                          scanned [])
  /\ (exists tweets : list tweet,
         fst (scrape_tweets scripted "TCS" three_scans) = Ok tweets
         /\ map (fun t => (id t, text t)) tweets
            = [("1", "one"); ("2", "two"); ("3", "three"); ("4", "four")]).
Proof.
  split; [|split; [|split]].
  - intros articles tweets_data i.
    rewrite scan_articles_fold. apply find_by_id_fold.
  - intros articles tweets_data.
    rewrite scan_articles_fold. apply fold_accept_extends.
  - intros D driver fuel height d. cbv zeta. split.
    + apply scrape_loop_NoDup. cbn. constructor.
    + apply (scrape_loop_scans driver fuel (initial_state height) 0 d).
  - exists (match fst (scrape_tweets scripted "TCS" three_scans) with
            | Ok tweets => tweets
            | Raise _ => []
            end).
    split; vm_compute; reflexivity.
Qed.

(** C5, as stated, fails: on a page that shows no tweet and no "Show
    more" control while its height grows at every measurement, the loop
    leaves by the exhaustion exit although the height never stopped
    changing. *)
Lemma exhaustion_despite_growing_height :
  ~ exhaustion_on_stalled_height scripted (JsNum 50) growing_empty_page
  /\ NoDup (50%Z :: heights growing_empty_page).
Proof.
  split.
  - intros H. destruct H as [_ H]; [vm_compute; reflexivity|].
    vm_compute in H. discriminate H.
  - apply (bool_decide_unpack _). vm_compute. reflexivity.
Qed.

(** C5, amended.  The loop leaves by the exhaustion exit only with the
    no-growth counter at 5.  In a cycle whose scan gains no record the
    counter is incremented; below 3 the "Show more" control is not
    looked for; from 3 on it is, and when the lookup raises
    [NoSuchElementException] the cycle goes on to the height test while
    the counter is below 5 and leaves the loop by exhaustion once it is
    5 or more, from the driver state reached by the lookup and with
    [last_height] as it was: the document height is not measured on
    this path.  Conversely a cycle that leaves by exhaustion is such a
    cycle.  The end-of-page exit is a separate one: whenever the
    counter test lets the cycle go on, the cycle ends as the height
    test does, and the height test leaves the loop after three readings
    equal to [last_height] whatever the counter is. *)
Theorem exhaustion_exit_conditions {D} (driver : webdriver D) :
  (forall (fuel : nat) (height : jsval) (d : D),
      exit_by (scrape_loop driver fuel (initial_state height) 0 d) = ByExhaustion ->
      no_new_tweets_count
        (final (scrape_loop driver fuel (initial_state height) 0 d)) = 5)
  /\ (forall (st : loop_state) (d0 d1 d2 : D) (v : jsval)
             (articles : list element),
         execute_script driver scroll_script [] d0 = (Ok v, d1) ->
         driver_find_elements driver CSS_SELECTOR "article" d1 = (Ok articles, d2) ->
         length (scan_articles articles (tweets_data st))
         = length (tweets_data st) ->
         (no_new_tweets_count st + 1 < 3 ->
          cycle driver st d0 = check_height driver (stalled st articles) d2)
         /\ (forall (e : exn) (d3 : D),
                3 <= no_new_tweets_count st + 1 ->
                click_show_more driver d2 = (Raise e, d3) ->
                is_NoSuchElement e = true ->
                (no_new_tweets_count st + 1 < 5 ->
                 cycle driver st d0 = check_height driver (stalled st articles) d3)
                /\ (5 <= no_new_tweets_count st + 1 ->
                    cycle driver st d0
                    = (Ok (Break ByExhaustion), stalled st articles, d3))))
  /\ (forall (st st' : loop_state) (d0 d' : D),
         cycle driver st d0 = (Ok (Break ByExhaustion), st', d') ->
         5 <= no_new_tweets_count st'
         /\ exists (v : jsval) (articles : list element) (d1 d2 : D) (e : exn),
              execute_script driver scroll_script [] d0 = (Ok v, d1)
              /\ driver_find_elements driver CSS_SELECTOR "article" d1
                 = (Ok articles, d2)
              /\ length (scan_articles articles (tweets_data st))
                 = length (tweets_data st)
              /\ st' = stalled st articles
              /\ click_show_more driver d2 = (Raise e, d')
              /\ is_NoSuchElement e = true)
  /\ (forall (st st3 : loop_state) (d0 d1 d2 d3 : D) (v : jsval)
             (articles : list element),
         execute_script driver scroll_script [] d0 = (Ok v, d1) ->
         driver_find_elements driver CSS_SELECTOR "article" d1 = (Ok articles, d2) ->
         check_new_tweets driver (length (tweets_data st))
           (set_tweets_data (scan_articles articles (tweets_data st))
              (set_scroll_attempts (scroll_attempts st + 1) st)) d2
         = (Ok Next, st3, d3) ->
         cycle driver st d0 = check_height driver st3 d3)
  /\ (forall (st : loop_state) (da db dc dd de d' : D) (v w : jsval),
         execute_script driver height_script [] da = (Ok (last_height st), db) ->
         execute_script driver height_script [] db = (Ok (last_height st), dc) ->
         execute_script driver
           "window.scrollTo(0, document.body.scrollHeight * 0.8);" [] dc
         = (Ok v, dd) ->
         execute_script driver scroll_script [] dd = (Ok w, de) ->
         execute_script driver height_script [] de = (Ok (last_height st), d') ->
         check_height driver st da = (Ok (Break ByEndOfPage), st, d')).
Proof.
  split; [|split; [|split; [|split]]].
  - intros fuel height d. apply scrape_loop_exhaustion. cbn. lia.
  - intros st d0 d1 d2 v articles Hscroll Hfind Hlen.
    split.
    + intros Hlt. apply Nat.leb_gt in Hlt.
      unfold cycle, check_new_tweets, lbind, call, var, assign, lret.
      rewrite Hscroll, Hfind.
      cbn [set_tweets_data set_scroll_attempts set_no_new_tweets_count
           tweets_data no_new_tweets_count scroll_attempts last_height].
      rewrite Hlen, Nat.eqb_refl.
      cbn [set_tweets_data set_scroll_attempts set_no_new_tweets_count
           tweets_data no_new_tweets_count scroll_attempts last_height].
      rewrite Hlt. reflexivity.
    + intros e d3 Hge Hclick Hnse. apply Nat.leb_le in Hge.
      assert (cycle driver st d0
              = if (5 <=? no_new_tweets_count st + 1)%nat
                then (Ok (Break ByExhaustion), stalled st articles, d3)
                else check_height driver (stalled st articles) d3) as Hc.
      { unfold cycle, check_new_tweets, try_show_more, lbind, call, var, assign,
          lret.
        rewrite Hscroll, Hfind.
        cbn [set_tweets_data set_scroll_attempts set_no_new_tweets_count
             tweets_data no_new_tweets_count scroll_attempts last_height].
        rewrite Hlen, Nat.eqb_refl.
        cbn [set_tweets_data set_scroll_attempts set_no_new_tweets_count
             tweets_data no_new_tweets_count scroll_attempts last_height].
        rewrite Hge, Hclick, Hnse.
        cbn [set_tweets_data set_scroll_attempts set_no_new_tweets_count
             tweets_data no_new_tweets_count scroll_attempts last_height].
        destruct (5 <=? no_new_tweets_count st + 1)%nat; reflexivity. }
      split; intros H5.
      * apply Nat.leb_gt in H5. now rewrite H5 in Hc.
      * apply Nat.leb_le in H5. now rewrite H5 in Hc.
  - intros st st' d0 d' H.
    pose proof (cycle_inv driver st st' _ d0 d' H) as (_ & _ & _ & Hex & _).
    destruct Hex as [Hc1 Hc2]; [reflexivity|].
    split; [exact Hc2|].
    unfold_cycle.
    repeat (case_match; simplify_eq); nat_tests;
      cbn [tweets_data no_new_tweets_count scroll_attempts last_height] in *;
      do 5 eexists;
      (split; [reflexivity|]); (split; [eassumption|]);
      (split; [eassumption|]); (split; [reflexivity|]);
      (split; [|eassumption]);
      match goal with
      | H : driver_find_element _ _ _ _ = _ |- _ => rewrite H; cbn beta iota
      end;
      try match goal with
          | H : execute_script _ "arguments[0].click();" _ _ = _ |- _ => rewrite H
          end;
      reflexivity.
  - intros st st3 d0 d1 d2 d3 v articles Hscroll Hfind Hcheck.
    unfold cycle, lbind, call, var, assign.
    rewrite Hscroll, Hfind.
    cbn [set_tweets_data set_scroll_attempts tweets_data] in *.
    now rewrite Hcheck.
  - intros st da db dc dd de d' v w Ha Hb Hc Hd He.
    unfold check_height, lbind, call, var, lret.
    rewrite Ha, (proj2 (jsval_eqb_eq _ _) eq_refl).
    rewrite Hb, (proj2 (jsval_eqb_eq _ _) eq_refl).
    rewrite Hc, Hd, He, (proj2 (jsval_eqb_eq _ _) eq_refl). reflexivity.
Qed.

(** The exhaustion exit on the growing page, whose fifth stalled cycle
    ends the run. *)
Lemma exhaustion_exit_conditions_witness :
  no_new_tweets_count
    (final (scrape_loop scripted 30 (initial_state (JsNum 50)) 0 growing_empty_page))
  = 5
  /\ cycle scripted
       {| tweets_data := []; last_height := JsNum 50;
          scroll_attempts := 4; no_new_tweets_count := 4 |}
       growing_empty_page
     = (Ok (Break ByExhaustion),
        {| tweets_data := []; last_height := JsNum 50;
           scroll_attempts := 5; no_new_tweets_count := 5 |},
        growing_empty_page).
Proof.
  pose proof (exhaustion_exit_conditions scripted) as (H1 & H2 & _).
  split.
  - apply H1. vm_compute. reflexivity.
  - destruct (H2 {| tweets_data := []; last_height := JsNum 50;
                    scroll_attempts := 4; no_new_tweets_count := 4 |}
                 growing_empty_page growing_empty_page growing_empty_page
                 JsNone [] eq_refl eq_refl eq_refl) as [_ H].
    apply (H (Exn NoSuchElementException
                  ("no such element: " ++ show_more_xpath)) growing_empty_page);
      [vm_compute; lia|reflexivity|reflexivity|vm_compute; lia].
Defined.

(** ** Faults while one article is processed *)

Lemma no_identifier_None (article : element) :
  no_identifier article -> extract_tweet_data article = None.
Proof.
  intros [e He]. unfold extract_tweet_data, extract_tweet_body. rewrite He.
  destruct (exn_cls e); reflexivity.
Qed.

Lemma faulty_candidate (article : element) :
  faulty article -> candidate article = None.
Proof.
  unfold candidate.
  intros [[e He]|[[e He]|Hid]].
  - now rewrite He.
  - unfold extract_tweet_data. rewrite He. repeat case_match; reflexivity.
  - rewrite (no_identifier_None _ Hid). repeat case_match; reflexivity.
Qed.

Lemma candidate_same_but_lists (article other : element) (t : tweet) :
  same_but_lists article other -> candidate article = Some t ->
  candidate other = Some (with_lists_of other t).
Proof.
  intros [Hfe Hga].
  unfold candidate, extract_tweet_data, extract_tweet_body, extract_id,
    with_lists_of.
  rewrite !Hfe, !Hga. unfold res_bind, except_NoSuchElement. intros H.
  repeat (case_match; simplify_eq); reflexivity.
Qed.

Lemma unlistable_lists (article : element) :
  (forall selector, exists e, find_elements article selector = Raise e) ->
  extract_metrics article = initial_metrics /\ extract_photos article = [].
Proof.
  intros Hall. split.
  - unfold extract_metrics, metric_selectors. cbn [fold_left selector_loop].
    repeat match goal with
           | |- context [find_elements article ?sel] =>
               let e := fresh "e" in let He := fresh "He" in
               destruct (Hall sel) as [e He]; rewrite He; clear e He
           end.
    reflexivity.
  - unfold extract_photos, media_selectors. cbn [media_loop].
    destruct (Hall "img[src*='https://pbs.twimg.com/media/']") as [e ->].
    reflexivity.
Qed.

(** C6, as stated, fails: a fault in the lookup of the metric buttons
    and of the images is caught inside [extract_tweet_data], and the
    article is not skipped: its record is accepted, without counts and
    photos. *)
Lemma lookup_fault_keeps_record :
  ~ every_fault_skips
  /\ lookup_fault unlistable_article
  /\ map (fun t => (id t, likes t, photos t))
         (scan_articles [unlistable_article] [])
     = [("5", PyInt 0, [])].
Proof.
  assert (lookup_fault unlistable_article) as Hf
    by (left; eexists; reflexivity).
  split; [|split; [exact Hf|vm_compute; reflexivity]].
  intros H. specialize (H unlistable_article [] [] (or_intror Hf)).
  vm_compute in H. discriminate H.
Qed.

(** C6, amended.  A fault raised while one article is processed before
    its record is complete (the attribute read raises, the extraction
    body raises, or no identifier can be obtained, which makes
    [extract_tweet_data] return [None]) makes the scan skip that article
    only: the scan accepts, in order, exactly the candidates of the
    articles before and after it, so the article after it is processed
    as usual, and the scan itself never raises.  A fault in the lookup
    of the metric buttons or of the images is caught inside the
    extraction and does not skip the article: whatever these lookups
    answer, the record is kept with the same id, url, text and
    timestamp, and when all of them raise it has the counts 0 and no
    photos.  On a page showing a tweet, an article without permalink, an
    article whose descendants cannot be listed and another tweet, the
    run returns the records of the first, third and fourth article. *)
Theorem faulty_article_skipped (pre post : list element) (article : element)
  (tweets_data : list tweet) :
  (faulty article ->
   candidate article = None
   /\ scan_articles (pre ++ article :: post) tweets_data
      = fold_left accept (candidates pre ++ candidates post) tweets_data)
  /\ (no_identifier article -> extract_tweet_data article = None)
  /\ (forall (next : element) (t : tweet),
         faulty article -> candidate next = Some t ->
         scan_articles [article; next] tweets_data = accept tweets_data t)
  /\ (forall (other : element) (t : tweet),
         same_but_lists article other -> candidate article = Some t ->
         candidate other = Some (with_lists_of other t)
         /\ scan_articles (other :: post) tweets_data
            = scan_articles post (accept tweets_data (with_lists_of other t))
         /\ ((forall selector, exists e,
                 find_elements other selector = Raise e) ->
             with_lists_of other t = without_lists t))
  /\ (exists tweets : list tweet,
         fst (scrape_tweets scripted "TCS" faulty_page) = Ok tweets
         /\ map (fun t => (id t, text t)) tweets
            = [("1", "one"); ("5", "five"); ("2", "two")]).
Proof.
  split; [|split; [|split; [|split]]].
  - intros Hf. apply faulty_candidate in Hf. split; [exact Hf|].
    rewrite scan_articles_fold, candidates_app. cbn [candidates].
    now rewrite Hf.
  - apply no_identifier_None.
  - intros next t Hf Hn. apply faulty_candidate in Hf.
    rewrite scan_articles_fold. cbn [candidates]. now rewrite Hf, Hn.
  - intros other t Hsame Hc.
    pose proof (candidate_same_but_lists _ _ _ Hsame Hc) as Ho.
    split; [exact Ho|]. split.
    + rewrite !scan_articles_fold. cbn [candidates]. now rewrite Ho.
    + intros Hall. destruct (unlistable_lists other Hall) as [Hm Hp].
      unfold with_lists_of, without_lists. now rewrite Hm, Hp.
  - exists (match fst (scrape_tweets scripted "TCS" faulty_page) with
            | Ok tweets => tweets
            | Raise _ => []
            end).
    split; vm_compute; reflexivity.
Qed.

Lemma faulty_article_skipped_witness :
  candidate anonymous_article = None
  /\ scan_articles ([tweet_article "1" "one" []] ++
                    anonymous_article :: [tweet_article "2" "two" []]) []
     = fold_left accept
         (candidates [tweet_article "1" "one" []]
          ++ candidates [tweet_article "2" "two" []]) [].
Proof.
  apply (faulty_article_skipped [tweet_article "1" "one" []]
           [tweet_article "2" "two" []] anonymous_article []).
  right. right. eexists. vm_compute. reflexivity.
Defined.

(** ** The record ceiling *)

Lemma fold_accept_keeps (ts tweets : list tweet) (i : string) :
  In i (map id tweets) -> In i (map id (fold_left accept ts tweets)).
Proof.
  intros H. destruct (fold_accept_extends ts tweets) as [new ->].
  rewrite map_app. apply in_or_app. now left.
Qed.

Lemma fold_accept_all (ts tweets : list tweet) (t : tweet) :
  In t ts -> In (id t) (map id (fold_left accept ts tweets)).
Proof.
  revert tweets. induction ts as [|x ts IH]; intros tweets; cbn; [intros []|].
  intros [->|H]; [|now apply IH].
  apply fold_accept_keeps. unfold accept.
  destruct (id_not_in (id t) tweets) eqn:E.
  - rewrite map_app. apply in_or_app. right. now left.
  - now apply id_not_in_false.
Qed.

Lemma candidates_In (articles : list element) (article : element) (t : tweet) :
  In article articles -> candidate article = Some t -> In t (candidates articles).
Proof.
  induction articles as [|a rest IH]; cbn; [intros []|].
  intros [->|H] Hc.
  - rewrite Hc. now left.
  - destruct (candidate a); [right|]; now apply IH.
Qed.

(** C10.  [TWEET_LIMIT] = 100 is tested only at the head of the loop: a
    loop entered with 100 records or more runs no cycle and returns
    what it holds, while a scan appends every candidate whose id is
    new, whatever the length reached; so a run can return more than 100
    records, as the page whose first scan shows 101 tweets does. *)
Theorem limit_checked_between_cycles {D} (driver : webdriver D) (fuel : nat)
  (st : loop_state) (n : nat) (d : D)
  (articles : list element) (article : element) (t : tweet)
  (tweets_data0 : list tweet) :
  TWEET_LIMIT = 100
  /\ (TWEET_LIMIT <= length (tweets_data st) ->
      scrape_loop driver fuel st n d
      = {| exit_by := ByCondition; final := st; cycles := n; driver_after := d |})
  /\ (In article articles -> candidate article = Some t ->
      In (id t) (map id (scan_articles articles tweets_data0)))
  /\ (exists tweets : list tweet,
         fst (scrape_tweets scripted "TCS" crowded_page) = Ok tweets
         /\ length tweets = 101
         /\ TWEET_LIMIT < length tweets).
Proof.
  split; [reflexivity|]. split; [|split].
  - intros H.
    assert ((length (tweets_data st) <? TWEET_LIMIT)%nat = false) as Hc
      by now apply Nat.ltb_ge.
    destruct fuel; cbn [scrape_loop]; rewrite Hc; reflexivity.
  - intros Hin Hc. rewrite scan_articles_fold.
    apply fold_accept_all. eapply candidates_In; eassumption.
  - exists (match fst (scrape_tweets scripted "TCS" crowded_page) with
            | Ok tweets => tweets
            | Raise _ => []
            end).
    split; [|split]; vm_compute; reflexivity.
Qed.

(** ** Metric counts *)

Lemma metric_elements_loop_other (key k : string) (els : list element)
  (m : gmap string pynum) :
  k <> key -> metric_elements_loop key els m !! k = m !! k.
Proof.
  intros Hk. induction els as [|el els IH]; cbn; [reflexivity|].
  destruct (read_count el) as [[c|]|e]; try exact IH.
  now rewrite lookup_insert_ne.
Qed.

(** A selector loop touches no key but its own. *)
Lemma selector_loop_other (article : element) (key k : string)
  (sels : list string) :
  k <> key ->
  forall m : gmap string pynum, selector_loop article key sels m !! k = m !! k.
Proof.
  intros Hk. induction sels as [|sel sels IH]; intros m; cbn; [reflexivity|].
  destruct (find_elements article sel) as [els|e]; [|apply IH].
  pose proof (metric_elements_loop_other key k els m Hk) as Hm.
  destruct (metric_elements_loop key els m !! key) as [v|].
  - destruct (num_pos v); [exact Hm|]. now rewrite IH.
  - now rewrite IH.
Qed.

Lemma extract_metrics_unfold (article : element) :
  extract_metrics article
  = selector_loop article "likes" ["[data-testid='like']"; "[aria-label*='like']"]
      (selector_loop article "retweets"
         ["[data-testid='retweet']"; "[aria-label*='retweet']"]
         (selector_loop article "replys"
            ["[data-testid='reply']"; "[aria-label*='repl']"] initial_metrics)).
Proof. reflexivity. Qed.

(** The first selector that leaves a positive count ends the loop. *)
Lemma selector_loop_first_positive (article : element) (key sel : string)
  (rest : list string) (els : list element) (m : gmap string pynum) (v : pynum) :
  find_elements article sel = Ok els ->
  metric_elements_loop key els m !! key = Some v ->
  num_pos v = true ->
  selector_loop article key (sel :: rest) m = metric_elements_loop key els m.
Proof.
  intros H1 H2 H3. cbn [selector_loop]. now rewrite H1, H2, H3.
Qed.

(** One button under the first selector, nothing under the second. *)
Lemma selector_loop_single (article b : element) (key s1 s2 : string)
  (m : gmap string pynum) (v0 : pynum) :
  find_elements article s1 = Ok [b] ->
  find_elements article s2 = Ok [] ->
  m !! key = Some v0 ->
  selector_loop article key [s1; s2] m !! key
  = Some (match read_count b with Ok (Some c) => c | _ => v0 end).
Proof.
  intros H1 H2 Hm. cbn [selector_loop]. rewrite H1, H2.
  cbn [metric_elements_loop].
  destruct (read_count b) as [[c|]|e];
    rewrite ?lookup_insert_eq, ?Hm;
    repeat (case_match; simplify_eq);
    rewrite ?lookup_insert_eq, ?Hm; reflexivity.
Qed.

Lemma recorded_likes_button (b : element) :
  recorded_likes (like_button_article b)
  = Some (match read_count b with Ok (Some c) => c | _ => PyInt 0 end).
Proof.
  assert (extract_tweet_body (like_button_article b)
          = Ok (Some {| id := "9"; url := "https://twitter.com/TCS/status/9";
                        text := "hi"; timestamp := Some "";
                        replies := metrics_get (extract_metrics (like_button_article b)) "replies";
                        retweets := metrics_get (extract_metrics (like_button_article b)) "retweets";
                        likes := metrics_get (extract_metrics (like_button_article b)) "likes";
                        photos := extract_photos (like_button_article b) |})) as Hb
    by reflexivity.
  unfold recorded_likes, extract_tweet_data. rewrite Hb. cbn [option_map likes].
  f_equal. unfold metrics_get. rewrite extract_metrics_unfold.
  erewrite selector_loop_single; [reflexivity|reflexivity|reflexivity|].
  rewrite !selector_loop_other by discriminate. reflexivity.
Qed.

Lemma read_count_counter (s : string) :
  read_count (counter s)
  = if str_nonempty s then (let? c := convert_count s in Ok (Some c)) else Ok None.
Proof. destruct s; reflexivity. Qed.

Lemma read_count_labelled (label : string) :
  read_count (labelled label)
  = match search_count label with
    | Some g => if str_nonempty g then (let? c := convert_count g in Ok (Some c))
                else Ok None
    | None => Ok None
    end.
Proof.
  destruct label as [|c t]; [reflexivity|].
  unfold read_count, count_text_span, count_text_aria, labelled. cbn.
  destruct (if is_digit c then _ else _); reflexivity.
Qed.

Lemma digit_value_nonneg (c : ascii) :
  is_digit c = true -> (0 <= Z.of_nat (nat_of_ascii c) - 48)%Z.
Proof.
  unfold is_digit. intros H. apply andb_true_iff in H as [H _].
  apply Nat.leb_le in H. lia.
Qed.

Lemma digits_value_from_nonneg (s : string) :
  forall acc : Z, all_digits s = true -> (0 <= acc)%Z ->
                  (0 <= digits_value_from acc s)%Z.
Proof.
  induction s as [|c t IH]; intros acc Hd Hacc; cbn; [exact Hacc|].
  cbn in Hd. apply andb_true_iff in Hd as [Hc Ht].
  apply IH; [exact Ht|]. pose proof (digit_value_nonneg c Hc). lia.
Qed.

Lemma span_digits_all (s : string) : all_digits (fst (span_digits s)) = true.
Proof.
  induction s as [|c t IH]; cbn; [reflexivity|].
  destruct (is_digit c) eqn:E; [|reflexivity].
  destruct (span_digits t) as [ds r]. cbn in *. now rewrite E.
Qed.

Lemma all_digits_app (a b : string) :
  all_digits (a ++ b)%string = all_digits a && all_digits b.
Proof.
  induction a as [|c t IH]; [reflexivity|].
  change (String c t ++ b)%string with (String c (t ++ b)).
  cbn [all_digits]. rewrite IH. now rewrite andb_assoc.
Qed.

(** *** Rounding keeps the sign *)

Lemma round_half_even_nonneg (a b : Z) :
  (0 <= a)%Z -> (0 < b)%Z -> (0 <= round_half_even a b)%Z.
Proof.
  intros Ha Hb. unfold round_half_even.
  pose proof (Z.div_pos a b Ha Hb).
  repeat case_match; lia.
Qed.

Lemma scaled_positive (n d e : Z) :
  (0 < n)%Z -> (0 < d)%Z ->
  (0 <= fst (scaled n d e))%Z /\ (0 < snd (scaled n d e))%Z.
Proof.
  intros Hn Hd. unfold scaled. destruct (0 <=? e)%Z eqn:E; cbn [fst snd].
  - apply Z.leb_le in E. split; [lia|].
    apply Z.mul_pos_pos; [exact Hd|]. now apply Z.pow_pos_nonneg.
  - split; [|exact Hd].
    apply Z.mul_nonneg_nonneg; [lia|]. apply Z.pow_nonneg. lia.
Qed.

(** A rounded magnitude is a magnitude, or the infinity of the same
    sign. *)
Lemma b64_round_cases (negative : bool) (q : Q) :
  (exists m, b64_round negative q = Fnum negative m /\ Qle_bool 0 m = true)
  \/ b64_round negative q = Finf negative.
Proof.
  unfold b64_round.
  destruct (Qnum q <=? 0)%Z eqn:En; [left; exists 0%Q; now split|].
  apply Z.leb_gt in En.
  destruct (scaled_positive (Qnum q) (Z.pos (Qden q))
              (ulp_exponent (Qnum q) (Z.pos (Qden q))) En eq_refl) as [Ha Hb].
  destruct (scaled (Qnum q) (Z.pos (Qden q))
              (ulp_exponent (Qnum q) (Z.pos (Qden q)))) as [a b].
  cbn [fst snd] in Ha, Hb.
  pose proof (round_half_even_nonneg a b Ha Hb) as Hm.
  destruct (0 <=? ulp_exponent (Qnum q) (Z.pos (Qden q)))%Z eqn:Ee.
  - destruct (2 ^ 1024 <=? _)%Z; [now right|].
    left. eexists. split; [reflexivity|].
    apply Qle_bool_iff. unfold Qle. cbn [Qnum Qden inject_Z].
    assert (0 <= 2 ^ ulp_exponent (Qnum q) (Z.pos (Qden q)))%Z
      by (apply Z.pow_nonneg; lia).
    rewrite Z.mul_1_r. change (0 * 1)%Z with 0%Z. nia.
  - left. eexists. split; [reflexivity|].
    apply Qle_bool_iff. rewrite Qred_correct.
    unfold Qle. cbn [Qnum Qden]. lia.
Qed.

Lemma b64_round_nonneg (q : Q) : float_nonneg (b64_round false q) = true.
Proof.
  destruct (b64_round_cases false q) as [(m & -> & Hm)| ->]; [exact Hm|reflexivity].
Qed.

(** The product of a float that is not below zero with a positive
    integer is not below zero. *)
Lemma fmul_nonneg (f : float64) (k : Z) :
  (0 < k)%Z -> float_nonneg f = true ->
  float_nonneg (fmul f (float_of k)) = true.
Proof.
  intros Hk Hf. destruct f as [negative m|negative|]; [| |discriminate].
  - cbn [fmul float_of]. rewrite xorb_false_r.
    destruct negative.
    + unfold float_nonneg, num_nonneg in Hf. apply Qle_bool_iff in Hf.
      unfold b64_round.
      assert ((Qnum (m * inject_Z k) <=? 0)%Z = true) as ->; [|reflexivity].
      apply Z.leb_le. unfold Qle in Hf. cbn in *. nia.
    + apply b64_round_nonneg.
  - cbn [fmul float_of].
    assert (Qeq_bool (inject_Z k) 0 = false) as ->.
    { destruct (Qeq_bool (inject_Z k) 0) eqn:E; [|reflexivity].
      apply Qeq_bool_iff in E. unfold Qeq in E. cbn in E. lia. }
    now destruct negative.
Qed.

Lemma nonneg_not_negative (c : pynum) : num_nonneg c = true -> num_neg c = false.
Proof.
  destruct c as [z|[[] m|[]|]]; cbn; intros H; try reflexivity; try discriminate.
  - apply Z.leb_le in H. apply Z.ltb_ge. lia.
  - now rewrite H.
Qed.

(** *** What [float] reads *)

Lemma char_in_lstrip (space : ascii -> bool) (c : ascii) (s : string) :
  char_in c s = false -> char_in c (lstrip_with space s) = false.
Proof.
  induction s as [|x s IH]; [reflexivity|]. cbn [lstrip_with].
  intros H. destruct (space x); [|exact H].
  cbn [char_in] in H. apply orb_false_iff in H as [_ H]. now apply IH.
Qed.

Lemma char_in_rstrip (space : ascii -> bool) (c : ascii) (s : string) :
  char_in c s = false -> char_in c (rstrip_with space s) = false.
Proof.
  induction s as [|x s IH]; [reflexivity|]. cbn [rstrip_with].
  intros H. destruct (all_with space (String x s)); [reflexivity|].
  cbn [char_in] in *. apply orb_false_iff in H as [Hx H].
  now rewrite Hx, (IH H).
Qed.

Lemma char_in_drop_underscores (c : ascii) (s : string) :
  forall (prev : ascii) (u : string),
    drop_underscores prev s = Some u ->
    char_in c s = false -> char_in c u = false.
Proof.
  induction s as [|x s IH]; intros prev u Hu Hs; cbn [drop_underscores] in Hu.
  - destruct (Ascii.eqb prev "_"); [discriminate|]. now injection Hu as <-.
  - cbn [char_in] in Hs. apply orb_false_iff in Hs as [Hx Hs].
    destruct (Ascii.eqb x "_").
    + destruct (is_digit prev); [|discriminate]. now apply (IH x).
    + destruct (Ascii.eqb prev "_" && negb (is_digit x)); [discriminate|].
      destruct (drop_underscores x s) as [u'|] eqn:E; [|discriminate].
      cbn in Hu. injection Hu as <-. cbn [char_in].
      now rewrite Hx, (IH x u' E Hs).
Qed.

Lemma split_sign_unsigned (u : string) :
  char_in "-" u = false -> fst (split_sign u) = false.
Proof.
  destruct u as [|c t]; [reflexivity|]. cbn [char_in split_sign].
  intros H. apply orb_false_iff in H as [H _].
  rewrite Ascii.eqb_sym, H. now destruct (Ascii.eqb c "+").
Qed.

(** [float] of a text without a minus sign is NaN or not below zero. *)
Lemma py_float_unsigned (s : string) (f : float64) :
  py_float s = Ok f -> char_in "-" s = false ->
  f = Fnan \/ float_nonneg f = true.
Proof.
  unfold py_float. intros H Hs.
  destruct (drop_underscores "000" (strip_with float_space s)) as [u|] eqn:Eu;
    [|discriminate].
  assert (fst (split_sign u) = false) as Hsign.
  { apply split_sign_unsigned.
    apply (char_in_drop_underscores "-" _ _ _ Eu).
    now apply char_in_rstrip, char_in_lstrip. }
  destruct (split_sign u) as [negative body]. cbn [fst] in Hsign. subst negative.
  repeat (case_match; simplify_eq); auto;
    right; (reflexivity || apply b64_round_nonneg).
Qed.

Lemma digit_not_space (c : ascii) : is_digit c = true -> float_space c = false.
Proof.
  destruct c as [[] [] [] [] [] [] [] []]; intros H; vm_compute in H |- *;
    congruence.
Qed.

Lemma digit_not_sign (c : ascii) :
  is_digit c = true ->
  Ascii.eqb c "-" = false /\ Ascii.eqb c "+" = false /\ Ascii.eqb c "_" = false
  /\ lower_char c = c.
Proof.
  destruct c as [[] [] [] [] [] [] [] []]; intros H; vm_compute in H |- *;
    try discriminate; now repeat split.
Qed.

Lemma digit_not_letter (c : ascii) (t w : string) (x : ascii) :
  is_digit c = true -> is_digit x = false ->
  String.eqb (String c t) (String x w) = false.
Proof.
  intros Hc Hx. cbn [String.eqb].
  destruct (Ascii.eqb c x) eqn:E; [|reflexivity].
  apply Ascii.eqb_eq in E. congruence.
Qed.

(** [float] of a text that begins with a digit is a number not below
    zero. *)
Lemma py_float_digit_head (s : string) (f : float64) :
  starts_with_digit s = true -> py_float s = Ok f -> float_nonneg f = true.
Proof.
  destruct s as [|c t]; [discriminate|]. cbn [starts_with_digit].
  intros Hc. unfold py_float, strip_with. cbn [lstrip_with rstrip_with all_with].
  rewrite (digit_not_space c Hc).
  cbn [lstrip_with rstrip_with all_with andb].
  rewrite (digit_not_space c Hc). cbn [andb drop_underscores].
  destruct (digit_not_sign c Hc) as (Hm & Hp & Hu & Hl).
  rewrite Hu, Hc. cbn [negb andb]. rewrite andb_false_r.
  destruct (drop_underscores c (rstrip_with float_space t)) as [u|];
    [|discriminate].
  cbn [option_map split_sign]. rewrite Hm, Hp.
  cbn [str_lower]. rewrite Hl.
  rewrite !(digit_not_letter c) by (assumption || reflexivity).
  cbn [orb].
  intros H. repeat (case_match; simplify_eq); apply b64_round_nonneg.
Qed.

Lemma char_in_str_remove (c k : ascii) (s : string) :
  char_in c s = false -> char_in c (str_remove k s) = false.
Proof.
  induction s as [|x s IH]; [reflexivity|]. cbn [char_in str_remove].
  intros H. apply orb_false_iff in H as [Hx H].
  destruct (Ascii.eqb k x); [now apply IH|].
  cbn [char_in]. now rewrite Hx, (IH H).
Qed.

Lemma str_remove_digit_head (k : ascii) (s : string) :
  is_digit k = false -> starts_with_digit s = true ->
  starts_with_digit (str_remove k s) = true.
Proof.
  intros Hk Hs. destruct s as [|c r]; [discriminate|]. cbn in *.
  destruct (Ascii.eqb k c) eqn:E; [|exact Hs].
  apply Ascii.eqb_eq in E. congruence.
Qed.

Lemma py_int_nonneg (s : string) (z : Z) : py_int s = Ok z -> (0 <= z)%Z.
Proof.
  unfold py_int. destruct (all_digits s) eqn:E; cbn [negb]; [|discriminate].
  destruct (String.length s <=? int_max_str_digits)%nat; [|discriminate].
  intros H. injection H as <-. now apply digits_value_from_nonneg.
Qed.

(** The conversion in closed form: by the first suffix letter that
    occurs, else as an integer. *)
Lemma convert_count_by_suffix (s : string) :
  convert_count s
  = match suffix_letter s with
    | Some k =>
        let? f := py_float (str_remove k s) in
        Ok (PyFloat (fmul f (suffix_factor k)))
    | None =>
        if str_isdigit s then (let? count := py_int s in Ok (PyInt count))
        else Ok (PyInt 0)
    end.
Proof.
  unfold convert_count, suffix_letter.
  destruct (char_in "K" s); [reflexivity|].
  destruct (char_in "M" s); [reflexivity|].
  destruct (char_in "B" s); reflexivity.
Qed.

Lemma suffix_letter_cases (s : string) (k : ascii) :
  suffix_letter s = Some k ->
  is_digit k = false /\ k <> "-"%char
  /\ exists n, (0 < n)%Z /\ suffix_factor k = float_of n.
Proof.
  unfold suffix_letter. intros H.
  repeat (case_match; simplify_eq);
    (split; [reflexivity|]); (split; [discriminate|]);
    eexists; (split; [|reflexivity]); lia.
Qed.

(** A count text without a minus sign converts to NaN or to a count
    that is not below zero. *)
Lemma convert_count_unsigned (s : string) (c : pynum) :
  char_in "-" s = false -> convert_count s = Ok c ->
  c = PyFloat Fnan \/ num_nonneg c = true.
Proof.
  intros Hs. rewrite convert_count_by_suffix.
  destruct (suffix_letter s) as [k|] eqn:Ek.
  - destruct (suffix_letter_cases s k Ek) as (_ & _ & n & Hn & ->).
    destruct (py_float (str_remove k s)) as [f|e] eqn:Ef; [|discriminate].
    cbn [res_bind]. intros H. injection H as <-.
    destruct (py_float_unsigned _ _ Ef (char_in_str_remove "-" k s Hs))
      as [->|Hf]; [now left|].
    right. now apply fmul_nonneg.
  - destruct (str_isdigit s); [|intros H; injection H as <-; now right].
    destruct (py_int s) as [z|e] eqn:Ez; [|discriminate].
    cbn [res_bind]. intros H. injection H as <-. right.
    apply Z.leb_le. now apply py_int_nonneg in Ez.
Qed.

(** A count text that begins with a digit converts to a count that is
    not below zero. *)
Lemma convert_count_nonneg (s : string) (c : pynum) :
  starts_with_digit s = true -> convert_count s = Ok c -> num_nonneg c = true.
Proof.
  intros Hs. rewrite convert_count_by_suffix.
  destruct (suffix_letter s) as [k|] eqn:Ek.
  - destruct (suffix_letter_cases s k Ek) as (Hk & _ & n & Hn & ->).
    destruct (py_float (str_remove k s)) as [f|e] eqn:Ef; [|discriminate].
    cbn [res_bind]. intros H. injection H as <-.
    apply fmul_nonneg; [exact Hn|].
    eapply py_float_digit_head; [|exact Ef]. now apply str_remove_digit_head.
  - destruct (str_isdigit s); [|intros H; now injection H as <-].
    destruct (py_int s) as [z|e] eqn:Ez; [|discriminate].
    cbn [res_bind]. intros H. injection H as <-.
    apply Z.leb_le. now apply py_int_nonneg in Ez.
Qed.

(** The token returned by the count regex begins with a digit. *)
Lemma search_count_digit (label token : string) :
  search_count label = Some token -> starts_with_digit token = true.
Proof.
  induction label as [|c t IH]; cbn [search_count]; [discriminate|].
  destruct (is_digit c) eqn:E; [|exact IH].
  intros H. injection H as <-.
  unfold count_token. cbn [span_digits]. rewrite E.
  destruct (span_digits t) as [ds r1].
  destruct (match r1 with
            | String c0 t0 =>
                let '(fp, r) := span_digits t0 in
                if Ascii.eqb c0 "." && str_nonempty fp
                then (String "." fp, r) else (EmptyString, r1)
            | EmptyString => (EmptyString, r1)
            end) as [frac r2].
  cbn. exact E.
Qed.

(** The like count of a tweet whose like button shows [s]. *)
Lemma recorded_likes_counter (s : string) :
  recorded_likes (liked_article s)
  = Some (if str_nonempty s
          then match convert_count s with Ok c => c | Raise _ => PyInt 0 end
          else PyInt 0).
Proof.
  unfold liked_article. rewrite recorded_likes_button, read_count_counter.
  destruct (str_nonempty s); [|reflexivity].
  now destruct (convert_count s).
Qed.

(** C4, as stated, fails: the text of the counter span is converted as
    it stands, so a span showing -5K is recorded as -5000.0. *)
Lemma negative_count_recorded :
  ~ counts_never_negative
  /\ recorded_likes (liked_article "-5K") = Some (PyFloat (Fnum true 5000)).
Proof.
  assert (recorded_likes (liked_article "-5K") = Some (PyFloat (Fnum true 5000)))
    as Hrec by (vm_compute; reflexivity).
  split; [|exact Hrec].
  intros H. specialize (H "-5K" _ Hrec). vm_compute in H. discriminate H.
Qed.

(** C4, amended.  The count parser maps "1.2K" to 1200.0, "3M" to
    3000000.0 and "0" to 0.  The count of a button is the number its
    count text converts to, and 0 when no count text can be read or the
    conversion raises; so the count stays 0 when the button shows no
    count text, when the text holds none of K, M and B and [isdigit]
    does not hold of it, and when it holds such a letter and [float]
    rejects what is left without it.  The count of a counter text without a minus sign is
    not negative (it is NaN or at least 0), and the count read from an
    aria label, like that of any counter text that is a token of the
    count regex, is at least 0. *)
Theorem metric_count_parser :
  recorded_likes (liked_article "1.2K") = Some (PyFloat (Fnum false 1200))
  /\ recorded_likes (liked_article "3M") = Some (PyFloat (Fnum false 3000000))
  /\ recorded_likes (liked_article "0") = Some (PyInt 0)
  /\ (forall b : element,
         recorded_likes (like_button_article b)
         = Some (match read_count b with
                 | Ok (Some c) => c
                 | Ok None | Raise _ => PyInt 0
                 end))
  /\ (forall s : string,
         recorded_likes (liked_article s)
         = Some (if str_nonempty s
                 then match convert_count s with
                      | Ok c => c
                      | Raise _ => PyInt 0
                      end
                 else PyInt 0))
  /\ (forall (s : string) (e : exn),
         convert_count s = Raise e ->
         recorded_likes (liked_article s) = Some (PyInt 0))
  /\ (forall s : string,
         suffix_letter s = None -> str_isdigit s = false ->
         recorded_likes (liked_article s) = Some (PyInt 0))
  /\ (forall (s : string) (k : ascii) (e : exn),
         suffix_letter s = Some k -> py_float (str_remove k s) = Raise e ->
         recorded_likes (liked_article s) = Some (PyInt 0))
  /\ (forall (s : string) (c : pynum),
         recorded_likes (liked_article s) = Some c ->
         char_in "-" s = false ->
         num_neg c = false /\ (c = PyFloat Fnan \/ num_nonneg c = true))
  /\ (forall label : string,
         exists c, recorded_likes (labelled_article label) = Some c
                   /\ num_nonneg c = true)
  /\ (forall label token : string,
         search_count label = Some token ->
         exists c, recorded_likes (liked_article token) = Some c
                   /\ num_nonneg c = true).
Proof.
  do 3 (split; [vm_compute; reflexivity|]).
  split; [|split; [|split; [|split; [|split; [|split; [|split]]]]]].
  - apply recorded_likes_button.
  - apply recorded_likes_counter.
  - intros s e He. rewrite recorded_likes_counter, He. now destruct (str_nonempty s).
  - intros s Hk Hd.
    rewrite recorded_likes_counter, convert_count_by_suffix, Hk, Hd.
    now destruct (str_nonempty s).
  - intros s k e Hk He.
    rewrite recorded_likes_counter, convert_count_by_suffix, Hk, He.
    now destruct (str_nonempty s).
  - intros s c Hc Hs. rewrite recorded_likes_counter in Hc. injection Hc as <-.
    assert (forall c, c = PyFloat Fnan \/ num_nonneg c = true ->
                      num_neg c = false
                      /\ (c = PyFloat Fnan \/ num_nonneg c = true)) as Hboth.
    { intros c [->|Hc]; (split; [|auto]);
        [reflexivity|now apply nonneg_not_negative]. }
    apply Hboth.
    destruct (str_nonempty s); [|now right].
    destruct (convert_count s) as [c|e] eqn:Ec; [|now right].
    now apply (convert_count_unsigned s).
  - intros label. unfold labelled_article.
    rewrite recorded_likes_button, read_count_labelled.
    destruct (search_count label) as [g|] eqn:Eg; [|now eexists].
    destruct (str_nonempty g); [|now eexists].
    destruct (convert_count g) as [c|e] eqn:Ec; [|now eexists].
    exists c. split; [reflexivity|].
    eapply convert_count_nonneg; [|exact Ec].
    eapply search_count_digit; exact Eg.
  - intros label token Hs. rewrite recorded_likes_counter.
    eexists. split; [reflexivity|].
    destruct (str_nonempty token); [|reflexivity].
    destruct (convert_count token) as [c|e] eqn:Ec; [|reflexivity].
    eapply convert_count_nonneg; [|exact Ec].
    eapply search_count_digit; exact Hs.
Qed.

(** The parts of the theorem on the texts "abc", "abcK" and "1,234",
    on a button without counter and label, and on the label
    "1.2K Likes. Like". *)
Lemma metric_count_parser_witness :
  recorded_likes (liked_article "abc") = Some (PyInt 0)
  /\ recorded_likes (liked_article "abcK") = Some (PyInt 0)
  /\ recorded_likes (liked_article "1,234") = Some (PyInt 0)
  /\ recorded_likes unlabelled_article = Some (PyInt 0)
  /\ exists c, recorded_likes (liked_article "1.2K") = Some c
               /\ num_nonneg c = true.
Proof.
  pose proof metric_count_parser
    as (_ & _ & _ & Habsent & _ & _ & Hplain & Hsuffix & _ & _ & Htoken).
  split; [apply Hplain; reflexivity|].
  split; [apply (Hsuffix "abcK" "K"%char
                   (Exn ValueError "could not convert string to float: abc"));
          reflexivity|].
  split; [apply Hplain; reflexivity|].
  split; [exact (Habsent bare_button)|].
  apply (Htoken "1.2K Likes. Like"). reflexivity.
Defined.

(** ** Media *)

Lemma keep_photo_clean (src : string) (photos : list string) :
  keep_photo (Some src) photos = true -> mentions_profile src = false.
Proof.
  unfold keep_photo, mentions_profile. intros H.
  apply andb_true_iff in H as [H Ha]. apply andb_true_iff in H as [_ Hp].
  apply negb_true_iff in Ha, Hp. now rewrite Ha, Hp.
Qed.

Lemma img_loop_clean (imgs : list element) :
  forall photos : list string,
    Forall (fun src => mentions_profile src = false) photos ->
    Forall (fun src => mentions_profile src = false)
           (fst (img_loop keep_photo imgs photos)).
Proof.
  induction imgs as [|i rest IH]; intros photos H; cbn [img_loop]; [exact H|].
  destruct (get_attribute i "src") as [src|e]; [|exact H].
  apply IH. destruct (keep_photo src photos) eqn:E; [|exact H].
  destruct src as [src|]; [|discriminate].
  cbn [append_src]. apply Forall_app. split; [exact H|].
  constructor; [|constructor]. eapply keep_photo_clean, E.
Qed.

Lemma media_loop_clean (article : element) (selectors : list string) :
  forall photos : list string,
    Forall (fun src => mentions_profile src = false) photos ->
    Forall (fun src => mentions_profile src = false)
           (fst (media_loop article selectors photos)).
Proof.
  induction selectors as [|sel rest IH]; intros photos H; cbn [media_loop];
    [exact H|].
  destruct (find_elements article sel) as [imgs|e]; [|exact H].
  pose proof (img_loop_clean imgs photos H) as Hi.
  destruct (img_loop keep_photo imgs photos) as [photos' [e|]]; [exact Hi|].
  apply IH, Hi.
Qed.

(** On the photo path the exclusion holds: when the three photo
    selectors yield anything, the record's media sequence is what they
    yielded, and none of it mentions "profile" or "avatar". *)
Lemma photo_path_excludes_profile (article : element) :
  fst (media_loop article media_selectors []) <> [] ->
  extract_photos article = fst (media_loop article media_selectors [])
  /\ Forall (fun src => mentions_profile src = false) (extract_photos article).
Proof.
  intros Hne.
  assert (extract_photos article = fst (media_loop article media_selectors [])) as ->.
  { unfold extract_photos.
    destruct (media_loop article media_selectors []) as [photos [e|]];
      [reflexivity|].
    destruct photos; [now destruct Hne|reflexivity]. }
  split; [reflexivity|]. apply media_loop_clean. constructor.
Qed.

(** C1, evaluated at the failing input.  For a tweet whose photo
    selectors match nothing and whose video player shows a thumbnail
    served from a profile path, the extracted record's media sequence
    holds that thumbnail: the fallback of lines 290-295 appends without
    the "profile"/"avatar" test that line 286 applies. *)
Theorem video_thumbnail_keeps_profile_image :
  option_map photos (extract_tweet_data video_article)
  = Some ["https://pbs.twimg.com/profile_images/7/poster.jpg"]
  /\ mentions_profile "https://pbs.twimg.com/profile_images/7/poster.jpg" = true
  /\ keep_photo (Some "https://pbs.twimg.com/profile_images/7/poster.jpg") [] = false.
Proof. repeat split; vm_compute; reflexivity. Qed.

(** ** The reply count *)

(** No record ever reports a reply count other than 0: the loop writes
    and tests the key "replys", the record reads the key "replies". *)
Lemma replies_never_recorded (article : element) (t : tweet) :
  extract_tweet_data article = Some t -> replies t = PyInt 0.
Proof.
  unfold extract_tweet_data, extract_tweet_body. intros H.
  assert (metrics_get (extract_metrics article) "replies" = PyInt 0) as Hm.
  { unfold metrics_get. rewrite extract_metrics_unfold.
    rewrite !selector_loop_other by discriminate. reflexivity. }
  repeat (case_match; simplify_eq); unfold res_bind in *;
    repeat (case_match; simplify_eq); cbn [replies]; exact Hm.
Qed.

(** C8, evaluated at the failing input.  For a tweet whose reply button
    shows 5 and whose like button shows 7, the first strategy reads
    both counts, yet the record holds 0 replies and 7 likes: the 5 is
    stored under the key "replys", which the record never reads. *)
Theorem reply_count_lost :
  option_map (fun t => (replies t, retweets t, likes t))
             (extract_tweet_data replied_article)
  = Some (PyInt 0, PyInt 0, PyInt 7)
  /\ extract_metrics replied_article !! "replys" = Some (PyInt 5)
  /\ extract_metrics replied_article !! "replies" = Some (PyInt 0).
Proof. repeat split; vm_compute; reflexivity. Qed.

(** ** The batch *)

Lemma main_loop_step {D} (driver : webdriver D) (world : company -> session D)
  (c : company) (row : summary_row) :
  process_company driver (world c) c = Ok row ->
  forall (rest : list company) (summary : list summary_row),
    main_loop driver world (c :: rest) summary
    = main_loop driver world rest (summary ++ [row]).
Proof. intros H rest summary. cbn [main_loop]. now rewrite H. Qed.

Lemma process_company_row {D} (driver : webdriver D) (w : session D)
  (c : company) :
  summary_append_error w = Ok tt ->
  exists row, process_company driver w c = Ok row.
Proof.
  intros H. unfold process_company.
  destruct (try_company driver w c); [eauto|].
  rewrite H. cbn. eauto.
Qed.

(** The table after a loop every iteration of which appends its row. *)
Lemma main_loop_rows {D} (driver : webdriver D) (world : company -> session D)
  (companies : list company) (rows : list summary_row) :
  rows_appended driver world companies rows ->
  forall summary : list summary_row,
    main_loop driver world companies summary = (summary ++ rows, None).
Proof.
  induction 1 as [|c row companies rows Hrow _ IH]; intros summary;
    cbn [main_loop].
  - now rewrite app_nil_r.
  - rewrite Hrow, IH. now rewrite <- app_assoc.
Qed.

(** The table after a loop that is left by an exception of the
    iteration of [c]. *)
Lemma main_loop_left {D} (driver : webdriver D) (world : company -> session D)
  (pre post : list company) (c : company) (rows : list summary_row) (e : exn) :
  rows_appended driver world pre rows ->
  process_company driver (world c) c = Raise e ->
  forall summary : list summary_row,
    main_loop driver world (pre ++ c :: post) summary
    = (summary ++ rows, Some e).
Proof.
  intros Hpre Hc.
  induction Hpre as [|c' row pre rows Hrow _ IH]; intros summary;
    cbn [main_loop app].
  - now rewrite Hc, app_nil_r.
  - rewrite Hrow, IH. now rewrite <- app_assoc.
Qed.

(** The table after a loop in which the iteration of [c] appends
    [row]. *)
Lemma main_loop_around {D} (driver : webdriver D)
  (world : company -> session D) (pre post : list company) (c : company)
  (before after : list summary_row) (row : summary_row) :
  rows_appended driver world pre before ->
  process_company driver (world c) c = Ok row ->
  rows_appended driver world post after ->
  main_loop driver world (pre ++ c :: post) []
  = (before ++ [row] ++ after, None).
Proof.
  intros Hpre Hc Hpost.
  apply (main_loop_rows driver world (pre ++ c :: post)
           (before ++ [row] ++ after)).
  apply Forall2_app; [exact Hpre|]. now constructor.
Qed.

(** While the error row can be written, every iteration appends a
    row. *)
Lemma rows_appended_exist {D} (driver : webdriver D)
  (world : company -> session D) (companies : list company) :
  (forall c, summary_append_error (world c) = Ok tt) ->
  exists rows : list summary_row,
    rows_appended driver world companies rows
    /\ length rows = length companies.
Proof.
  intros Hw. induction companies as [|c rest (rows & Hrows & Hlen)].
  - exists []. split; [constructor|reflexivity].
  - destruct (process_company_row driver (world c) c (Hw c)) as [row Hrow].
    exists (row :: rows). split; [now constructor|]. cbn. now rewrite Hlen.
Qed.

Lemma scrape_tweets_timeout {D} (driver : webdriver D) (twitter_handle : string)
  (d1 d2 d3 : D) (e : exn) :
  driver_get driver ("https://twitter.com/" ++ twitter_handle ++ "/tweets")%string d1
  = (Ok tt, d2) ->
  wait_until_present driver 30 "article" d2 = (Raise e, d3) ->
  is_Timeout e = true ->
  scrape_tweets driver twitter_handle d1 = (Ok [], d3).
Proof.
  intros Hget Hwait Ht.
  unfold scrape_tweets, scrape_tweets_fuel, scrape_run, bind, ret.
  now rewrite Hget, Hwait, Ht.
Qed.

Lemma blank_page_times_out (world : company -> session script) (c : company) :
  setup_driver (world c) = Ok blank_page ->
  login_to_twitter (world c) blank_page = (Ok false, blank_page) ->
  wait_times_out scripted (world c) c.
Proof.
  intros Hs Hl.
  exists blank_page, blank_page, blank_page, blank_page, false,
    (Exn TimeoutException "timeout").
  now repeat split.
Qed.

(** C7, as stated, fails: when the summary file cannot be appended to,
    a company whose initial wait times out gets no row at all, and the
    batch is left before the companies after it. *)
Lemma timeout_without_row :
  ~ timeout_row_always scripted (unwritable_world blank_page)
  /\ wait_times_out scripted (unwritable_world blank_page tcs) tcs
  /\ main_loop scripted (unwritable_world blank_page) [tcs; infosys] []
     = ([], Some (Exn OSError "Permission denied")).
Proof.
  assert (wait_times_out scripted (unwritable_world blank_page tcs) tcs) as Hw
    by (now apply blank_page_times_out).
  split; [|split; [exact Hw|vm_compute; reflexivity]].
  intros H. destruct (H tcs [infosys] [] Hw) as (row & after & _ & _ & Hrows).
  vm_compute in Hrows. discriminate Hrows.
Qed.

(** C7, amended.  When the initial wait for an article times out,
    [scrape_tweets] returns the empty list.  The iteration of the batch
    then appends the "No tweets found" row with zero tweet and image
    counts; when appending that row raises, the handler appends the
    error row, with zero counts as well; when the handler's append
    raises too, the iteration raises.  So, with [before] and [after]
    the rows of the companies before and after: the table is [before],
    the "No tweets found" row, [after] when the row can be appended; it
    is [before], the error row, [after] when only the handler can
    append; and when neither can, the batch is left with the table
    [before], that company without a row and the companies after it
    not processed.  While every handler can append, the table holds
    one row for each company, the one of this company with zero
    counts. *)
Theorem load_timeout_gives_empty_row {D} (driver : webdriver D)
  (world : company -> session D) (pre post : list company) (c : company)
  (d0 d1 d2 d3 : D) (logged : bool) (e : exn) :
  setup_driver (world c) = Ok d0 ->
  login_to_twitter (world c) d0 = (Ok logged, d1) ->
  driver_get driver ("https://twitter.com/" ++ handle c ++ "/tweets")%string d1
  = (Ok tt, d2) ->
  wait_until_present driver 30 "article" d2 = (Raise e, d3) ->
  is_Timeout e = true ->
  scrape_tweets driver (handle c) d1 = (Ok [], d3)
  /\ process_company driver (world c) c
     = match summary_append (world c) with
       | Ok _ => Ok (empty_row c)
       | Raise e1 =>
           match summary_append_error (world c) with
           | Ok _ => Ok (error_row c e1)
           | Raise e2 => Raise e2
           end
       end
  /\ (forall before after : list summary_row,
         rows_appended driver world pre before ->
         rows_appended driver world post after ->
         (summary_append (world c) = Ok tt ->
          main_loop driver world (pre ++ c :: post) []
          = (before ++ [empty_row c] ++ after, None))
         /\ (forall e1,
                summary_append (world c) = Raise e1 ->
                summary_append_error (world c) = Ok tt ->
                main_loop driver world (pre ++ c :: post) []
                = (before ++ [error_row c e1] ++ after, None)))
  /\ (forall (before : list summary_row) (e1 e2 : exn),
         rows_appended driver world pre before ->
         summary_append (world c) = Raise e1 ->
         summary_append_error (world c) = Raise e2 ->
         main_loop driver world (pre ++ c :: post) [] = (before, Some e2))
  /\ ((forall c', summary_append_error (world c') = Ok tt) ->
      exists (before after : list summary_row) (row : summary_row),
        main_loop driver world (pre ++ c :: post) []
        = (before ++ [row] ++ after, None)
        /\ length before = length pre /\ length after = length post
        /\ row_name row = name c /\ row_handle row = handle c
        /\ row_tweet_count row = 0 /\ row_image_count row = 0
        /\ (summary_append (world c) = Ok tt -> row = empty_row c)).
Proof.
  intros Hsetup Hlogin Hget Hwait Ht.
  pose proof (scrape_tweets_timeout driver (handle c) d1 d2 d3 e Hget Hwait Ht)
    as Hscrape.
  assert (try_company driver (world c) c
          = let? _ := summary_append (world c) in Ok (empty_row c)) as Htry.
  { unfold try_company.
    rewrite Hsetup. cbn [res_bind]. rewrite Hlogin. cbn [res_bind].
    rewrite Hscrape. reflexivity. }
  assert (process_company driver (world c) c
          = match summary_append (world c) with
            | Ok _ => Ok (empty_row c)
            | Raise e1 =>
                match summary_append_error (world c) with
                | Ok _ => Ok (error_row c e1)
                | Raise e2 => Raise e2
                end
            end) as Hrow.
  { unfold process_company. rewrite Htry.
    destruct (summary_append (world c)); [reflexivity|]. cbn [res_bind].
    now destruct (summary_append_error (world c)). }
  split; [exact Hscrape|]. split; [exact Hrow|].
  split; [|split].
  - intros before after Hpre Hpost. split.
    + intros Hs. rewrite Hs in Hrow.
      now apply (main_loop_around driver world pre post c).
    + intros e1 Hs He. rewrite Hs, He in Hrow.
      now apply (main_loop_around driver world pre post c).
  - intros before e1 e2 Hpre Hs He. rewrite Hs, He in Hrow.
    now apply (main_loop_left driver world pre post c before e2 Hpre Hrow []).
  - intros Hw.
    destruct (rows_appended_exist driver world pre Hw) as (before & Hb & Hlb).
    destruct (rows_appended_exist driver world post Hw) as (after & Ha & Hla).
    rewrite (Hw c) in Hrow.
    destruct (summary_append (world c)) as [[]|e1] eqn:Hs.
    + exists before, after, (empty_row c).
      split; [now apply (main_loop_around driver world pre post c)|].
      now repeat split.
    + exists before, after, (error_row c e1).
      split; [now apply (main_loop_around driver world pre post c)|].
      repeat split; try assumption. discriminate.
Qed.

Lemma load_timeout_gives_empty_row_witness :
  main_loop scripted (quiet_world blank_page) ([tcs] ++ infosys :: [tcs]) []
  = ([empty_row tcs] ++ [empty_row infosys] ++ [empty_row tcs], None).
Proof.
  apply (load_timeout_gives_empty_row scripted (quiet_world blank_page)
           [tcs] [tcs] infosys
           blank_page blank_page blank_page blank_page
           false (Exn TimeoutException "timeout")
           eq_refl eq_refl eq_refl eq_refl eq_refl).
  - repeat constructor.
  - repeat constructor.
  - reflexivity.
Defined.

(** A navigation fault is a fault of the scrape stage. *)
Lemma scrape_tweets_get_fault {D} (driver : webdriver D) (twitter_handle : string)
  (d d' : D) (e : exn) :
  driver_get driver ("https://twitter.com/" ++ twitter_handle ++ "/tweets")%string d
  = (Raise e, d') ->
  scrape_tweets driver twitter_handle d = (Raise e, d').
Proof.
  intros H. unfold scrape_tweets, scrape_tweets_fuel, scrape_run, bind.
  now rewrite H.
Qed.

Lemma stage_fault_raises {D} (driver : webdriver D) (w : session D)
  (c : company) (e : exn) :
  stage_fault driver w c e -> try_company driver w c = Raise e.
Proof.
  unfold try_company.
  intros [H0|d0 d1 H0 H1|d0 d1 d2 b H0 H1 H2|d0 d1 d2 b t ts H0 H1 H2 H3
          |d0 d1 d2 b ts H0 H1 H2 H3 H4];
    rewrite H0; cbn [res_bind]; try reflexivity;
    rewrite H1; cbn [res_bind]; try reflexivity;
    rewrite H2; cbn [res_bind]; try reflexivity.
  - now rewrite H3.
  - destruct H3 as [->|[f Hf]].
    + now rewrite H4.
    + destruct ts; [now rewrite H4|]. rewrite Hf. cbn [res_bind]. now rewrite H4.
Qed.

(** Every exception that leaves the [try] is the fault of one of its
    stages. *)
Lemma raises_stage_fault {D} (driver : webdriver D) (w : session D)
  (c : company) (e : exn) :
  try_company driver w c = Raise e -> stage_fault driver w c e.
Proof.
  unfold try_company. intros H.
  destruct (setup_driver w) as [d0|e0] eqn:H0; cbn [res_bind] in H;
    [|injection H as <-; now apply fault_setup].
  destruct (login_to_twitter w d0) as [[logged|e1] d1] eqn:H1;
    cbn [res_bind] in H;
    [|injection H as <-; now apply (fault_login driver w c _ d0 d1)].
  destruct (scrape_tweets driver (handle c) d1) as [[tweets|e2] d2] eqn:H2;
    cbn [res_bind] in H;
    [|injection H as <-; now apply (fault_scrape driver w c _ d0 d1 d2 logged)].
  destruct tweets as [|t ts].
  - destruct (summary_append w) as [u|e3] eqn:H3; cbn [res_bind] in H;
      [discriminate|]. injection H as <-.
    apply (fault_summary driver w c _ d0 d1 d2 logged []); auto.
  - destruct (save_to_csv w (t :: ts) (handle c)) as [f|e3] eqn:H3;
      cbn [res_bind] in H;
      [|injection H as <-;
        now apply (fault_save driver w c _ d0 d1 d2 logged t ts)].
    destruct (summary_append w) as [u|e4] eqn:H4; cbn [res_bind] in H;
      [discriminate|]. injection H as <-.
    apply (fault_summary driver w c _ d0 d1 d2 logged (t :: ts)); eauto.
Qed.

(** C9, as stated, fails: when the summary file cannot be appended to,
    the fault of the summary write is caught, but the handler's own
    write raises and leaves the loop: the company gets no row and the
    companies after it are not processed. *)
Lemma handler_fault_aborts_batch :
  ~ fault_always_contained scripted (unwritable_world blank_page)
  /\ stage_fault scripted (unwritable_world blank_page tcs) tcs
       (Exn OSError "Permission denied")
  /\ main (D := script) scripted (unwritable_world blank_page)
     = ([], Some (Exn OSError "Permission denied")).
Proof.
  assert (stage_fault scripted (unwritable_world blank_page tcs) tcs
            (Exn OSError "Permission denied")) as Hf.
  { apply (fault_summary _ _ _ _ blank_page blank_page blank_page false []);
      try reflexivity. now left. }
  split; [|split; [exact Hf|vm_compute; reflexivity]].
  intros H. destruct (H tcs _ [infosys] [] Hf) as (after & Hrows).
  vm_compute in Hrows. discriminate Hrows.
Qed.

(** C9, amended.  The exceptions that leave the [try] of an iteration
    are exactly the faults of its stages (starting the browser, the
    login dialogue, the scrape, the export, opening the summary file
    inside the [try]).  Such a fault is caught by the [except] of the
    iteration, whose handler appends the row carrying "Error: " and the
    exception's text with zero counts; when that append raises, its
    exception leaves the iteration.  So, with [before] and [after] the
    rows of the companies before and after: when the handler can
    append, the table is [before], the error row, [after], and the
    loop runs to its end; when it cannot, the batch is left with the
    table [before], that company without a row and the companies
    after it not processed.  While every handler can append, the table
    holds one row for each company around the error row. *)
Theorem target_fault_contained {D} (driver : webdriver D)
  (world : company -> session D) (pre post : list company) (c : company)
  (e : exn) :
  stage_fault driver (world c) c e ->
  try_company driver (world c) c = Raise e
  /\ (forall e0, try_company driver (world c) c = Raise e0 ->
                 stage_fault driver (world c) c e0)
  /\ process_company driver (world c) c
     = match summary_append_error (world c) with
       | Ok _ => Ok (error_row c e)
       | Raise e' => Raise e'
       end
  /\ (forall before after : list summary_row,
         rows_appended driver world pre before ->
         rows_appended driver world post after ->
         summary_append_error (world c) = Ok tt ->
         main_loop driver world (pre ++ c :: post) []
         = (before ++ [error_row c e] ++ after, None))
  /\ (forall (before : list summary_row) (e' : exn),
         rows_appended driver world pre before ->
         summary_append_error (world c) = Raise e' ->
         main_loop driver world (pre ++ c :: post) [] = (before, Some e'))
  /\ ((forall c', summary_append_error (world c') = Ok tt) ->
      exists before after : list summary_row,
        main_loop driver world (pre ++ c :: post) []
        = (before ++ [error_row c e] ++ after, None)
        /\ length before = length pre /\ length after = length post).
Proof.
  intros Hf. apply stage_fault_raises in Hf.
  assert (process_company driver (world c) c
          = match summary_append_error (world c) with
            | Ok _ => Ok (error_row c e)
            | Raise e' => Raise e'
            end) as Hrow.
  { unfold process_company. rewrite Hf.
    now destruct (summary_append_error (world c)). }
  split; [exact Hf|]. split; [intros e0; apply raises_stage_fault|].
  split; [exact Hrow|]. split; [|split].
  - intros before after Hpre Hpost He. rewrite He in Hrow.
    now apply (main_loop_around driver world pre post c).
  - intros before e' Hpre He. rewrite He in Hrow.
    now apply (main_loop_left driver world pre post c before e' Hpre Hrow []).
  - intros Hw. rewrite (Hw c) in Hrow.
    destruct (rows_appended_exist driver world pre Hw) as (before & Hb & Hlb).
    destruct (rows_appended_exist driver world post Hw) as (after & Ha & Hla).
    exists before, after.
    split; [now apply (main_loop_around driver world pre post c)|now split].
Qed.

Lemma target_fault_contained_witness :
  main_loop scripted
    (fun c => if String.eqb (handle c) "Infosys"
              then broken_world c else quiet_world blank_page c)
    ([tcs] ++ infosys :: [tcs]) []
  = ([empty_row tcs]
     ++ [error_row infosys (Exn WebDriverException "chrome not reachable")]
     ++ [empty_row tcs], None).
Proof.
  apply (target_fault_contained scripted
           (fun c => if String.eqb (handle c) "Infosys"
                     then broken_world c else quiet_world blank_page c)
           [tcs] [tcs] infosys
           (Exn WebDriverException "chrome not reachable")).
  - apply fault_setup. reflexivity.
  - repeat constructor.
  - repeat constructor.
  - reflexivity.
Defined.

Lemma limit_checked_between_cycles_witness :
  scrape_loop scripted 30
    (final (scrape_loop scripted 30 (initial_state (JsNum 100)) 0 crowded_page))
    1 growing_empty_page
  = {| exit_by := ByCondition;
       final := final (scrape_loop scripted 30 (initial_state (JsNum 100)) 0
                                   crowded_page);
       cycles := 1; driver_after := growing_empty_page |}
  /\ In "1" (map id (scan_articles [tweet_article "1" "one" []] [])).
Proof.
  pose proof (limit_checked_between_cycles scripted 30
                (final (scrape_loop scripted 30 (initial_state (JsNum 100)) 0
                                    crowded_page))
                1 growing_empty_page
                [tweet_article "1" "one" []] (tweet_article "1" "one" [])
                {| id := "1"; url := "https://twitter.com/TCS/status/1";
                   text := "one"; timestamp := Some "";
                   replies := PyInt 0; retweets := PyInt 0; likes := PyInt 0;
                   photos := [] |}
                []) as (_ & Hloop & Hscan & _).
  split.
  - apply Hloop. vm_compute. lia.
  - apply Hscan; [now left|vm_compute; reflexivity].
Defined.

(** * Further properties of the scraper *)

(** ** Scanning again *)

Lemma fold_accept_known (ts tweets : list tweet) :
  (forall t, In t ts -> In (id t) (map id tweets)) ->
  fold_left accept ts tweets = tweets.
Proof.
  revert tweets. induction ts as [|t ts IH]; intros tweets H; cbn [fold_left];
    [reflexivity|].
  assert (accept tweets t = tweets) as ->.
  { unfold accept.
    destruct (id_not_in (id t) tweets) eqn:E; [|reflexivity].
    apply id_not_in_true in E. destruct E. apply H. now left. }
  apply IH. intros t' Ht'. apply H. now right.
Qed.

(** X1.  Scanning articles that were scanned before accepts nothing:
    once a list of articles has been scanned, scanning it again, also
    after other scans in between, leaves the accumulated records as
    they are. *)
Theorem rescan_accepts_nothing (articles others : list element)
  (tweets_data : list tweet) :
  scan_articles articles
    (scan_articles others (scan_articles articles tweets_data))
  = scan_articles others (scan_articles articles tweets_data).
Proof.
  rewrite (scan_articles_fold articles
             (scan_articles others (scan_articles articles tweets_data))).
  apply fold_accept_known. intros t Ht.
  rewrite (scan_articles_fold others).
  apply fold_accept_keeps.
  rewrite scan_articles_fold. now apply fold_accept_all.
Qed.

(** X2.  The accumulated list is append-only over a whole run: what
    the loop returns, however it is left, begins with what it held when
    it was entered. *)
Theorem run_extends_held_records {D} (driver : webdriver D) (fuel : nat)
  (st : loop_state) (n : nat) (d : D) :
  exists new : list tweet,
    tweets_data (final (scrape_loop driver fuel st n d)) = tweets_data st ++ new.
Proof.
  revert st n d. induction fuel as [|fuel IH]; intros st n d; cbn [scrape_loop];
    destruct ((length (tweets_data st) <? TWEET_LIMIT)%nat
              && (scroll_attempts st <? max_scroll_attempts)%nat);
    try (exists []; cbn [final]; now rewrite app_nil_r).
  destruct (cycle driver st d) as [[r st'] d'] eqn:Hcy.
  apply cycle_inv in Hcy as (_ & (articles & Hts) & _).
  assert (exists new, tweets_data st' = tweets_data st ++ new) as [n1 H1].
  { rewrite Hts, scan_articles_fold. apply fold_accept_extends. }
  destruct r as [[|why]|e].
  - destruct (IH st' (S n) d') as [n2 H2].
    exists (n1 ++ n2). now rewrite H2, H1, app_assoc.
  - exists n1. exact H1.
  - exists n1. exact H1.
Qed.

(** ** Media sequences *)

Lemma img_loop_distinct (keep : option string -> list string -> bool)
  (imgs : list element) :
  (forall src photos, keep src photos = true ->
     exists s, src = Some s /\ str_nonempty s = true /\ str_mem s photos = false) ->
  forall photos : list string,
    NoDup photos /\ Forall (fun s => str_nonempty s = true) photos ->
    NoDup (fst (img_loop keep imgs photos))
    /\ Forall (fun s => str_nonempty s = true) (fst (img_loop keep imgs photos)).
Proof.
  intros Hkeep. induction imgs as [|i rest IH]; intros photos H; cbn [img_loop];
    [exact H|].
  destruct (get_attribute i "src") as [src|e]; [|exact H].
  apply IH. destruct (keep src photos) eqn:E; [|exact H].
  destruct (Hkeep src photos E) as (s & -> & Hne & Hmem).
  destruct H as [Hnd Hall]. cbn [append_src]. split.
  - apply NoDup_app. repeat split; [exact Hnd| |apply NoDup_singleton].
    intros x Hx Hin. apply list_elem_of_In in Hx, Hin.
    destruct Hin as [<-|[]].
    apply str_mem_In in Hx. congruence.
  - apply Forall_app. split; [exact Hall|]. now constructor.
Qed.

Lemma keep_photo_fresh (src : option string) (photos : list string) :
  keep_photo src photos = true ->
  exists s, src = Some s /\ str_nonempty s = true /\ str_mem s photos = false.
Proof.
  destruct src as [s|]; [|discriminate]. cbn. intros H.
  apply andb_true_iff in H as [H _]. apply andb_true_iff in H as [H _].
  apply andb_true_iff in H as [H1 H2]. apply negb_true_iff in H2. eauto.
Qed.

Lemma keep_thumbnail_fresh (src : option string) (photos : list string) :
  keep_thumbnail src photos = true ->
  exists s, src = Some s /\ str_nonempty s = true /\ str_mem s photos = false.
Proof.
  destruct src as [s|]; [|discriminate]. cbn. intros H.
  apply andb_true_iff in H as [H1 H2]. apply negb_true_iff in H2. eauto.
Qed.

Lemma media_loop_distinct (article : element) (selectors : list string) :
  forall photos : list string,
    NoDup photos /\ Forall (fun s => str_nonempty s = true) photos ->
    NoDup (fst (media_loop article selectors photos))
    /\ Forall (fun s => str_nonempty s = true)
              (fst (media_loop article selectors photos)).
Proof.
  induction selectors as [|sel rest IH]; intros photos H; cbn [media_loop];
    [exact H|].
  destruct (find_elements article sel) as [imgs|e]; [|exact H].
  pose proof (img_loop_distinct keep_photo imgs keep_photo_fresh photos H) as Hi.
  destruct (img_loop keep_photo imgs photos) as [photos' [e|]]; [exact Hi|].
  apply IH, Hi.
Qed.

Lemma extract_photos_distinct (article : element) :
  NoDup (extract_photos article)
  /\ Forall (fun src => str_nonempty src = true) (extract_photos article).
Proof.
  unfold extract_photos.
  pose proof (media_loop_distinct article media_selectors []
                (conj (NoDup_nil_2) (Forall_nil_2 _))) as Hm.
  destruct (media_loop article media_selectors []) as [photos [e|]];
    [exact Hm|].
  destruct photos as [|p ps]; [|exact Hm].
  destruct (find_elements article "div[data-testid='videoPlayer'] img")
    as [video_elements|e]; [|exact Hm].
  apply (img_loop_distinct keep_thumbnail video_elements keep_thumbnail_fresh).
  exact Hm.
Qed.

Lemma extracted_photos (article : element) (t : tweet) :
  extract_tweet_data article = Some t -> photos t = extract_photos article.
Proof.
  unfold extract_tweet_data, extract_tweet_body. intros H.
  repeat (case_match; simplify_eq); unfold res_bind in *;
    repeat (case_match; simplify_eq); reflexivity.
Qed.

(** X3.  The media sequence of a record never holds a locator twice
    and never holds an empty locator, on the photo path and on the
    video-thumbnail path alike, also when an exception cuts the
    collection short. *)
Theorem photos_distinct_and_nonempty (article : element) (t : tweet) :
  extract_tweet_data article = Some t ->
  NoDup (photos t)
  /\ Forall (fun src => str_nonempty src = true) (photos t).
Proof.
  intros H. rewrite (extracted_photos article t H).
  apply extract_photos_distinct.
Qed.

Lemma photos_distinct_and_nonempty_witness :
  NoDup (photos scraped_tweet)
  /\ Forall (fun src => str_nonempty src = true) (photos scraped_tweet).
Proof.
  apply (photos_distinct_and_nonempty two_photo_article scraped_tweet).
  vm_compute. reflexivity.
Defined.

(** ** Identifiers *)

Lemma prefix_app_drop (p q s : string) :
  String.prefix p s = true ->
  String.prefix q (str_drop (String.length p) s) = true ->
  String.prefix (p ++ q)%string s = true.
Proof.
  revert s. induction p as [|c p IH]; intros s Hp Hq; [exact Hq|].
  destruct s as [|c' s]; [discriminate|].
  change (String c p ++ q)%string with (String c (p ++ q)%string).
  cbn [String.prefix String.length str_drop] in *.
  destruct (ascii_dec c c'); [|discriminate].
  now apply IH.
Qed.

Lemma span_digits_prefix (s : string) :
  String.prefix (fst (span_digits s)) s = true.
Proof.
  induction s as [|c t IH]; [reflexivity|]. cbn [span_digits].
  destruct (is_digit c); [|reflexivity].
  destruct (span_digits t) as [ds r]. cbn [fst String.prefix] in *.
  destruct (ascii_dec c c); [exact IH|congruence].
Qed.

Lemma str_in_tail (sub : string) (c : ascii) (s : string) :
  str_in sub s = true -> str_in sub (String c s) = true.
Proof.
  intros H. cbn [str_in]. rewrite H. apply orb_true_r.
Qed.

Lemma str_in_prefix (sub s : string) :
  String.prefix sub s = true -> str_in sub s = true.
Proof. intros H. destruct s; cbn [str_in]; now rewrite H. Qed.

Lemma search_status_cons (c : ascii) (t : string) :
  search_status (String c t)
  = match
      (if String.prefix "/status/" (String c t)
       then let ds := fst (span_digits (str_drop 8 (String c t))) in
            if str_nonempty ds then Some ds else None
       else None)
    with
    | Some g => Some g
    | None => search_status t
    end.
Proof. reflexivity. Qed.

(** What the permalink regex returns is a non-empty run of digits that
    follows "/status/" in the text searched. *)
Lemma search_status_sound (s g : string) :
  search_status s = Some g ->
  (str_nonempty g = true /\ all_digits g = true)
  /\ str_in ("/status/" ++ g)%string s = true.
Proof.
  induction s as [|c t IH]; [cbn; discriminate|].
  rewrite search_status_cons.
  destruct (String.prefix "/status/" (String c t)) eqn:Hp.
  - cbv zeta.
    pose proof (span_digits_all (str_drop 8 (String c t))) as Hall.
    pose proof (span_digits_prefix (str_drop 8 (String c t))) as Hpre.
    remember (fst (span_digits (str_drop 8 (String c t)))) as ds eqn:Hds.
    destruct (str_nonempty ds) eqn:Hne.
    + intros H. injection H as <-. split.
      * now rewrite Hall.
      * apply str_in_prefix. now apply prefix_app_drop.
    + intros H. apply IH in H as [H1 H2]. split; [exact H1|].
      now apply str_in_tail.
  - intros H. apply IH in H as [H1 H2]. split; [exact H1|].
    now apply str_in_tail.
Qed.

(** X4.  Every extracted record carries as id a non-empty string of
    the decimal digits 0 to 9, and its url holds "/status/" followed by
    that id. *)
Theorem record_id_from_permalink (article : element) (t : tweet) :
  extract_tweet_data article = Some t ->
  (str_nonempty (id t) = true /\ all_digits (id t) = true)
  /\ str_in ("/status/" ++ id t)%string (url t) = true.
Proof.
  unfold extract_tweet_data, extract_tweet_body, extract_id. intros H.
  unfold res_bind in H.
  repeat (case_match; simplify_eq); cbn [id url];
    now apply search_status_sound.
Qed.

Lemma record_id_from_permalink_witness :
  (str_nonempty "8" = true /\ all_digits "8" = true)
  /\ str_in ("/status/" ++ "8")%string "https://twitter.com/TCS/status/8" = true.
Proof.
  apply (record_id_from_permalink replied_article
           {| id := "8"; url := "https://twitter.com/TCS/status/8";
              text := "hello"; timestamp := Some "";
              replies := PyInt 0; retweets := PyInt 0; likes := PyInt 7;
              photos := [] |}).
  vm_compute. reflexivity.
Defined.

(** ** Counters and exits of the scroll loop *)

Lemma scrape_loop_counts {D} (driver : webdriver D) (fuel : nat) :
  forall (st : loop_state) (n : nat) (d : D),
    scroll_attempts st <= max_scroll_attempts ->
    let r := scrape_loop driver fuel st n d in
    scroll_attempts (final r) <= max_scroll_attempts
    /\ cycles r + scroll_attempts st = n + scroll_attempts (final r)
    /\ (exit_by r = ByCondition ->
        TWEET_LIMIT <= length (tweets_data (final r))
        \/ scroll_attempts (final r) = max_scroll_attempts).
Proof.
  induction fuel as [|fuel IH]; intros st n d Hsa; cbv zeta; cbn [scrape_loop];
    destruct ((length (tweets_data st) <? TWEET_LIMIT)%nat
              && (scroll_attempts st <? max_scroll_attempts)%nat) eqn:Hc;
    cbn [exit_by final cycles];
    try (split; [exact Hsa|]; split; [lia|discriminate]);
    try (split; [exact Hsa|]; split; [lia|]; intros _;
         apply andb_false_iff in Hc as [Hc|Hc]; apply Nat.ltb_ge in Hc;
         [now left|right; lia]).
  apply loop_condition_true in Hc as [_ Hlt].
  destruct (cycle driver st d) as [[r st'] d'] eqn:Hcy.
  apply cycle_inv in Hcy as (Hs & _ & Hfl & _).
  destruct r as [[|why]|e].
  - specialize (IH st' (S n) d'). cbv zeta in IH.
    destruct IH as (H1 & H2 & H3); [lia|].
    split; [exact H1|]. split; [lia|exact H3].
  - cbn [exit_by final cycles]. split; [lia|]. split; [lia|].
    destruct (Hfl why eq_refl) as [->| ->]; discriminate.
  - cbn [exit_by final cycles]. split; [lia|]. split; [lia|discriminate].
Qed.

(** X5.  [scroll_attempts] counts the cycles of a run: however the
    loop is left, by its condition, by a [break] or by an exception,
    the variable holds the number of cycles begun.  A loop left through
    its condition holds at least [TWEET_LIMIT] records or has used all
    [max_scroll_attempts] attempts. *)
Theorem scroll_attempts_count_cycles {D} (driver : webdriver D) (fuel : nat)
  (height : jsval) (d : D) :
  let r := scrape_loop driver fuel (initial_state height) 0 d in
  cycles r = scroll_attempts (final r)
  /\ (exit_by r = ByCondition ->
      TWEET_LIMIT <= length (tweets_data (final r))
      \/ scroll_attempts (final r) = max_scroll_attempts).
Proof.
  pose proof (scrape_loop_counts driver fuel (initial_state height) 0 d) as H.
  cbv zeta in *. cbn [initial_state scroll_attempts] in H.
  destruct H as (_ & H & H'); [lia|]. split; [lia|exact H'].
Qed.

Lemma scrape_loop_counter {D} (driver : webdriver D) (fuel : nat) :
  forall (st : loop_state) (n : nat) (d : D),
    no_new_tweets_count st <= 4 ->
    let r := scrape_loop driver fuel st n d in
    no_new_tweets_count (final r) <= 5
    /\ (no_new_tweets_count (final r) = 5 ->
        exit_by r = ByExhaustion
        \/ exists e d2,
             exit_by r = ByException e
             /\ is_NoSuchElement e = false
             /\ click_show_more driver d2 = (Raise e, driver_after r)).
Proof.
  induction fuel as [|fuel IH]; intros st n d Hst; cbv zeta; cbn [scrape_loop];
    destruct ((length (tweets_data st) <? TWEET_LIMIT)%nat
              && (scroll_attempts st <? max_scroll_attempts)%nat);
    cbn [final exit_by driver_after]; try (split; lia).
  destruct (cycle driver st d) as [[r st'] d'] eqn:Hcy.
  apply cycle_inv in Hcy as (_ & _ & Hfl & Hex & Hnx & Hraise).
  destruct r as [[|why]|e]; cbn [final exit_by driver_after].
  - apply IH. apply Hnx. now left.
  - destruct (Hfl why eq_refl) as [->| ->].
    + destruct Hex as [H1 H2]; [reflexivity|]. split; [lia|]. now left.
    + assert (no_new_tweets_count st' <= 4) by (apply Hnx; now right).
      split; lia.
  - destruct (Hraise e eq_refl) as [H|[H|(H & _ & Hn & d2 & Hclick)]];
      try (split; lia).
    split; [lia|]. intros _. right. exists e, d2. now repeat split.
Qed.

(** X6.  The no-growth counter of a run never exceeds 5.  It is 5 when
    the loop is left by the exhaustion exit; otherwise it is 5 only
    when the loop is left by an exception, other than
    [NoSuchElementException], of the lookup or the click of the "Show
    more" control in the fifth stalled cycle in a row: line 147
    increments the counter before line 151 looks the control up. *)
Theorem no_growth_counter_bounded {D} (driver : webdriver D) (fuel : nat)
  (height : jsval) (d : D) :
  let r := scrape_loop driver fuel (initial_state height) 0 d in
  no_new_tweets_count (final r) <= 5
  /\ (exit_by r = ByExhaustion -> no_new_tweets_count (final r) = 5)
  /\ (no_new_tweets_count (final r) = 5 ->
      exit_by r = ByExhaustion
      \/ exists e d2,
           exit_by r = ByException e
           /\ is_NoSuchElement e = false
           /\ click_show_more driver d2 = (Raise e, driver_after r)).
Proof.
  cbv zeta.
  destruct (scrape_loop_counter driver fuel (initial_state height) 0 d)
    as [H1 H2]; [cbn; lia|].
  split; [exact H1|]. split; [|exact H2].
  apply scrape_loop_exhaustion. cbn. lia.
Qed.

(** The exhaustion exit on the growing page, and a lookup that fails
    with another exception in the fifth stalled cycle. *)
Lemma no_growth_counter_bounded_witness :
  no_new_tweets_count
    (final (scrape_loop scripted 30 (initial_state (JsNum 50)) 0
              growing_empty_page))
  = 5
  /\ (exit_by (scrape_loop lookup_fails_late 30 (initial_state (JsNum 50)) 0
                 growing_empty_page) = ByExhaustion
      \/ exists e d2,
           exit_by (scrape_loop lookup_fails_late 30 (initial_state (JsNum 50)) 0
                      growing_empty_page) = ByException e
           /\ is_NoSuchElement e = false
           /\ click_show_more lookup_fails_late d2
              = (Raise e,
                 driver_after (scrape_loop lookup_fails_late 30
                                 (initial_state (JsNum 50)) 0
                                 growing_empty_page))).
Proof.
  split.
  - apply (proj1 (proj2 (no_growth_counter_bounded scripted 30 (JsNum 50)
                           growing_empty_page))).
    vm_compute. reflexivity.
  - apply (proj2 (proj2 (no_growth_counter_bounded lookup_fails_late 30
                           (JsNum 50) growing_empty_page))).
    vm_compute. reflexivity.
Defined.

(** X7.  A cycle leaves the loop by the end-of-page exit only after the
    height script answered the value held in [last_height] three times
    in that cycle, with the back-and-forth scroll between the second
    and the third reading; the no-growth counter plays no part, and
    [last_height] is left as it was. *)
Theorem end_of_page_exit_conditions {D} (driver : webdriver D)
  (st st' : loop_state) (d0 d' : D) :
  cycle driver st d0 = (Ok (Break ByEndOfPage), st', d') ->
  last_height st' = last_height st
  /\ scroll_attempts st' = scroll_attempts st + 1
  /\ exists (da db dc dd de : D) (v w : jsval),
       execute_script driver height_script [] da = (Ok (last_height st), db)
       /\ execute_script driver height_script [] db = (Ok (last_height st), dc)
       /\ execute_script driver
            "window.scrollTo(0, document.body.scrollHeight * 0.8);" [] dc
          = (Ok v, dd)
       /\ execute_script driver scroll_script [] dd = (Ok w, de)
       /\ execute_script driver height_script [] de = (Ok (last_height st), d').
Proof.
  intros H.
  pose proof (cycle_inv driver st st' _ d0 d' H) as (Hs & _).
  unfold_cycle.
  repeat (case_match; simplify_eq); cbn [last_height scroll_attempts];
    (split; [reflexivity|]); (split; [lia|]);
    repeat match goal with
           | H : jsval_eqb _ _ = true |- _ => apply jsval_eqb_eq in H; subst
           end;
    match goal with
    | Ha : execute_script driver height_script [] ?da = (Ok _, ?db),
      Hb : execute_script driver height_script [] ?db = (Ok _, ?dc),
      Hc : execute_script driver
             "window.scrollTo(0, document.body.scrollHeight * 0.8);" [] ?dc
           = (Ok ?v, ?dd),
      Hd : execute_script driver scroll_script [] ?dd = (Ok ?w, ?de),
      He : execute_script driver height_script [] ?de = (Ok _, _) |- _ =>
        exists da, db, dc, dd, de, v, w; repeat split; assumption
    end.
Qed.

Lemma end_of_page_exit_conditions_witness :
  last_height
    {| tweets_data := [] ; last_height := JsNum 0;
       scroll_attempts := 1; no_new_tweets_count := 1 |}
  = last_height (initial_state (JsNum 0)).
Proof.
  apply (end_of_page_exit_conditions scripted (initial_state (JsNum 0))
           {| tweets_data := [] ; last_height := JsNum 0;
              scroll_attempts := 1; no_new_tweets_count := 1 |}
           {| loads := true; scans := []; heights := [] |}
           {| loads := true; scans := []; heights := [] |}).
  vm_compute. reflexivity.
Defined.

(** X8.  A cycle that gains a record, and a stalled cycle in which the
    "Show more" control is found and clicked, both leave the no-growth
    counter at 0 and cannot take the exhaustion exit. *)
Theorem counter_reset {D} (driver : webdriver D) (st st' : loop_state)
  (fl : flow) (d0 d1 d2 d3 d' : D) (v w : jsval) (articles : list element) :
  cycle driver st d0 = (Ok fl, st', d') ->
  execute_script driver scroll_script [] d0 = (Ok v, d1) ->
  driver_find_elements driver CSS_SELECTOR "article" d1 = (Ok articles, d2) ->
  (length (tweets_data st) < length (scan_articles articles (tweets_data st))
   \/ (3 <= no_new_tweets_count st + 1
       /\ click_show_more driver d2 = (Ok w, d3))) ->
  no_new_tweets_count st' = 0 /\ fl <> Break ByExhaustion.
Proof.
  intros H Hscroll Hfind Hcase.
  unfold cycle, check_new_tweets, try_show_more, lbind, call, var, assign, lret
    in H.
  rewrite Hscroll, Hfind in H.
  cbn [set_tweets_data set_scroll_attempts set_no_new_tweets_count
       tweets_data no_new_tweets_count scroll_attempts last_height] in H.
  destruct Hcase as [Hgrow|[Hthree Hclick]].
  - assert ((length (scan_articles articles (tweets_data st))
             =? length (tweets_data st))%nat = false) as Hne
      by (apply Nat.eqb_neq; lia).
    rewrite Hne in H. unfold_cycle.
    repeat (case_match; simplify_eq); cbn [no_new_tweets_count];
      split; congruence.
  - destruct ((length (scan_articles articles (tweets_data st))
               =? length (tweets_data st))%nat).
    + cbn [set_tweets_data set_scroll_attempts set_no_new_tweets_count
           tweets_data no_new_tweets_count scroll_attempts last_height] in H.
      assert ((3 <=? no_new_tweets_count st + 1)%nat = true) as H3
        by now apply Nat.leb_le.
      rewrite H3, Hclick in H. unfold_cycle.
      repeat (case_match; simplify_eq); cbn [no_new_tweets_count];
        split; congruence.
    + unfold_cycle.
      repeat (case_match; simplify_eq); cbn [no_new_tweets_count];
        split; congruence.
Qed.

Lemma counter_reset_witness :
  no_new_tweets_count
    {| tweets_data := [] ; last_height := JsNum 100;
       scroll_attempts := 1; no_new_tweets_count := 0 |} = 0
  /\ Next <> Break ByExhaustion.
Proof.
  apply (counter_reset scripted_with_control
           {| tweets_data := [] ; last_height := JsNum 50;
              scroll_attempts := 0; no_new_tweets_count := 4 |}
           {| tweets_data := [] ; last_height := JsNum 100;
              scroll_attempts := 1; no_new_tweets_count := 0 |}
           Next
           growing_empty_page growing_empty_page growing_empty_page
           growing_empty_page
           {| loads := true; scans := [];
              heights := [200; 300; 400; 500; 600; 700]%Z |}
           JsNone JsNone []).
  - vm_compute. reflexivity.
  - reflexivity.
  - reflexivity.
  - right. split; [cbn; lia|reflexivity].
Defined.

(** X9.  The "Show more" control is looked up only from the third
    stalled cycle in a row: while the no-growth counter is below 2 at
    the start of a cycle, the cycle does not depend on what
    [driver.find_element] would answer. *)
Theorem no_lookup_before_third_stall {D} (driver : webdriver D)
  (other : By -> string -> D -> res element * D) (st : loop_state) (d : D) :
  no_new_tweets_count st < 2 ->
  cycle (with_find_element driver other) st d = cycle driver st d.
Proof.
  intros Hlt.
  assert ((3 <=? no_new_tweets_count st + 1)%nat = false) as H3
    by (apply Nat.leb_gt; lia).
  unfold cycle, check_new_tweets, check_height, lbind, lret, call, var, assign,
    with_find_element.
  cbn [execute_script driver_find_elements].
  destruct (execute_script driver scroll_script [] d) as [[v|e] d1];
    [|reflexivity].
  destruct (driver_find_elements driver CSS_SELECTOR "article" d1)
    as [[articles|e] d2]; [|reflexivity].
  cbn [set_tweets_data set_scroll_attempts set_no_new_tweets_count
       tweets_data no_new_tweets_count scroll_attempts last_height].
  destruct (length (scan_articles articles (tweets_data st))
            =? length (tweets_data st))%nat; [|reflexivity].
  cbn [set_tweets_data set_scroll_attempts set_no_new_tweets_count
       tweets_data no_new_tweets_count scroll_attempts last_height].
  rewrite H3. reflexivity.
Qed.

Lemma no_lookup_before_third_stall_witness :
  cycle scripted_with_control (initial_state (JsNum 50)) growing_empty_page
  = cycle scripted (initial_state (JsNum 50)) growing_empty_page.
Proof.
  apply (no_lookup_before_third_stall scripted
           (fun _ _ d => (Ok (node [] "Show more" []), d))
           (initial_state (JsNum 50)) growing_empty_page).
  cbn. lia.
Defined.

(** X10.  Only [TimeoutException] of the initial wait counts as "no
    content": any other exception of that wait leaves [scrape_tweets]
    as it is, and the batch records it in an "Error: ..." row for the
    company. *)
Theorem wait_fault_is_an_error {D} (driver : webdriver D)
  (w : session D) (c : company) (d0 d1 d2 d3 : D) (logged : bool) (e : exn) :
  setup_driver w = Ok d0 ->
  login_to_twitter w d0 = (Ok logged, d1) ->
  driver_get driver ("https://twitter.com/" ++ handle c ++ "/tweets")%string d1
  = (Ok tt, d2) ->
  wait_until_present driver 30 "article" d2 = (Raise e, d3) ->
  is_Timeout e = false ->
  summary_append_error w = Ok tt ->
  scrape_tweets driver (handle c) d1 = (Raise e, d3)
  /\ process_company driver w c = Ok (error_row c e).
Proof.
  intros Hsetup Hlogin Hget Hwait Ht Herr.
  assert (scrape_tweets driver (handle c) d1 = (Raise e, d3)) as Hs.
  { unfold scrape_tweets, scrape_tweets_fuel, scrape_run, bind, ret.
    now rewrite Hget, Hwait, Ht. }
  split; [exact Hs|].
  unfold process_company, try_company.
  rewrite Hsetup. cbn [res_bind]. rewrite Hlogin. cbn [res_bind].
  rewrite Hs. cbn [res_bind]. now rewrite Herr.
Qed.

Lemma wait_fault_is_an_error_witness :
  process_company disconnected (quiet_world blank_page tcs) tcs
  = Ok (error_row tcs (Exn WebDriverException "disconnected")).
Proof.
  apply (wait_fault_is_an_error disconnected (quiet_world blank_page tcs) tcs
           blank_page blank_page blank_page blank_page false
           (Exn WebDriverException "disconnected"));
    reflexivity.
Defined.

(** ** Count texts *)

Lemma append_cons (c : ascii) (s t : string) :
  (String c s ++ t)%string = String c (s ++ t)%string.
Proof. reflexivity. Qed.

Lemma append_nil_r (s : string) : (s ++ "")%string = s.
Proof.
  induction s as [|c s IH]; [reflexivity|]. now rewrite append_cons, IH.
Qed.

Lemma append_assoc (a b c : string) :
  ((a ++ b) ++ c)%string = (a ++ b ++ c)%string.
Proof.
  induction a as [|x a IH]; [reflexivity|]. now rewrite !append_cons, IH.
Qed.

Lemma char_in_app (c : ascii) (a b : string) :
  char_in c (a ++ b)%string = char_in c a || char_in c b.
Proof.
  induction a as [|x a IH]; [reflexivity|].
  rewrite append_cons. cbn [char_in]. rewrite IH. apply orb_assoc.
Qed.

Lemma char_in_digits (c : ascii) (ds : string) :
  is_digit c = false -> all_digits ds = true -> char_in c ds = false.
Proof.
  intros Hc. induction ds as [|x ds IH]; [reflexivity|]. cbn.
  intros H. apply andb_true_iff in H as [Hx Hds].
  rewrite (IH Hds), orb_false_r.
  destruct (Ascii.eqb c x) eqn:E; [|reflexivity].
  apply Ascii.eqb_eq in E. congruence.
Qed.

Lemma str_remove_app (c : ascii) (a b : string) :
  str_remove c (a ++ b)%string = (str_remove c a ++ str_remove c b)%string.
Proof.
  induction a as [|x a IH]; [reflexivity|].
  rewrite append_cons. cbn [str_remove]. rewrite IH.
  destruct (Ascii.eqb c x); reflexivity.
Qed.

Lemma str_remove_absent (c : ascii) (s : string) :
  char_in c s = false -> str_remove c s = s.
Proof.
  induction s as [|x s IH]; [reflexivity|]. cbn.
  intros H. apply orb_false_iff in H as [Hx Hs].
  now rewrite Hx, (IH Hs).
Qed.

Lemma span_digits_app (ds rest : string) :
  all_digits ds = true -> starts_with_digit rest = false ->
  span_digits (ds ++ rest)%string = (ds, rest).
Proof.
  intros Hds Hrest. induction ds as [|x ds IH].
  - destruct rest as [|c r]; [reflexivity|].
    change ("" ++ String c r)%string with (String c r). cbn in *.
    now rewrite Hrest.
  - cbn in Hds. apply andb_true_iff in Hds as [Hx Hds].
    rewrite append_cons. cbn [span_digits]. now rewrite Hx, (IH Hds).
Qed.

Lemma span_digits_whole (ds : string) :
  all_digits ds = true -> span_digits ds = (ds, "").
Proof.
  intros H. pose proof (span_digits_app ds "" H eq_refl) as Hs.
  now rewrite append_nil_r in Hs.
Qed.

Lemma str_nonempty_app (a b : string) :
  str_nonempty a = true -> str_nonempty (a ++ b)%string = true.
Proof. destruct a; [discriminate|reflexivity]. Qed.

Lemma literal_char_plain (c : ascii) :
  literal_char c = true ->
  float_space c = false /\ Ascii.eqb c "_" = false.
Proof.
  destruct c as [[] [] [] [] [] [] [] []]; intros H; vm_compute in H |- *;
    try discriminate; now split.
Qed.

Lemma all_with_digits (s : string) :
  all_digits s = true -> all_with literal_char s = true.
Proof.
  induction s as [|c t IH]; [reflexivity|]. cbn [all_digits all_with].
  intros H. apply andb_true_iff in H as [Hc Ht].
  unfold literal_char at 1. now rewrite Hc, (IH Ht).
Qed.

Lemma all_with_app (p : ascii -> bool) (a b : string) :
  all_with p (a ++ b)%string = all_with p a && all_with p b.
Proof.
  induction a as [|c t IH]; [reflexivity|].
  rewrite append_cons. cbn [all_with]. now rewrite IH, andb_assoc.
Qed.

Lemma literal_all_with (ip fp : string) :
  all_digits ip = true -> all_digits fp = true ->
  all_with literal_char (ip ++ "." ++ fp)%string = true.
Proof.
  intros Hip Hfp. rewrite !all_with_app.
  now rewrite (all_with_digits ip Hip), (all_with_digits fp Hfp).
Qed.

(** [float] strips nothing from a decimal literal and finds no
    underscore in it. *)
Lemma lstrip_literal (s : string) :
  all_with literal_char s = true -> lstrip_with float_space s = s.
Proof.
  destruct s as [|c t]; [reflexivity|]. cbn [all_with lstrip_with].
  intros H. apply andb_true_iff in H as [Hc _].
  now destruct (literal_char_plain c Hc) as [-> _].
Qed.

Lemma rstrip_literal (s : string) :
  all_with literal_char s = true -> rstrip_with float_space s = s.
Proof.
  induction s as [|c t IH]; [reflexivity|]. cbn [all_with rstrip_with].
  intros H. apply andb_true_iff in H as [Hc Ht].
  destruct (literal_char_plain c Hc) as [-> _]. cbn [andb].
  now rewrite (IH Ht).
Qed.

Lemma drop_underscores_literal (s : string) :
  forall prev : ascii,
    Ascii.eqb prev "_" = false -> all_with literal_char s = true ->
    drop_underscores prev s = Some s.
Proof.
  induction s as [|c t IH]; intros prev Hprev Hs; cbn [drop_underscores].
  - now rewrite Hprev.
  - cbn [all_with] in Hs. apply andb_true_iff in Hs as [Hc Ht].
    destruct (literal_char_plain c Hc) as [_ Hu].
    rewrite Hu, Hprev. cbn [andb]. now rewrite (IH c Hu Ht).
Qed.

Lemma digit_head (ds : string) :
  str_nonempty ds = true -> all_digits ds = true ->
  exists c t, ds = String c t /\ is_digit c = true.
Proof.
  destruct ds as [|c t]; [discriminate|]. cbn.
  intros _ H. apply andb_true_iff in H as [H _]. eauto.
Qed.

(** What [float] does with a text made of digits and points that begins
    with a digit: the digits, the point and the digits after it are
    read, and nothing may follow. *)
Lemma py_float_literal (c : ascii) (t : string) :
  is_digit c = true -> all_with literal_char t = true ->
  py_float (String c t)
  = (let '(ip, r1) := span_digits (String c t) in
     let '(fp, r2) :=
       match r1 with
       | String c t => if Ascii.eqb c "." then span_digits t else (EmptyString, r1)
       | EmptyString => (EmptyString, r1)
       end in
     let '(exponent, r3) := split_exponent r2 in
     if str_nonempty (ip ++ fp) && negb (str_nonempty r3)
     then Ok (b64_round false
                (decimal_q (ip ++ fp) (exponent - Z.of_nat (String.length fp))))
     else Raise (Exn ValueError
                   ("could not convert string to float: " ++ String c t))).
Proof.
  intros Hc Ht.
  assert (all_with literal_char (String c t) = true) as Hs.
  { cbn [all_with]. unfold literal_char at 1. now rewrite Hc, Ht. }
  unfold py_float, strip_with.
  rewrite (lstrip_literal _ Hs), (rstrip_literal _ Hs).
  rewrite (drop_underscores_literal _ "000" eq_refl Hs).
  destruct (digit_not_sign c Hc) as (Hm & Hp & Hu & Hl).
  cbn [split_sign]. rewrite Hm, Hp.
  cbn [str_lower]. rewrite Hl.
  rewrite !(digit_not_letter c) by (assumption || reflexivity).
  reflexivity.
Qed.

(** [float] of a decimal literal, with or without fraction digits
    after the point. *)
Lemma py_float_decimal_literal (ip fp : string) :
  str_nonempty ip = true -> all_digits ip = true -> all_digits fp = true ->
  py_float (ip ++ "." ++ fp)%string = Ok (decimal_value ip fp).
Proof.
  intros Hne Hip Hfp.
  pose proof (literal_all_with ip fp Hip Hfp) as Hs.
  destruct (digit_head ip Hne Hip) as (c & t & -> & Hc).
  rewrite append_cons in Hs |- *. cbn [all_with] in Hs.
  apply andb_true_iff in Hs as [_ Hs].
  rewrite (py_float_literal c _ Hc Hs). rewrite <- append_cons.
  rewrite (span_digits_app (String c t) ("." ++ fp)%string Hip eq_refl).
  change ("." ++ fp)%string with (String "." fp).
  cbn [Ascii.eqb Bool.eqb]. cbn match.
  rewrite (span_digits_whole fp Hfp).
  cbn [split_exponent str_nonempty negb andb].
  rewrite append_cons. cbn [str_nonempty andb].
  unfold decimal_value. now rewrite Z.sub_0_l.
Qed.

(** [float] of a string of digits. *)
Lemma py_float_digits (ip : string) :
  str_nonempty ip = true -> all_digits ip = true ->
  py_float ip = Ok (decimal_value ip "").
Proof.
  intros Hne Hip.
  destruct (digit_head ip Hne Hip) as (c & t & -> & Hc).
  assert (all_with literal_char t = true) as Hs.
  { cbn [all_digits] in Hip. apply andb_true_iff in Hip as [_ Ht].
    now apply all_with_digits. }
  rewrite (py_float_literal c _ Hc Hs).
  rewrite (span_digits_whole (String c t) Hip).
  cbn match. cbn [split_exponent str_nonempty negb andb].
  rewrite append_cons. cbn [str_nonempty andb]. reflexivity.
Qed.

Lemma is_KMB_cases (c : ascii) :
  is_KMB c = true -> c = "K"%char \/ c = "M"%char \/ c = "B"%char.
Proof.
  unfold is_KMB. intros H.
  apply orb_true_iff in H as [H|H]; [apply orb_true_iff in H as [H|H]|];
    apply Ascii.eqb_eq in H; auto.
Qed.

Lemma convert_count_suffix (body : string) (c : ascii) :
  char_in "K" body = false -> char_in "M" body = false ->
  char_in "B" body = false -> is_KMB c = true ->
  convert_count (body ++ String c "")%string
  = (let? f := py_float body in Ok (PyFloat (fmul f (suffix_factor c)))).
Proof.
  intros HK HM HB Hc. unfold convert_count.
  rewrite !char_in_app, HK, HM, HB, !str_remove_app.
  rewrite (str_remove_absent "K" body HK), (str_remove_absent "M" body HM),
    (str_remove_absent "B" body HB).
  destruct (is_KMB_cases c Hc) as [->|[->| ->]]; cbn; now rewrite append_nil_r.
Qed.

Lemma all_isdigit_digits (s : string) :
  all_digits s = true -> all_isdigit s = true.
Proof.
  induction s as [|c t IH]; [reflexivity|]. cbn [all_digits all_isdigit].
  intros H. apply andb_true_iff in H as [Hc Ht].
  unfold isdigit_char. now rewrite Hc, (IH Ht).
Qed.

Lemma all_isdigit_app (a b : string) :
  all_isdigit (a ++ b)%string = all_isdigit a && all_isdigit b.
Proof.
  induction a as [|c t IH]; [reflexivity|].
  rewrite append_cons. cbn [all_isdigit]. now rewrite IH, andb_assoc.
Qed.

(** X11.  How count texts of decimal digits are converted.  A string
    of at most 4300 digits is that integer, and a longer one raises
    ValueError.  Digits followed by K, M or B, with or without a decimal
    fraction, are the binary64 number nearest to the decimal literal,
    times 1000.0, 1000000.0 or 1000000000.0 with the product rounded to
    binary64 again (so "16.1K" is 16100.000000000002).  A decimal
    fraction without a suffix letter is not read at all: the count
    is 0. *)
Theorem count_text_values (ip fp : string) (c : ascii) :
  str_nonempty ip = true -> all_digits ip = true ->
  all_digits fp = true -> is_KMB c = true ->
  convert_count ip
  = (if (String.length ip <=? int_max_str_digits)%nat
     then Ok (PyInt (digits_value ip))
     else Raise (Exn ValueError
                   "Exceeds the limit (4300 digits) for integer string conversion"))
  /\ convert_count (ip ++ String c "")%string
     = Ok (PyFloat (fmul (decimal_value ip "") (suffix_factor c)))
  /\ convert_count (ip ++ "." ++ fp ++ String c "")%string
     = Ok (PyFloat (fmul (decimal_value ip fp) (suffix_factor c)))
  /\ convert_count (ip ++ "." ++ fp)%string = Ok (PyInt 0)
  /\ convert_count "16.1K"
     = Ok (PyFloat (Fnum false (8851068603596801 # 549755813888))).
Proof.
  intros Hne Hip Hfp Hc.
  assert (forall k, is_digit k = false -> k <> "."%char ->
                    char_in k (ip ++ "." ++ fp)%string = false) as Hbody.
  { intros k Hk Hdot. rewrite !char_in_app.
    rewrite (char_in_digits k ip Hk Hip), (char_in_digits k fp Hk Hfp).
    cbn. destruct (Ascii.eqb k ".") eqn:E; [|reflexivity].
    apply Ascii.eqb_eq in E. contradiction. }
  split; [|split; [|split; [|split]]].
  - unfold convert_count.
    rewrite !char_in_digits by (assumption || reflexivity).
    unfold str_isdigit, py_int.
    rewrite Hne, (all_isdigit_digits ip Hip), Hip. cbn [andb negb].
    now destruct (String.length ip <=? int_max_str_digits)%nat.
  - rewrite convert_count_suffix;
      try (apply char_in_digits; [reflexivity|assumption]); [|assumption].
    now rewrite py_float_digits.
  - replace (ip ++ "." ++ fp ++ String c "")%string
      with ((ip ++ "." ++ fp) ++ String c "")%string
      by (now rewrite !append_assoc).
    rewrite convert_count_suffix;
      try (apply Hbody; [reflexivity|discriminate]); [|assumption].
    now rewrite py_float_decimal_literal.
  - unfold convert_count.
    rewrite !Hbody by (reflexivity || discriminate).
    assert (str_isdigit (ip ++ "." ++ fp)%string = false) as ->; [|reflexivity].
    unfold str_isdigit. rewrite all_isdigit_app.
    change ("." ++ fp)%string with (String "." fp). cbn [all_isdigit].
    replace (isdigit_char ".") with false by (vm_compute; reflexivity).
    cbn [andb]. now rewrite andb_false_r, andb_false_r.
  - vm_compute. reflexivity.
Qed.

Lemma count_text_values_witness :
  convert_count ("12" ++ "." ++ "5" ++ String "K" "")%string
  = Ok (PyFloat (fmul (decimal_value "12" "5") (suffix_factor "K")))
  /\ convert_count ("12" ++ "." ++ "5" ++ String "K" "")%string
     = Ok (PyFloat (Fnum false 12500)).
Proof.
  split; [|vm_compute; reflexivity].
  apply (count_text_values "12" "5" "K"); reflexivity.
Defined.

(** ** Metrics in closed form *)

Lemma metric_elements_loop_key (key : string) (els : list element)
  (m : gmap string pynum) :
  metric_elements_loop key els m !! key
  = match first_count els with
    | Some c => Some c
    | None => m !! key
    end.
Proof.
  induction els as [|el els IH]; cbn [metric_elements_loop first_count];
    [reflexivity|].
  destruct (read_count el) as [[c|]|e]; try exact IH.
  apply lookup_insert_eq.
Qed.

(** Two selectors tried in order on a metric that holds a count which
    is not positive. *)
Lemma selector_loop_value (article : element) (key s1 s2 : string)
  (m : gmap string pynum) (v0 : pynum) :
  m !! key = Some v0 -> num_pos v0 = false ->
  selector_loop article key [s1; s2] m !! key
  = Some (match selector_count article s1 with
          | Some v =>
              if num_pos v then v
              else match selector_count article s2 with
                   | Some w => w
                   | None => v
                   end
          | None =>
              match selector_count article s2 with
              | Some w => w
              | None => v0
              end
          end).
Proof.
  intros Hm Hv0. unfold selector_count. cbn [selector_loop].
  destruct (find_elements article s1) as [els1|e1].
  - pose proof (metric_elements_loop_key key els1 m) as H1.
    destruct (first_count els1) as [v|].
    + rewrite H1. destruct (num_pos v) eqn:Hv; [exact H1|].
      destruct (find_elements article s2) as [els2|e2]; [|exact H1].
      pose proof (metric_elements_loop_key key els2
                    (metric_elements_loop key els1 m)) as H2.
      rewrite H1 in H2.
      destruct (first_count els2) as [w|]; rewrite H2;
        repeat case_match; assumption.
    + rewrite Hm in H1. rewrite H1, Hv0.
      destruct (find_elements article s2) as [els2|e2]; [|exact H1].
      pose proof (metric_elements_loop_key key els2
                    (metric_elements_loop key els1 m)) as H2.
      rewrite H1 in H2.
      destruct (first_count els2) as [w|]; rewrite H2;
        repeat case_match; assumption.
  - destruct (find_elements article s2) as [els2|e2]; [|exact Hm].
    pose proof (metric_elements_loop_key key els2 m) as H2.
    rewrite Hm in H2.
    destruct (first_count els2) as [w|]; rewrite H2;
      repeat case_match; assumption.
Qed.

(** X12.  The like and retweet counts of a record in closed form: the
    count of the first selector if it is positive; otherwise the count
    of the second selector if it yields one; otherwise the count of the
    first selector, or 0 when neither yields a count.  A selector's
    count is that of its first element whose count text can be read and
    converted. *)
Theorem likes_and_retweets_value (article : element) (t : tweet) :
  extract_tweet_data article = Some t ->
  likes t = metric_value article "[data-testid='like']" "[aria-label*='like']"
  /\ retweets t
     = metric_value article "[data-testid='retweet']" "[aria-label*='retweet']".
Proof.
  intros H.
  assert (metrics_get (extract_metrics article) "likes"
          = metric_value article "[data-testid='like']" "[aria-label*='like']")
    as Hl.
  { unfold metrics_get, metric_value. rewrite extract_metrics_unfold.
    erewrite selector_loop_value; [reflexivity| |reflexivity].
    rewrite !selector_loop_other by discriminate. reflexivity. }
  assert (metrics_get (extract_metrics article) "retweets"
          = metric_value article "[data-testid='retweet']"
                         "[aria-label*='retweet']") as Hr.
  { unfold metrics_get, metric_value. rewrite extract_metrics_unfold.
    rewrite selector_loop_other by discriminate.
    erewrite selector_loop_value; [reflexivity| |reflexivity].
    rewrite !selector_loop_other by discriminate. reflexivity. }
  unfold extract_tweet_data, extract_tweet_body in H.
  repeat (case_match; simplify_eq); unfold res_bind in *;
    repeat (case_match; simplify_eq); cbn [likes retweets]; now split.
Qed.

Lemma likes_and_retweets_value_witness :
  PyInt 7 = metric_value replied_article "[data-testid='like']"
                         "[aria-label*='like']"
  /\ PyInt 0 = metric_value replied_article "[data-testid='retweet']"
                            "[aria-label*='retweet']".
Proof.
  apply (likes_and_retweets_value replied_article
           {| id := "8"; url := "https://twitter.com/TCS/status/8";
              text := "hello"; timestamp := Some "";
              replies := PyInt 0; retweets := PyInt 0; likes := PyInt 7;
              photos := [] |}).
  vm_compute. reflexivity.
Defined.

(** * The export written by [save_to_csv] *)

Lemma write_rows_spec (env : export_env) (image_folder : string)
  (tweets : list tweet) :
  forall (i : nat) (rows : list csv_row),
    write_rows env image_folder i tweets = Ok rows ->
    map S_No rows = seq i (length tweets)
    /\ map Tweet_ID rows = map id tweets
    /\ map Tweet_Text rows = map text tweets
    /\ map Image_URLs rows = map (fun t => str_join "; " (photos t)) tweets
    /\ Forall2 (fun t row =>
                  Date row
                  = match timestamp t with
                    | None => None
                    | Some d =>
                        match format_iso env (str_replace_char "Z" "+00:00" d)
                        with
                        | Ok shown => Some shown
                        | Raise _ => Some d
                        end
                    end) tweets rows.
Proof.
  induction tweets as [|t rest IH]; intros i rows; cbn [write_rows].
  - intros H. injection H as <-. cbn. repeat split; constructor.
  - destruct (download_photos env image_folder (id t) 1 (photos t) [])
      as [local|e]; cbn [res_bind]; [|discriminate].
    destruct (write_rows env image_folder (S i) rest) as [rows'|e] eqn:E;
      cbn [res_bind]; [|discriminate].
    intros H. injection H as <-.
    destruct (IH (S i) rows' E) as (H1 & H2 & H3 & H4 & H5).
    cbn [map length seq S_No Tweet_ID Tweet_Text Image_URLs].
    rewrite H1, H2, H3, H4. repeat split. constructor; [|exact H5].
    reflexivity.
Qed.

(** X13.  What a successful export holds: the file is
    [company_tweets/<handle>_tweets_<stamp>.csv]; it has one row per
    record, in the order of the records, numbered from 1; each row
    carries the record's id and text and its image locators joined by
    "; "; and its [Date] is the parsed date when the timestamp, with
    "Z" replaced by "+00:00", can be parsed, the timestamp as it was
    extracted when parsing raises, and nothing for a record without
    timestamp. *)
Theorem export_rows (env : export_env) (tweets : list tweet)
  (twitter_handle output_file : string) (rows : list csv_row) :
  save_to_csv_file env tweets twitter_handle = Ok (Some (output_file, rows)) ->
  output_file
  = path_join BASE_DIR
      (twitter_handle ++ "_tweets_" ++ now_stamp env ++ ".csv")%string
  /\ map S_No rows = seq 1 (length tweets)
  /\ map Tweet_ID rows = map id tweets
  /\ map Tweet_Text rows = map text tweets
  /\ map Image_URLs rows = map (fun t => str_join "; " (photos t)) tweets
  /\ Forall2 (fun t row =>
                Date row
                = match timestamp t with
                  | None => None
                  | Some d =>
                      match format_iso env (str_replace_char "Z" "+00:00" d)
                      with
                      | Ok shown => Some shown
                      | Raise _ => Some d
                      end
                  end) tweets rows.
Proof.
  unfold save_to_csv_file. destruct tweets as [|t rest]; [discriminate|].
  destruct (makedirs env BASE_DIR); cbn [res_bind]; [|discriminate].
  destruct (open_output env _); cbn [res_bind]; [|discriminate].
  destruct (write_rows env _ 1 (t :: rest)) as [rows'|e] eqn:E;
    cbn [res_bind]; [|discriminate].
  intros H. injection H as <- <-.
  split; [reflexivity|]. now apply write_rows_spec in E.
Qed.

Lemma export_rows_witness :
  "company_tweets/TCS_tweets_20250517_155120.csv"
  = path_join BASE_DIR
      ("TCS" ++ "_tweets_" ++ now_stamp plain_export ++ ".csv")%string
  /\ map S_No [sample_row] = seq 1 (length [sample_tweet])
  /\ map Tweet_ID [sample_row] = map id [sample_tweet]
  /\ map Tweet_Text [sample_row] = map text [sample_tweet]
  /\ map Image_URLs [sample_row]
     = map (fun t => str_join "; " (photos t)) [sample_tweet]
  /\ Forall2 (fun t row =>
                Date row
                = match timestamp t with
                  | None => None
                  | Some d =>
                      match format_iso plain_export
                              (str_replace_char "Z" "+00:00" d)
                      with
                      | Ok shown => Some shown
                      | Raise _ => Some d
                      end
                  end) [sample_tweet] [sample_row].
Proof.
  apply (export_rows plain_export [sample_tweet] "TCS"
           "company_tweets/TCS_tweets_20250517_155120.csv" [sample_row]).
  vm_compute. reflexivity.
Defined.

(** X14.  [download_image] raises only if the image folder cannot be
    made.  When it returns a path, the image was fetched into that
    path, which lies in the folder and carries an extension: the one
    of the URL, or ".jpg" when the URL has none. *)
Theorem download_image_result (env : export_env)
  (url folder filename : string) :
  makedirs env folder = Ok tt ->
  exists r : option string,
    download_image env url folder filename = Ok r
    /\ forall filepath, r = Some filepath ->
         exists ext,
           filepath = path_join folder (filename ++ ext)%string
           /\ str_nonempty ext = true
           /\ (url_extension env url = Ok ext
               \/ (url_extension env url = Ok "" /\ ext = ".jpg"))
           /\ fetch env url filepath = Ok tt.
Proof.
  intros Hm. unfold download_image. rewrite Hm. cbn [res_bind].
  eexists. split; [reflexivity|].
  intros filepath.
  destruct (url_extension env url) as [ext0|e]; cbn [res_bind]; [|discriminate].
  destruct (str_nonempty ext0) eqn:Hne.
  - destruct (fetch env url (path_join folder (filename ++ ext0)))
      as [[]|e] eqn:Hf; cbn [res_bind]; [|discriminate].
    intros H. injection H as <-. exists ext0. repeat split; auto.
  - destruct (fetch env url (path_join folder (filename ++ ".jpg")))
      as [[]|e] eqn:Hf; cbn [res_bind]; [|discriminate].
    intros H. injection H as <-. exists ".jpg". repeat split; auto.
    right. destruct ext0; [now split|discriminate].
Qed.

Lemma download_image_result_witness :
  exists r : option string,
    download_image plain_export "https://pbs.twimg.com/media/a" "pics" "tweet_1_img_1"
    = Ok r
    /\ forall filepath, r = Some filepath ->
         exists ext,
           filepath = path_join "pics" ("tweet_1_img_1" ++ ext)%string
           /\ str_nonempty ext = true
           /\ (url_extension plain_export "https://pbs.twimg.com/media/a" = Ok ext
               \/ (url_extension plain_export "https://pbs.twimg.com/media/a" = Ok ""
                   /\ ext = ".jpg"))
           /\ fetch plain_export "https://pbs.twimg.com/media/a" filepath = Ok tt.
Proof.
  apply (download_image_result plain_export "https://pbs.twimg.com/media/a"
           "pics" "tweet_1_img_1").
  reflexivity.
Defined.

(** * Image paths of the analysis *)

Lemma prefix_semicolon_other (c : ascii) (t : string) :
  Ascii.eqb ";" c = false -> String.prefix "; " (String c t) = false.
Proof.
  intros H. cbn [String.prefix].
  destruct (ascii_dec ";" c) as [<-|_]; [|reflexivity].
  now rewrite Ascii.eqb_refl in H.
Qed.

Lemma split_from_plain (x : string) :
  forall cur rest : string,
    char_in ";" x = false ->
    split_from "; " 0 cur (x ++ rest)%string
    = split_from "; " 0 (cur ++ x)%string rest.
Proof.
  induction x as [|c x IH]; intros cur rest H.
  - now rewrite append_nil_r.
  - cbn [char_in] in H. apply orb_false_iff in H as [Hc Hx].
    rewrite append_cons. cbn [split_from].
    rewrite (prefix_semicolon_other c _ Hc).
    rewrite (IH _ _ Hx). f_equal.
    now rewrite append_assoc.
Qed.

Lemma split_from_separator (cur rest : string) :
  split_from "; " 0 cur (String ";" (String " " rest))
  = cur :: split_from "; " 0 "" rest.
Proof. destruct rest; reflexivity. Qed.

(** Joining with "; " and splitting on "; " gives the parts back, for
    parts without a semicolon. *)
Lemma split_join (parts : list string) :
  parts <> [] ->
  Forall (fun x => char_in ";" x = false) parts ->
  str_split "; " (str_join "; " parts) = parts.
Proof.
  unfold str_split.
  induction parts as [|x rest IH]; [congruence|].
  intros _ Hall. inversion Hall as [|? ? Hx Hrest]; subst.
  destruct rest as [|y rest'].
  - cbn [str_join]. rewrite <- (append_nil_r x) at 1.
    now rewrite (split_from_plain x "" "" Hx).
  - change (str_join "; " (x :: y :: rest'))
      with (x ++ "; " ++ str_join "; " (y :: rest'))%string.
    rewrite (split_from_plain x "" _ Hx).
    change ("; " ++ str_join "; " (y :: rest'))%string
      with (String ";" (String " " (str_join "; " (y :: rest')))).
    rewrite split_from_separator. f_equal.
    apply IH; [discriminate|exact Hrest].
Qed.

Lemma str_join_nonempty (sep x : string) (rest : list string) :
  str_nonempty x = true -> str_nonempty (str_join sep (x :: rest)) = true.
Proof.
  intros H. cbn [str_join]. destruct rest; [exact H|].
  now apply str_nonempty_app.
Qed.

Lemma fetch_all_spec (env : image_env) (tweet_id : string) (urls : list string) :
  forall (i : nat) (acc : list string),
  exists new : list string,
    fetch_all env tweet_id i urls acc = acc ++ new
    /\ length new <= length urls
    /\ Forall (fun p =>
                 exists k url,
                   nth_error urls k = Some url
                   /\ p = path_join TEMP_DIR
                            (tweet_id ++ "_img_" ++ numeral (i + k + 1)
                             ++ ".jpg")%string
                   /\ image_fetched env url p = true) new.
Proof.
  induction urls as [|url rest IH]; intros i acc; cbn [fetch_all].
  - exists []. rewrite app_nil_r. split; [reflexivity|].
    split; [cbn; lia|constructor].
  - unfold fetch_image.
    set (p0 := path_join TEMP_DIR
                 (tweet_id ++ "_img_" ++ numeral (i + 1) ++ ".jpg")%string).
    assert (forall new : list string,
               Forall (fun p =>
                         exists k url0,
                           nth_error rest k = Some url0
                           /\ p = path_join TEMP_DIR
                                    (tweet_id ++ "_img_"
                                     ++ numeral (S i + k + 1) ++ ".jpg")%string
                           /\ image_fetched env url0 p = true) new ->
               Forall (fun p =>
                         exists k url0,
                           nth_error (url :: rest) k = Some url0
                           /\ p = path_join TEMP_DIR
                                    (tweet_id ++ "_img_"
                                     ++ numeral (i + k + 1) ++ ".jpg")%string
                           /\ image_fetched env url0 p = true) new) as Hshift.
    { intros new Hall. eapply List.Forall_impl; [|exact Hall].
      intros p (k & u & Hk & Hp & Hfp). exists (S k), u.
      replace (i + S k + 1) with (S i + k + 1) by lia.
      split; [exact Hk|]. split; [exact Hp|exact Hfp]. }
    destruct (image_fetched env url p0) eqn:Hf.
    + destruct (IH (S i) (acc ++ [p0])) as (new & Hn & Hlen & Hall).
      exists (p0 :: new). rewrite Hn, <- app_assoc.
      split; [reflexivity|]. split; [cbn [length]; lia|].
      constructor; [|now apply Hshift].
      exists 0, url. replace (i + 0 + 1) with (i + 1) by lia.
      split; [reflexivity|]. split; [reflexivity|exact Hf].
    + destruct (IH (S i) acc) as (new & Hn & Hlen & Hall).
      exists new. split; [exact Hn|]. split; [cbn [length]; lia|].
      now apply Hshift.
Qed.

(** X15.  The locators written by the export are the ones the analysis
    downloads.  For a record that has photos, none of them with a
    semicolon, and a row that carries the record's photos as the
    export joins them and names no existing local image,
    [get_image_paths] tries exactly the record's photos in order: it
    returns, for each photo that could be fetched, the path
    [temp_images/<id>_img_<k>.jpg] with [k] the photo's position
    counted from 1. *)
Theorem exported_urls_are_downloaded (env : image_env) (article : element)
  (t : tweet) (tweet_row : table_row) (local : string) :
  extract_tweet_data article = Some t ->
  photos t <> [] ->
  Forall (fun src => char_in ";" src = false) (photos t) ->
  row_Image_URLs tweet_row = Text (str_join "; " (photos t)) ->
  row_Local_Images tweet_row = Text local ->
  List.filter (path_exists env) (str_split "; " local) = [] ->
  get_image_paths env tweet_row
  = Ok (fetch_all env (row_Tweet_ID tweet_row) 0 (photos t) [])
  /\ length (fetch_all env (row_Tweet_ID tweet_row) 0 (photos t) [])
     <= length (photos t)
  /\ Forall (fun p =>
               exists k src,
                 nth_error (photos t) k = Some src
                 /\ p = path_join TEMP_DIR
                          (row_Tweet_ID tweet_row ++ "_img_" ++ numeral (k + 1)
                           ++ ".jpg")%string
                 /\ image_fetched env src p = true)
            (fetch_all env (row_Tweet_ID tweet_row) 0 (photos t) []).
Proof.
  intros Hex Hne Hsemi Hurls Hlocal Hnone.
  assert (Forall (fun src => str_nonempty src = true) (photos t)) as Hfull.
  { rewrite (extracted_photos article t Hex).
    apply extract_photos_distinct. }
  split.
  - unfold get_image_paths. rewrite Hlocal, Hurls.
    cbn [cell_truthy cell_not_empty cell_split].
    assert ((if str_nonempty local && str_nonempty local
             then let? paths := Ok (str_split "; " local) in
                  Ok (List.filter (path_exists env) paths)
             else Ok []) = Ok (@nil string)) as ->.
    { destruct (str_nonempty local); cbn; [now rewrite Hnone|reflexivity]. }
    cbn [res_bind].
    destruct (photos t) as [|p ps] eqn:Hp; [congruence|].
    inversion Hfull as [|? ? Hp1 _]; subst.
    rewrite (str_join_nonempty "; " p ps Hp1). cbn [andb res_bind].
    rewrite split_join; [reflexivity|discriminate|exact Hsemi].
  - destruct (fetch_all_spec env (row_Tweet_ID tweet_row) (photos t) 0 [])
      as (new & Hn & Hlen & Hall).
    rewrite Hn. cbn [app]. split; [exact Hlen|exact Hall].
Qed.

Lemma exported_urls_are_downloaded_witness :
  get_image_paths first_only (sample_table_row (Text "missing.jpg"))
  = Ok (fetch_all first_only "1790" 0 (photos scraped_tweet) []).
Proof.
  apply (exported_urls_are_downloaded first_only two_photo_article scraped_tweet
           (sample_table_row (Text "missing.jpg")) "missing.jpg").
  - vm_compute. reflexivity.
  - discriminate.
  - repeat constructor.
  - reflexivity.
  - reflexivity.
  - reflexivity.
Defined.

(** X16.  Local images come first: when the row names local images of
    which at least one exists, [get_image_paths] returns exactly the
    existing ones, in the order in which the row lists them, and the
    network plays no part. *)
Theorem local_images_first (env : image_env) (tweet_row : table_row)
  (local : string) :
  row_Local_Images tweet_row = Text local ->
  str_nonempty local = true ->
  List.filter (path_exists env) (str_split "; " local) <> [] ->
  get_image_paths env tweet_row
  = Ok (List.filter (path_exists env) (str_split "; " local))
  /\ forall fetched : string -> string -> bool,
       get_image_paths {| path_exists := path_exists env;
                          image_fetched := fetched |} tweet_row
       = get_image_paths env tweet_row.
Proof.
  intros Hlocal Hne Hsome.
  assert (forall e : image_env,
             path_exists e = path_exists env ->
             get_image_paths e tweet_row
             = Ok (List.filter (path_exists env) (str_split "; " local))) as H.
  { intros e He. unfold get_image_paths. rewrite Hlocal.
    cbn [cell_truthy cell_not_empty cell_split]. rewrite Hne, He.
    cbn [andb res_bind].
    destruct (List.filter (path_exists env) (str_split "; " local));
      [congruence|reflexivity]. }
  split; [now apply H|].
  intros fetched. rewrite (H env eq_refl). now apply H.
Qed.

Lemma local_images_first_witness :
  get_image_paths offline (sample_table_row (Text "gone.jpg; a.jpg"))
  = Ok (List.filter (path_exists offline) (str_split "; " "gone.jpg; a.jpg")).
Proof.
  apply (local_images_first offline (sample_table_row (Text "gone.jpg; a.jpg"))
           "gone.jpg; a.jpg").
  - reflexivity.
  - reflexivity.
  - vm_compute. discriminate.
Defined.

(** X17.  A row whose [Local_Images] field is empty in the merged file
    reads as NaN, which is true and differs from the empty string, so
    [get_image_paths] calls [split] on it: it raises [AttributeError],
    and so does [process_tweet], whatever image locators the row
    carries. *)
Theorem missing_local_images_raise (env : image_env)
  (analyze : string -> bool * string) (tweet_row : table_row) :
  row_Local_Images tweet_row = NaN ->
  exists e,
    get_image_paths env tweet_row = Raise e
    /\ process_tweet env analyze tweet_row = Raise e
    /\ exn_cls e = AttributeError.
Proof.
  intros H. unfold process_tweet, get_image_paths. rewrite H. cbn.
  eexists. repeat split.
Qed.

Lemma missing_local_images_raise_witness :
  exists e,
    get_image_paths first_only (sample_table_row NaN) = Raise e
    /\ process_tweet first_only (analyze_image sample_faces) (sample_table_row NaN)
       = Raise e
    /\ exn_cls e = AttributeError.
Proof.
  apply (missing_local_images_raise first_only (analyze_image sample_faces)
           (sample_table_row NaN)).
  reflexivity.
Defined.

(** * The verdict of [process_tweet] *)

Lemma analyze_all_spec (analyze : string -> bool * string)
  (image_paths : list string) :
  forall (h : bool) (g : list string),
    analyze_all analyze image_paths h g
    = (h || existsb (fun p => fst (analyze p)) image_paths,
       g ++ map (fun p => snd (analyze p))
              (List.filter (fun p => fst (analyze p)) image_paths)).
Proof.
  induction image_paths as [|p rest IH]; intros h g; cbn [analyze_all].
  - cbn. now rewrite orb_false_r, app_nil_r.
  - cbn [existsb List.filter]. cbn beta.
    destruct (analyze p) as [human gender] eqn:E. cbn [fst snd].
    destruct human; rewrite IH.
    + cbn [map]. cbn beta. rewrite E. cbn [snd].
      rewrite <- app_assoc. cbn [app]. now rewrite orb_true_r.
    + reflexivity.
Qed.

Lemma str_mem_perm (x : string) (l l' : list string) :
  Permutation l l' -> str_mem x l = str_mem x l'.
Proof.
  intros H.
  destruct (str_mem x l) eqn:E, (str_mem x l') eqn:E'; try reflexivity.
  - apply str_mem_In in E. rewrite <- E'. symmetry. apply str_mem_In.
    rewrite <- (list_elem_of_In l' x). rewrite <- H.
    now apply list_elem_of_In.
  - apply str_mem_In in E'. rewrite <- E. apply str_mem_In.
    rewrite <- (list_elem_of_In l x). rewrite H.
    now apply list_elem_of_In.
Qed.

Lemma list_filter_perm {A} (f : A -> bool) (l l' : list A) :
  Permutation l l' -> Permutation (List.filter f l) (List.filter f l').
Proof.
  induction 1 as [|x l l' _ IH|x y l|l l' l'' _ IH1 _ IH2]; cbn [List.filter].
  - constructor.
  - destruct (f x); [now constructor|exact IH].
  - destruct (f x), (f y); try reflexivity. apply perm_swap.
  - now transitivity (List.filter f l').
Qed.

Lemma overall_gender_perm (l l' : list string) :
  Permutation l l' -> overall_gender l = overall_gender l'.
Proof.
  intros H. unfold overall_gender.
  now rewrite !(str_mem_perm _ l l' H).
Qed.

(** X18.  The answers of [process_tweet] do not depend on the order of
    the images: for image lists that are permutations of each other it
    reports the same human presence and the same gender. *)
Theorem verdict_order_independent (analyze : string -> bool * string)
  (image_paths image_paths' : list string) :
  Permutation image_paths image_paths' ->
  verdict analyze image_paths = verdict analyze image_paths'.
Proof.
  intros H. unfold verdict.
  rewrite (Permutation_length H).
  destruct (0 <? length image_paths')%nat; [|reflexivity].
  rewrite !analyze_all_spec. cbn [orb app].
  assert (existsb (fun p => fst (analyze p)) image_paths
          = existsb (fun p => fst (analyze p)) image_paths') as ->.
  { destruct (existsb (fun p => fst (analyze p)) image_paths) eqn:E,
             (existsb (fun p => fst (analyze p)) image_paths') eqn:E';
      try reflexivity.
    - apply existsb_exists in E as (x & Hx & Hfx).
      rewrite <- E'. symmetry. apply existsb_exists. exists x.
      split; [|exact Hfx].
      apply list_elem_of_In. rewrite <- H. now apply list_elem_of_In.
    - apply existsb_exists in E' as (x & Hx & Hfx).
      rewrite <- E. apply existsb_exists. exists x.
      split; [|exact Hfx].
      apply list_elem_of_In. rewrite H. now apply list_elem_of_In. }
  f_equal. apply overall_gender_perm.
  apply Permutation_map. now apply list_filter_perm.
Qed.

Lemma verdict_order_independent_witness :
  verdict (analyze_image sample_faces) ["a.jpg"; "b.jpg"]
  = verdict (analyze_image sample_faces) ["b.jpg"; "a.jpg"].
Proof.
  apply (verdict_order_independent (analyze_image sample_faces)
           ["a.jpg"; "b.jpg"] ["b.jpg"; "a.jpg"]).
  apply perm_swap.
Defined.

Lemma analyze_image_cases (detect : string -> res (option (list face)))
  (image_path : string) :
  (analyze_image detect image_path = (false, "unknown")
   /\ ~ exists f faces, detect image_path = Ok (Some (f :: faces)))
  \/ (exists g f faces,
        analyze_image detect image_path = (true, g)
        /\ (g = "male" \/ g = "female" \/ g = "both")
        /\ detect image_path = Ok (Some (f :: faces))).
Proof.
  unfold analyze_image.
  destruct (detect image_path) as [[faces|]|e] eqn:E.
  - destruct faces as [|[[[x y] w] h] rest].
    + left. split; [reflexivity|]. intros (f & fs & H). discriminate.
    + right. destruct rest as [|f2 rest].
      * destruct (h <? w)%Z; eauto 10.
      * eauto 10.
  - left. split; [reflexivity|]. intros (f & fs & H). discriminate.
  - left. split; [reflexivity|]. intros (f & fs & H). discriminate.
Qed.

Lemma overall_gender_known (g : string) (genders : list string) :
  g = "male" \/ g = "female" \/ g = "both" ->
  In g genders -> overall_gender genders <> "unknown".
Proof.
  intros Hg Hin. apply str_mem_In in Hin. unfold overall_gender.
  destruct (str_mem "both" genders) eqn:Hb; [discriminate|].
  destruct (str_mem "male" genders) eqn:Hm;
    destruct (str_mem "female" genders) eqn:Hf; cbn; try discriminate.
  destruct Hg as [->|[->| ->]]; congruence.
Qed.

(** X19.  With the face detector of [analyze_tweet_images.py], a tweet
    is reported with a human present exactly when a gender other than
    "unknown" is reported for it, and exactly when the detector finds
    at least one face in one of its images. *)
Theorem face_verdict (detect : string -> res (option (list face)))
  (image_paths : list string) :
  let present := fst (verdict (analyze_image detect) image_paths) in
  let gender := snd (verdict (analyze_image detect) image_paths) in
  (present = "yes" \/ present = "no")
  /\ (present = "yes" <-> gender <> "unknown")
  /\ (present = "yes" <->
      exists p f faces, In p image_paths /\ detect p = Ok (Some (f :: faces))).
Proof.
  cbv zeta. unfold verdict.
  destruct (0 <? length image_paths)%nat eqn:Hlen.
  - rewrite analyze_all_spec. cbn [orb app fst snd].
    destruct (existsb (fun p => fst (analyze_image detect p)) image_paths) eqn:E.
    + apply existsb_exists in E as (p & Hp & Hfp).
      destruct (analyze_image_cases detect p) as [[H0 _]|(g & f & fs & Hg & Hk & Hd)];
        [rewrite H0 in Hfp; discriminate|].
      split; [now left|]. split.
      * split; [intros _|reflexivity].
        apply (overall_gender_known g); [exact Hk|].
        apply in_map_iff. exists p. rewrite Hg. split; [reflexivity|].
        apply filter_In. split; [exact Hp|]. now rewrite Hg.
      * split; [intros _; eauto 10|reflexivity].
    + split; [now right|].
      assert (List.filter (fun p => fst (analyze_image detect p)) image_paths = [])
        as ->.
      { clear Hlen. induction image_paths as [|q rest IH]; [reflexivity|].
        cbn [existsb] in E. apply orb_false_iff in E as [Hq Hrest].
        cbn [List.filter]. rewrite Hq. now apply IH. }
      cbn [map]. split.
      * split; [discriminate|]. intros H. now destruct H.
      * split; [discriminate|].
        intros (p & f & fs & Hp & Hd). exfalso.
        assert (fst (analyze_image detect p) = false) as Hfalse.
        { destruct (fst (analyze_image detect p)) eqn:Ef; [|reflexivity].
          rewrite <- E. symmetry. apply existsb_exists. eauto. }
        destruct (analyze_image_cases detect p)
          as [[_ Hno]|(g & f' & fs' & Hg & _)].
        -- apply Hno. eauto.
        -- rewrite Hg in Hfalse. discriminate.
  - cbn [fst snd]. split; [now right|]. split.
    + split; [discriminate|]. intros H. now destruct H.
    + split; [discriminate|].
      intros (p & f & fs & Hp & Hd).
      destruct image_paths; [destruct Hp|discriminate].
Qed.

Lemma face_verdict_witness :
  snd (verdict (analyze_image sample_faces) ["a.jpg"]) <> "unknown".
Proof.
  apply (proj1 (proj1 (proj2 (face_verdict sample_faces ["a.jpg"])))).
  vm_compute. reflexivity.
Defined.

(** * The person detector of [analyze_tweets_new_model.py] *)

Lemma boxes_loop_spec (boxes : list box) :
  forall (h : bool) (g : list string),
    boxes_loop boxes h g
    = (h || existsb (fun b => (box_class b =? 0)%Z) boxes,
       g ++ map box_label (List.filter (fun b => (box_class b =? 0)%Z) boxes)).
Proof.
  induction boxes as [|b rest IH]; intros h g; cbn [boxes_loop].
  - cbn. now rewrite orb_false_r, app_nil_r.
  - cbn [existsb List.filter]. cbn beta.
    destruct (box_class b =? 0)%Z; rewrite IH.
    + cbn [map]. rewrite <- app_assoc. cbn [app]. now rewrite orb_true_r.
    + reflexivity.
Qed.

Lemma results_loop_spec (results : list (list box)) :
  forall (h : bool) (g : list string),
    results_loop results h g
    = (h || existsb (fun b => (box_class b =? 0)%Z) (concat results),
       g ++ map box_label
              (List.filter (fun b => (box_class b =? 0)%Z) (concat results))).
Proof.
  induction results as [|boxes rest IH]; intros h g; cbn [results_loop concat].
  - cbn. now rewrite orb_false_r, app_nil_r.
  - rewrite boxes_loop_spec, IH.
    rewrite existsb_app, List.filter_app, map_app, orb_assoc, app_assoc.
    reflexivity.
Qed.

Lemma str_mem_reflect (x : string) (l : list string) :
  reflect (In x l) (str_mem x l).
Proof.
  destruct (str_mem x l) eqn:E; constructor.
  - now apply str_mem_In.
  - intros H. apply str_mem_In in H. congruence.
Qed.

(** X20.  With the person detector of [analyze_tweets_new_model.py],
    an image is reported with a human exactly when some detected box
    has class 0.  The gender then depends on the labels of the class-0
    boxes only: "both" when male and female labels occur, "male" or
    "female" when one of them occurs, and "unknown", with the human
    still reported, when no class-0 box could be labelled. *)
Theorem person_verdict (detect : string -> res (option (list (list box))))
  (image_path : string) :
  let human := fst (analyze_image_yolo detect image_path) in
  let gender := snd (analyze_image_yolo detect image_path) in
  (human = true <->
   exists results,
     detect image_path = Ok (Some results)
     /\ existsb (fun b => (box_class b =? 0)%Z) (concat results) = true)
  /\ (forall results,
        detect image_path = Ok (Some results) -> human = true ->
        let labels :=
          map box_label
              (List.filter (fun b => (box_class b =? 0)%Z) (concat results)) in
        (gender = "both" <-> In "male" labels /\ In "female" labels)
        /\ (gender = "male" <-> In "male" labels /\ ~ In "female" labels)
        /\ (gender = "female" <-> ~ In "male" labels /\ In "female" labels)
        /\ (gender = "unknown" <-> ~ In "male" labels /\ ~ In "female" labels))
  /\ (human = false -> gender = "unknown").
Proof.
  cbv zeta. unfold analyze_image_yolo.
  destruct (detect image_path) as [[results|]|e] eqn:E.
  - rewrite results_loop_spec. cbn [orb app].
    destruct (existsb (fun b => (box_class b =? 0)%Z) (concat results)) eqn:Hp.
    + cbn [negb].
      destruct (str_mem_reflect "male"
                  (map box_label
                     (List.filter (fun b => (box_class b =? 0)%Z)
                                  (concat results)))) as [Hm|Hm];
        destruct (str_mem_reflect "female"
                    (map box_label
                       (List.filter (fun b => (box_class b =? 0)%Z)
                                    (concat results)))) as [Hf|Hf];
        cbn [andb fst snd];
        (split; [split; [eauto|reflexivity]|]);
        (split; [|discriminate]);
        intros results' Hr _; injection Hr as <-;
        repeat split; try discriminate; try tauto; intros [? ?]; tauto.
    + cbn [negb fst snd].
      split; [split; [discriminate|]|].
      * intros (r & Hr & Hx). injection Hr as <-. congruence.
      * split; [discriminate|reflexivity].
  - cbn [fst snd]. split; [split; [discriminate|]|].
    + intros (r & Hr & _). discriminate.
    + split; [discriminate|reflexivity].
  - cbn [fst snd]. split; [split; [discriminate|]|].
    + intros (r & Hr & _). discriminate.
    + split; [discriminate|reflexivity].
Qed.

Lemma person_verdict_witness :
  snd (analyze_image_yolo sample_people "a.jpg") = "female".
Proof.
  destruct (person_verdict sample_people "a.jpg") as (_ & H & _).
  destruct (H _ eq_refl eq_refl) as (_ & _ & Hf & _).
  apply Hf. vm_compute. split; [intros [E|[]]; discriminate|now left].
Defined.

(** ** The merge *)

Lemma ltb_leb (a b : string) :
  String.ltb a b = true -> String.leb a b = true.
Proof.
  unfold String.ltb, String.leb. destruct (String.compare a b); congruence.
Qed.

Lemma ltb_false_leb (a b : string) :
  String.ltb a b = false -> String.leb b a = true.
Proof.
  unfold String.ltb, String.leb. rewrite (String.compare_antisym a b).
  destruct (String.compare b a); cbn; congruence.
Qed.

Lemma leb_trans (a b c : string) :
  String.leb a b = true -> String.leb b c = true -> String.leb a c = true.
Proof.
  intros Hab Hbc. apply Is_true_true.
  apply (@transitivity _ String.le _ a b c); apply Is_true_true; assumption.
Qed.

Lemma ltb_irrefl (a : string) : String.ltb a a = false.
Proof.
  unfold String.ltb.
  assert (String.compare a a = Eq) as ->; [|reflexivity].
  induction a as [|c a IH]; [reflexivity|].
  cbn [String.compare]. unfold Ascii.compare. now rewrite N.compare_refl.
Qed.

Lemma insert_newest_perm (t : gmap string (option string))
  (l : list (gmap string (option string))) :
  Permutation (insert_newest t l) (t :: l).
Proof.
  induction l as [|y ys IH]; cbn [insert_newest]; [reflexivity|].
  destruct (String.ltb (date_text t) (date_text y)); [|reflexivity].
  rewrite IH. apply perm_swap.
Qed.

Lemma stable_descending_perm (l : list (gmap string (option string))) :
  Permutation (stable_descending l) l.
Proof.
  induction l as [|t l IH]; [reflexivity|].
  unfold stable_descending; cbn [fold_right]; fold (stable_descending l).
  rewrite insert_newest_perm. now constructor.
Qed.

Lemma insert_newest_sorted (t : gmap string (option string))
  (l : list (gmap string (option string))) :
  newest_first l -> newest_first (insert_newest t l).
Proof.
  induction l as [|y ys IH]; intros Hs; cbn [insert_newest].
  - split; constructor.
  - destruct Hs as [Hy Hys].
    destruct (String.ltb (date_text t) (date_text y)) eqn:E.
    + split; [|now apply IH].
      apply List.Forall_forall. intros u Hu.
      apply (Permutation_in _ (insert_newest_perm t ys)) in Hu.
      destruct Hu as [<-|Hu]; [now apply ltb_leb|].
      rewrite List.Forall_forall in Hy. now apply Hy.
    + apply ltb_false_leb in E. split; [|split; assumption].
      constructor; [exact E|].
      eapply List.Forall_impl; [|exact Hy].
      intros u Hu. cbn beta in Hu. now apply (leb_trans _ _ _ Hu).
Qed.

Lemma stable_descending_sorted (l : list (gmap string (option string))) :
  newest_first (stable_descending l).
Proof.
  induction l as [|t l IH]; [exact I|].
  now apply insert_newest_sorted.
Qed.

Lemma insert_newest_dated (d : string) (t : gmap string (option string))
  (l : list (gmap string (option string))) :
  dated d (insert_newest t l) = dated d (t :: l).
Proof.
  unfold dated.
  induction l as [|y ys IH]; cbn [insert_newest]; [reflexivity|].
  destruct (String.ltb (date_text t) (date_text y)) eqn:E; [|reflexivity].
  cbn [List.filter] in *. rewrite IH.
  destruct (String.eqb (date_text t) d) eqn:Et; [|reflexivity].
  destruct (String.eqb (date_text y) d) eqn:Ey; [|reflexivity].
  apply String.eqb_eq in Et, Ey. rewrite Et, Ey, ltb_irrefl in E. discriminate.
Qed.

Lemma stable_descending_dated (d : string) (l : list (gmap string (option string))) :
  dated d (stable_descending l) = dated d l.
Proof.
  induction l as [|t l IH]; [reflexivity|].
  unfold stable_descending; cbn [fold_right]; fold (stable_descending l).
  rewrite insert_newest_dated.
  unfold dated in *. cbn [List.filter]. fold (stable_descending l).
  now rewrite IH.
Qed.

Lemma date_text_renumbered (i : option string) (t : gmap string (option string)) :
  date_text (<["S.No" := i]> t) = date_text t.
Proof.
  unfold date_text, date_key, row_get.
  now rewrite lookup_insert_ne by discriminate.
Qed.

Lemma date_text_unnumbered (t : gmap string (option string)) :
  date_text (unnumbered t) = date_text t.
Proof.
  unfold date_text, date_key, row_get, unnumbered.
  now rewrite lookup_delete_ne by discriminate.
Qed.

Lemma renumber_length (l : list (gmap string (option string))) :
  forall i, length (renumber i l) = length l.
Proof. induction l as [|t l IH]; intros i; cbn; [reflexivity|]. now rewrite IH. Qed.

Lemma renumber_date_texts (l : list (gmap string (option string))) :
  forall i, map date_text (renumber i l) = map date_text l.
Proof.
  induction l as [|t l IH]; intros i; cbn [renumber map]; [reflexivity|].
  now rewrite date_text_renumbered, IH.
Qed.

Lemma renumber_unnumbered (l : list (gmap string (option string))) :
  forall i, map unnumbered (renumber i l) = map unnumbered l.
Proof.
  induction l as [|t l IH]; intros i; cbn [renumber map]; [reflexivity|].
  rewrite IH. f_equal. unfold unnumbered. apply delete_insert_eq.
Qed.

Lemma renumber_serials (l : list (gmap string (option string))) :
  forall i,
    map (fun r => r !! "S.No") (renumber i l)
    = map (fun k => Some (Some (numeral k))) (seq i (length l)).
Proof.
  induction l as [|t l IH]; intros i; cbn [renumber map seq length];
    [reflexivity|].
  now rewrite lookup_insert_eq, IH.
Qed.

Lemma newest_first_keys (l l' : list (gmap string (option string))) :
  map date_text l = map date_text l' -> newest_first l -> newest_first l'.
Proof.
  revert l'. induction l as [|t l IH]; intros [|t' l'] Hk Hs;
    try discriminate; [exact I|].
  cbn [map] in Hk. injection Hk as Ht Hl. destruct Hs as [Hall Hs].
  split; [|now apply IH].
  rewrite <- Ht. clear IH Hs.
  revert l' Hl. induction Hall as [|u l Hu Hall IH]; intros [|u' l'] Hl;
    try discriminate; constructor.
  - cbn [map] in Hl. injection Hl as Hu' _. now rewrite <- Hu'.
  - cbn [map] in Hl. injection Hl as _ Hl. now apply IH.
Qed.

Lemma dated_unnumbered (d : string) (l : list (gmap string (option string))) :
  dated d (map unnumbered l) = map unnumbered (dated d l).
Proof.
  unfold dated. induction l as [|t l IH]; [reflexivity|].
  cbn [map List.filter]. rewrite date_text_unnumbered, IH.
  now destruct (String.eqb (date_text t) d).
Qed.

Lemma sortable_comparable (l : list (gmap string (option string))) :
  sortable l = true <-> dates_comparable l.
Proof.
  unfold sortable, dates_comparable. rewrite orb_true_iff, Nat.ltb_lt.
  rewrite forallb_forall, List.Forall_forall.
  assert (forall t : gmap string (option string),
             has_date t = true <-> exists d, date_key t = Some d) as Hd.
  { intros t. unfold has_date. destruct (date_key t) as [d|]; split;
      intros H; eauto; try discriminate. now destruct H. }
  split; (intros [H|H]; [now left|right]); intros t Ht; apply Hd, H, Ht.
Qed.

(** The merge returns rows exactly when a file is left to merge, every
    name lookup returns, the dates can be compared and the output can
    be written; the rows are then the collected tweets, sorted and
    numbered. *)
Lemma merge_csv_files_returns (summary_files : summary_store)
  (found : list tweet_file) (output : res unit)
  (rows : list (gmap string (option string))) :
  merge_csv_files summary_files found output = Returns (Some rows)
  <-> exists all_tweets,
        List.filter not_summary found <> []
        /\ collect_tweets summary_files (List.filter not_summary found) []
           = Returns all_tweets
        /\ dates_comparable all_tweets
        /\ output = Ok tt
        /\ rows = renumber 1 (stable_descending all_tweets).
Proof.
  unfold merge_csv_files, sort_newest_first. split.
  - intros H.
    destruct (List.filter not_summary found) as [|f fs] eqn:Ef; [discriminate|].
    destruct (collect_tweets summary_files (f :: fs) []) as [all_tweets|]
      eqn:Ec; [|discriminate].
    destruct (sortable all_tweets) eqn:Es; [|discriminate].
    destruct output as [[]|e]; [|discriminate].
    injection H as <-. exists all_tweets.
    split; [discriminate|]. split; [reflexivity|].
    split; [now apply sortable_comparable|]. now split.
  - intros (all_tweets & Hne & Hc & Hs & -> & ->).
    destruct (List.filter not_summary found) as [|f fs]; [now destruct Hne|].
    rewrite Hc. apply sortable_comparable in Hs. now rewrite Hs.
Qed.

(** X21.  What the merge writes: the collected tweets in descending
    order of their [Date] text, tweets of the same date in the order in
    which they were collected, each numbered by its position from 1;
    apart from the serial number no row is changed, lost or added.
    Rows are written only when the dates of the collected tweets can be
    compared: there are fewer than two of them, or every [Date] is a
    text. *)
Theorem merged_rows_newest_first (summary_files : summary_store)
  (found : list tweet_file) (output : res unit)
  (rows : list (gmap string (option string))) :
  merge_csv_files summary_files found output = Returns (Some rows) ->
  exists all_tweets,
    collect_tweets summary_files (List.filter not_summary found) []
    = Returns all_tweets
    /\ dates_comparable all_tweets
    /\ newest_first rows
    /\ map (fun r => r !! "S.No") rows
       = map (fun k => Some (Some (numeral k))) (seq 1 (length all_tweets))
    /\ Permutation (map unnumbered rows) (map unnumbered all_tweets)
    /\ forall d, dated d (map unnumbered rows)
                 = dated d (map unnumbered all_tweets).
Proof.
  intros H. apply merge_csv_files_returns in H
    as (all_tweets & _ & Hc & Hs & _ & ->).
  exists all_tweets.
  split; [exact Hc|]. split; [exact Hs|]. split.
  { apply (newest_first_keys (stable_descending all_tweets));
      [now rewrite renumber_date_texts|apply stable_descending_sorted]. }
  split.
  { rewrite renumber_serials. f_equal. f_equal.
    apply Permutation_length, stable_descending_perm. }
  split.
  { rewrite renumber_unnumbered. apply Permutation_map, stable_descending_perm. }
  intros d. rewrite renumber_unnumbered, !dated_unnumbered.
  now rewrite stable_descending_dated.
Qed.

Lemma merged_rows_newest_first_witness :
  exists all_tweets,
    collect_tweets sample_summaries
      (List.filter not_summary [tcs_file; summary_file_found; infosys_file]) []
    = Returns all_tweets
    /\ dates_comparable all_tweets
    /\ newest_first merged_sample
    /\ map (fun r => r !! "S.No") merged_sample
       = map (fun k => Some (Some (numeral k))) (seq 1 (length all_tweets))
    /\ Permutation (map unnumbered merged_sample) (map unnumbered all_tweets)
    /\ forall d, dated d (map unnumbered merged_sample)
                 = dated d (map unnumbered all_tweets).
Proof.
  apply (merged_rows_newest_first sample_summaries
           [tcs_file; summary_file_found; infosys_file] (Ok tt) merged_sample).
  reflexivity.
Defined.

Lemma standard_tweet_dom (company_name company_handle : string)
  (row : gmap string (option string)) :
  dom (standard_tweet company_name company_handle row)
  =@{gset string} list_to_set merged_fieldnames.
Proof.
  unfold standard_tweet, merged_fieldnames.
  rewrite !dom_insert_L, dom_empty_L. cbn [list_to_set]. set_solver.
Qed.

Lemma renumber_in (l : list (gmap string (option string))) :
  forall i r,
    In r (renumber i l) ->
    exists t k, In t l /\ r = <["S.No" := Some (numeral k)]> t.
Proof.
  induction l as [|t l IH]; intros i r Hr; [destruct Hr|].
  destruct Hr as [<-|Hr].
  - exists t, i. split; [now left|reflexivity].
  - destruct (IH _ _ Hr) as (t' & k & Hin & ->).
    exists t', k. split; [now right|reflexivity].
Qed.

Lemma collect_tweets_origin (summary_files : summary_store)
  (csv_files : list tweet_file) :
  forall acc all_tweets,
    collect_tweets summary_files csv_files acc = Returns all_tweets ->
    exists new,
      all_tweets = acc ++ new
      /\ Forall (fun t => exists f, In f csv_files
                                    /\ merged_from summary_files f t) new.
Proof.
  induction csv_files as [|f rest IH]; intros acc all_tweets H.
  - cbn [collect_tweets] in H. injection H as <-. exists [].
    split; [now rewrite app_nil_r|constructor].
  - cbn [collect_tweets] in H.
    destruct (get_company_name summary_files (handle_of_path (file_path f)))
      as [company_name|] eqn:En; [|discriminate].
    assert (forall new,
              Forall (fun t => exists f', In f' rest
                                          /\ merged_from summary_files f' t) new ->
              Forall (fun t => exists f', In f' (f :: rest)
                                          /\ merged_from summary_files f' t) new)
      as Hweaken.
    { intros new. apply List.Forall_impl. intros t (f' & Hin & Hm).
      exists f'. split; [now right|exact Hm]. }
    destruct (file_read f) as [[fieldnames rows]|e] eqn:Er.
    + destruct (is_tweet_file fieldnames) eqn:Et.
      * destruct (IH _ _ H) as (new & -> & Hnew).
        exists (map (standard_tweet company_name
                       (handle_of_path (file_path f))) rows ++ new).
        split; [now rewrite app_assoc|].
        apply Forall_app. split; [|now apply Hweaken].
        apply List.Forall_forall. intros t Ht.
        apply in_map_iff in Ht as (row & <- & Hrow).
        exists f. split; [now left|].
        exists company_name, fieldnames, rows, row. now repeat split.
      * destruct (IH _ _ H) as (new & -> & Hnew).
        exists new. split; [reflexivity|now apply Hweaken].
    + destruct (IH _ _ H) as (new & -> & Hnew).
      exists new. split; [reflexivity|now apply Hweaken].
Qed.

(** X22.  Where the written rows come from: every row of the merged
    file has exactly the eleven output columns and is, apart from its
    serial number, the standard form of a row of a file that passed the
    summary filter, could be read and has a tweet-id column, with the
    handle taken from that file's name and the company name looked up
    for that handle. *)
Theorem merged_rows_origin (summary_files : summary_store)
  (found : list tweet_file) (output : res unit)
  (rows : list (gmap string (option string))) :
  merge_csv_files summary_files found output = Returns (Some rows) ->
  Forall (fun r =>
            dom r =@{gset string} list_to_set merged_fieldnames
            /\ exists f t k,
                 In f found /\ not_summary f = true
                 /\ merged_from summary_files f t
                 /\ r = <["S.No" := Some (numeral k)]> t) rows.
Proof.
  intros H. apply merge_csv_files_returns in H
    as (all_tweets & _ & Ec & _ & _ & ->).
  destruct (collect_tweets_origin _ _ _ _ Ec) as (new & -> & Hnew).
  cbn [app] in *. clear Ec.
  apply List.Forall_forall. intros r Hr.
  destruct (renumber_in _ _ _ Hr) as (t & k & Ht & ->).
  apply (Permutation_in _ (stable_descending_perm new)) in Ht.
  rewrite List.Forall_forall in Hnew.
  destruct (Hnew _ Ht) as (f & Hf & Hm).
  apply filter_In in Hf as [Hf Hns].
  split.
  - destruct Hm as (company_name & fieldnames & rows & row & _ & _ & _ & _ & ->).
    rewrite dom_insert_L, standard_tweet_dom.
    unfold merged_fieldnames. cbn [list_to_set]. set_solver.
  - exists f, t, k. now repeat split.
Qed.

Lemma merged_rows_origin_witness :
  Forall (fun r =>
            dom r =@{gset string} list_to_set merged_fieldnames
            /\ exists f t k,
                 In f [tcs_file; summary_file_found; infosys_file]
                 /\ not_summary f = true
                 /\ merged_from sample_summaries f t
                 /\ r = <["S.No" := Some (numeral k)]> t) merged_sample.
Proof.
  apply (merged_rows_origin sample_summaries
           [tcs_file; summary_file_found; infosys_file] (Ok tt) merged_sample).
  reflexivity.
Defined.

(** X23.  A header with the column "Tweet ID" lets a file pass the
    tweet-file test, but that column is never read: a row without
    "Tweet_ID" and "tweet_id" is merged with an empty identifier. *)
Theorem spaced_id_column_not_read (fieldnames : list string)
  (row : gmap string (option string)) (company_name company_handle : string) :
  In "Tweet ID" fieldnames ->
  row !! "Tweet_ID" = None ->
  row !! "tweet_id" = None ->
  is_tweet_file (Some fieldnames) = true
  /\ standard_tweet company_name company_handle row !! "Tweet_ID"
     = Some (Some "").
Proof.
  intros Hin Hn1 Hn2. split.
  - unfold is_tweet_file. destruct fieldnames as [|x xs]; [destruct Hin|].
    cbn [existsb].
    destruct (str_mem_reflect "Tweet ID" (x :: xs)) as [_|Hno];
      [now rewrite !orb_true_r|now destruct Hno].
  - unfold standard_tweet.
    rewrite !lookup_insert_ne by discriminate. rewrite lookup_insert_eq.
    unfold row_get. now rewrite Hn1, Hn2.
Qed.

Lemma spaced_id_column_not_read_witness :
  is_tweet_file (Some ["Tweet ID"; "Date"]) = true
  /\ standard_tweet "Infosys Ltd" "Infosys"
       (list_to_map [("Tweet ID", Some "21"); ("Date", Some "2025-05-03")])
       !! "Tweet_ID"
     = Some (Some "").
Proof.
  apply (spaced_id_column_not_read ["Tweet ID"; "Date"]
           (list_to_map [("Tweet ID", Some "21"); ("Date", Some "2025-05-03")])
           "Infosys Ltd" "Infosys").
  - simpl. tauto.
  - reflexivity.
  - reflexivity.
Defined.

Lemma length_append (a b : string) :
  String.length (a ++ b)%string = (String.length a + String.length b)%nat.
Proof.
  induction a as [|c a IH]; [reflexivity|].
  rewrite append_cons. cbn [String.length]. now rewrite IH.
Qed.

Lemma prefix_app_short (a : string) :
  forall b c : string,
    (String.length a <= String.length b)%nat ->
    String.prefix a (b ++ c)%string = String.prefix a b.
Proof.
  induction a as [|x a IH]; intros b c Hl.
  - destruct b as [|y b];
      [change ("" ++ c)%string with c; destruct c; reflexivity
      |rewrite append_cons; reflexivity].
  - destruct b as [|y b]; [cbn in Hl; lia|].
    rewrite append_cons. cbn [String.prefix].
    destruct (ascii_dec x y); [|reflexivity].
    apply IH. cbn [String.length] in Hl. lia.
Qed.

Lemma prefix_app_refl (a b : string) : String.prefix a (a ++ b)%string = true.
Proof.
  induction a as [|x a IH];
    [change ("" ++ b)%string with b; destruct b; reflexivity|].
  rewrite append_cons. cbn [String.prefix].
  now destruct (ascii_dec x x).
Qed.

Lemma split_from_head (sep h : string) :
  forall cur rest : string,
    str_nonempty sep = true ->
    clear_before sep h = true ->
    hd "" (split_from sep 0 cur (h ++ sep ++ rest)%string) = (cur ++ h)%string.
Proof.
  induction h as [|c h IH]; intros cur rest Hsep Hclear.
  - rewrite append_nil_r. change ("" ++ sep ++ rest)%string with (sep ++ rest)%string.
    destruct sep as [|x sep]; [discriminate|].
    rewrite append_cons. cbn [split_from].
    rewrite <- append_cons, prefix_app_refl. reflexivity.
  - cbn [clear_before] in Hclear. apply andb_true_iff in Hclear as [Hhere Hlater].
    apply negb_true_iff in Hhere.
    assert (String.prefix sep (String c (h ++ sep ++ rest)%string) = false) as Hp.
    { rewrite <- append_cons, <- append_assoc.
      rewrite prefix_app_short; [exact Hhere|].
      rewrite length_append. lia. }
    rewrite append_cons. cbn [split_from]. rewrite Hp.
    rewrite (IH _ _ Hsep Hlater). now rewrite append_assoc.
Qed.

Lemma basename_from_plain (p : string) :
  forall cur : string,
    char_in "/" p = false -> basename_from cur p = (cur ++ p)%string.
Proof.
  induction p as [|c p IH]; intros cur H.
  - now rewrite append_nil_r.
  - cbn [char_in] in H. apply orb_false_iff in H as [Hc Hp].
    cbn [basename_from]. rewrite Ascii.eqb_sym, Hc, (IH _ Hp).
    now rewrite append_assoc.
Qed.

Lemma path_join_base (b : string) :
  String.prefix "/" b = false ->
  path_join BASE_DIR b = ("company_tweets/" ++ b)%string.
Proof. intros H. unfold path_join. now rewrite H. Qed.

Lemma prefix_slash (h rest : string) :
  char_in "/" h = false ->
  String.prefix "/" rest = false ->
  String.prefix "/" (h ++ rest)%string = false.
Proof.
  intros Hh Hr. destruct h as [|c h]; [exact Hr|].
  rewrite append_cons. cbn [char_in] in Hh.
  apply orb_false_iff in Hh as [Hc _]. cbn [String.prefix].
  destruct (ascii_dec "/" c) as [<-|_]; [|reflexivity].
  now rewrite Ascii.eqb_refl in Hc.
Qed.

(** X24.  The merge recovers the handle from the name of an export
    written by the scraper: for a handle without a slash in which no
    "_tweets_" begins, and a time stamp without a slash, the part of the
    export's file name before the first "_tweets_" is the handle. *)
Theorem export_handle_recovered (env : export_env) (tweets : list tweet)
  (twitter_handle output_file : string) (rows : list csv_row) :
  save_to_csv_file env tweets twitter_handle = Ok (Some (output_file, rows)) ->
  clear_before "_tweets_" twitter_handle = true ->
  char_in "/" twitter_handle = false ->
  char_in "/" (now_stamp env) = false ->
  output_file
  = ("company_tweets/" ++ twitter_handle ++ "_tweets_"
     ++ now_stamp env ++ ".csv")%string
  /\ handle_of_path output_file = twitter_handle.
Proof.
  intros H Hclear Hh Hs.
  assert (output_file
          = path_join BASE_DIR
              (twitter_handle ++ "_tweets_" ++ now_stamp env ++ ".csv")%string)
    as ->.
  { unfold save_to_csv_file in H. destruct tweets; [discriminate|].
    unfold res_bind in H. repeat (case_match; simplify_eq). reflexivity. }
  rewrite path_join_base by (now apply prefix_slash).
  split; [reflexivity|].
  unfold handle_of_path, basename.
  change (basename_from ""
            ("company_tweets/" ++ twitter_handle ++ "_tweets_"
             ++ now_stamp env ++ ".csv")%string)
    with (basename_from ""
            (twitter_handle ++ "_tweets_" ++ now_stamp env ++ ".csv")%string).
  rewrite basename_from_plain.
  - change ("" ++ twitter_handle ++ "_tweets_" ++ now_stamp env ++ ".csv")%string
      with (twitter_handle ++ "_tweets_" ++ now_stamp env ++ ".csv")%string.
    unfold str_split. now rewrite split_from_head.
  - rewrite !char_in_app, Hh, Hs. reflexivity.
Qed.

Lemma export_handle_recovered_witness :
  "company_tweets/Bajaj_Finance_tweets_20250517_155120.csv"
  = ("company_tweets/" ++ "Bajaj_Finance" ++ "_tweets_"
     ++ now_stamp plain_export ++ ".csv")%string
  /\ handle_of_path "company_tweets/Bajaj_Finance_tweets_20250517_155120.csv"
     = "Bajaj_Finance".
Proof.
  apply (export_handle_recovered plain_export [sample_tweet] "Bajaj_Finance"
           "company_tweets/Bajaj_Finance_tweets_20250517_155120.csv"
           (match write_rows plain_export
                    "company_tweets/Bajaj_Finance_images_20250517_155120" 1
                    [sample_tweet]
            with Ok rows => rows | Raise _ => [] end)).
  - vm_compute. reflexivity.
  - vm_compute. reflexivity.
  - vm_compute. reflexivity.
  - vm_compute. reflexivity.
Defined.

Lemma ltb_asym (a b : string) :
  String.ltb a b = true -> String.ltb b a = false.
Proof.
  unfold String.ltb. rewrite (String.compare_antisym b a).
  destruct (String.compare a b); cbn; congruence.
Qed.

Lemma str_max_greatest (path : string) (paths : list string) :
  forall best,
    (best = path \/ String.ltb best path = true) ->
    Forall (fun p => p = path \/ String.ltb p path = true) paths ->
    (best = path \/ In path paths) ->
    str_max best paths = path.
Proof.
  induction paths as [|p paths IH]; intros best Hb Hall Hin.
  - destruct Hin as [Hin|[]]. exact Hin.
  - inversion Hall as [|? ? Hp Hrest]; subst. cbn [str_max].
    destruct (String.ltb best p) eqn:E.
    + apply IH; [exact Hp|exact Hrest|].
      destruct Hin as [->|[->|Hin]]; [|now left|now right].
      destruct Hp as [->|Hp]; [now left|].
      apply ltb_asym in Hp. congruence.
    + apply IH; [exact Hb|exact Hrest|].
      destruct Hin as [Hin|[->|Hin]]; [now left| |now right].
      destruct Hb as [Hb|Hb]; [now left|congruence].
Qed.

Lemma assoc_newest {A} (path : string) (v : A) (before after : list (string * A)) :
  Forall (fun p => String.ltb (fst p) path = true) before ->
  assoc path (before ++ (path, v) :: after) = Some v.
Proof.
  induction before as [|[k w] before IH]; intros Hall.
  - cbn [app assoc]. now rewrite String.eqb_refl.
  - inversion Hall as [|? ? Hk Hrest]; subst. cbn [app assoc].
    destruct (String.eqb path k) eqn:E; [|now apply IH].
    apply String.eqb_eq in E. subst k. cbn [fst] in Hk.
    rewrite ltb_irrefl in Hk. discriminate.
Qed.

(** With the summary [path] greater than every other summary path, the
    name lookup reads the lines of [path]. *)
Lemma get_company_name_newest (before after : summary_store) (path : string)
  (header : list string) (rows : list (list string)) (company_handle : string) :
  Forall (fun p => String.ltb (fst p) path = true) (before ++ after) ->
  get_company_name (with_newest before after path (header :: rows))
    company_handle
  = Returns (match find_company company_handle rows with
             | Some name => name
             | None => company_handle
             end).
Proof.
  intros Hall. apply Forall_app in Hall as [Hb Ha].
  assert (Forall (fun p => p = path \/ String.ltb p path = true)
                 (map fst (with_newest before after path (header :: rows))))
    as Hpaths.
  { unfold with_newest. rewrite map_app. apply Forall_app. split.
    - apply List.Forall_forall. intros p Hp.
      apply in_map_iff in Hp as (q & <- & Hq).
      rewrite List.Forall_forall in Hb. right. now apply Hb.
    - cbn [map fst]. constructor; [now left|].
      apply List.Forall_forall. intros p Hp.
      apply in_map_iff in Hp as (q & <- & Hq).
      rewrite List.Forall_forall in Ha. right. now apply Ha. }
  assert (In path (map fst (with_newest before after path (header :: rows))))
    as Hin.
  { unfold with_newest. rewrite map_app. apply in_or_app. right. now left. }
  unfold get_company_name.
  destruct (with_newest before after path (header :: rows))
    as [|[first v] rest] eqn:Es; [destruct Hin|].
  cbn [map fst] in Hpaths, Hin.
  inversion Hpaths as [|? ? Hfirst Hrest]; subst.
  rewrite (str_max_greatest path (map fst rest) first Hfirst Hrest)
    by (destruct Hin as [Hin|Hin]; [now left|now right]).
  rewrite <- Es. unfold with_newest. rewrite (assoc_newest _ _ _ _ Hb).
  now destruct (find_company company_handle rows).
Qed.

Lemma process_company_names {D} (driver : webdriver D) (w : session D)
  (c : company) (row : summary_row) :
  process_company driver w c = Ok row ->
  row_name row = name c /\ row_handle row = handle c.
Proof.
  unfold process_company, try_company, res_bind. intros H.
  repeat (case_match; simplify_eq); split; reflexivity.
Qed.

Lemma main_loop_names {D} (driver : webdriver D)
  (world : company -> session D) (companies : list company) :
  forall summary rows err,
    main_loop driver world companies summary = (rows, err) ->
    exists done rest,
      companies = done ++ rest
      /\ map (fun r => (row_name r, row_handle r)) rows
         = map (fun r => (row_name r, row_handle r)) summary
           ++ map (fun c => (name c, handle c)) done.
Proof.
  induction companies as [|c companies IH]; intros summary rows err H.
  - cbn [main_loop] in H. injection H as <- <-. exists [], [].
    split; [reflexivity|]. now rewrite app_nil_r.
  - cbn [main_loop] in H.
    destruct (process_company driver (world c) c) as [row|e] eqn:Ep.
    + destruct (IH _ _ _ H) as (done & rest & -> & Hrows).
      exists (c :: done), rest. split; [reflexivity|].
      rewrite Hrows, map_app. cbn [map].
      destruct (process_company_names _ _ _ _ Ep) as [-> ->].
      now rewrite <- app_assoc.
    + injection H as <- <-. exists [], (c :: companies).
      split; [reflexivity|]. now rewrite app_nil_r.
Qed.

Lemma find_company_first (rows : list summary_row) :
  forall r,
    NoDup (map row_handle rows) ->
    In r rows ->
    find_company (row_handle r) (map summary_line rows) = Some (row_name r).
Proof.
  induction rows as [|r0 rows IH]; intros r Hnd Hin; [destruct Hin|].
  inversion Hnd as [|? ? Hnot Hnd']; subst.
  cbn [map summary_line find_company].
  destruct (String.eqb (row_handle r0) (row_handle r)) eqn:E.
  - destruct Hin as [->|Hin]; [reflexivity|].
    apply String.eqb_eq in E. destruct Hnot. rewrite E.
    apply list_elem_of_In. now apply in_map.
  - destruct Hin as [->|Hin]; [now rewrite String.eqb_refl in E|].
    now apply IH.
Qed.

(** X25.  The merge finds the company names the scraper wrote: when the
    newest summary file holds the table written by a run of the batch
    over companies with pairwise different handles, the name looked up
    for the handle of any row of that table is the name in that row,
    also when the run ended early. *)
Theorem company_names_from_summary {D} (driver : webdriver D)
  (world : company -> session D) (companies : list company)
  (rows : list summary_row) (err : option exn)
  (before after : summary_store) (path : string) (r : summary_row) :
  main_loop driver world companies [] = (rows, err) ->
  NoDup (map handle companies) ->
  Forall (fun p => String.ltb (fst p) path = true) (before ++ after) ->
  In r rows ->
  get_company_name (with_newest before after path (summary_lines rows))
    (row_handle r)
  = Returns (row_name r)
  /\ exists c, In c companies /\ name c = row_name r /\ handle c = row_handle r.
Proof.
  intros Hrun Hnd Hall Hr.
  destruct (main_loop_names _ _ _ _ _ _ Hrun) as (done & rest & -> & Hrows).
  cbn [map app] in Hrows.
  assert (map row_handle rows = map handle done) as Hh.
  { apply (f_equal (map snd)) in Hrows. rewrite !map_map in Hrows. exact Hrows. }
  split.
  - unfold summary_lines. rewrite (get_company_name_newest _ _ _ _ _ _ Hall).
    rewrite find_company_first; [reflexivity| |exact Hr].
    rewrite Hh. rewrite map_app in Hnd. now apply NoDup_app in Hnd as [Hnd _].
  - assert (In (row_name r, row_handle r)
               (map (fun c => (name c, handle c)) done)) as Hp.
    { rewrite <- Hrows. now apply (in_map (fun r => (row_name r, row_handle r))). }
    apply in_map_iff in Hp as (c & Hc & Hin). injection Hc as Hn Hc.
    exists c. split; [apply in_or_app; now left|now split].
Qed.

Lemma company_names_from_summary_witness :
  get_company_name
    (with_newest
       [("company_tweets/company_tweets_summary_20240101_000000.csv",
         Ok ([], None))] []
       "company_tweets/company_tweets_summary_20250517_150000.csv"
       (summary_lines [empty_row tcs; empty_row infosys]))
    (row_handle (empty_row infosys))
  = Returns (row_name (empty_row infosys))
  /\ exists c, In c [tcs; infosys]
               /\ name c = row_name (empty_row infosys)
               /\ handle c = row_handle (empty_row infosys).
Proof.
  apply (company_names_from_summary scripted (quiet_world blank_page)
           [tcs; infosys] [empty_row tcs; empty_row infosys] None).
  - vm_compute. reflexivity.
  - apply (bool_decide_unpack _). vm_compute. reflexivity.
  - repeat constructor.
  - simpl. tauto.
Defined.

(** The collection of the tweets raises exactly when a name lookup
    raises, the lookups for the files before it having returned. *)
Lemma collect_tweets_raises (summary_files : summary_store)
  (csv_files : list tweet_file) :
  forall acc f,
    collect_tweets summary_files csv_files acc = Raises f
    <-> exists before file after,
          csv_files = before ++ file :: after
          /\ names_found summary_files before
          /\ get_company_name summary_files (handle_of_path (file_path file))
             = Raises f.
Proof.
  induction csv_files as [|file rest IH]; intros acc f.
  - split; [discriminate|]. intros (before & file & after & H & _).
    now destruct before.
  - cbn [collect_tweets].
    destruct (get_company_name summary_files (handle_of_path (file_path file)))
      as [company_name|f'] eqn:En.
    + assert (forall acc',
                 collect_tweets summary_files rest acc' = Raises f
                 <-> exists before file0 after,
                       file :: rest = before ++ file0 :: after
                       /\ names_found summary_files before
                       /\ get_company_name summary_files
                            (handle_of_path (file_path file0))
                          = Raises f) as Hrest.
      { intros acc'. rewrite IH. split.
        - intros (before & file0 & after & -> & Hb & Hf).
          exists (file :: before), file0, after.
          split; [reflexivity|]. split; [|exact Hf].
          constructor; [now exists company_name|exact Hb].
        - intros (before & file0 & after & Heq & Hb & Hf).
          destruct before as [|g before].
          + injection Heq as <- _. congruence.
          + injection Heq as <- ->. exists before, file0, after.
            split; [reflexivity|]. split; [|exact Hf].
            now inversion Hb. }
      destruct (file_read file) as [[fieldnames rows]|e]; [|apply Hrest].
      destruct (is_tweet_file fieldnames); apply Hrest.
    + split.
      * intros H. injection H as <-. exists [], file, rest.
        split; [reflexivity|]. split; [constructor|exact En].
      * intros (before & file0 & after & Heq & Hb & Hf).
        destruct before as [|g before].
        -- injection Heq as <- _. congruence.
        -- injection Heq as <- _. inversion Hb as [|? ? (n & Hn) _]; subst.
           congruence.
Qed.

Lemma not_comparable (l : list (gmap string (option string))) :
  sortable l = false
  <-> 2 <= length l /\ Exists (fun t => date_key t = None) l.
Proof.
  unfold sortable. rewrite orb_false_iff, Nat.ltb_ge.
  assert (forallb has_date l = false
          <-> Exists (fun t => date_key t = None) l) as ->; [|reflexivity].
  induction l as [|t l IH]; cbn [forallb].
  - split; [discriminate|]. intros H. inversion H.
  - rewrite andb_false_iff, IH. unfold has_date at 1. split.
    + intros [H|H]; [left|now right]. now destruct (date_key t).
    + intros H. inversion H as [? ? Ht|? ? Hl]; subst; [left|now right].
      now rewrite Ht.
Qed.

Lemma leb_ltb_false (a b : string) :
  String.leb b a = true -> String.ltb a b = false.
Proof.
  unfold String.ltb, String.leb. rewrite (String.compare_antisym a b).
  destruct (String.compare b a); cbn; congruence.
Qed.

Lemma str_max_ge (paths : list string) :
  forall best,
    String.leb best (str_max best paths) = true
    /\ Forall (fun p => String.leb p (str_max best paths) = true) paths.
Proof.
  induction paths as [|p rest IH]; intros best; cbn [str_max].
  - split; [|constructor]. apply ltb_false_leb, ltb_irrefl.
  - destruct (String.ltb best p) eqn:E.
    + destruct (IH p) as [Hp Hrest]. split.
      * apply (leb_trans _ p); [now apply ltb_leb|exact Hp].
      * now constructor.
    + destruct (IH best) as [Hb Hrest]. split; [exact Hb|].
      constructor; [|exact Hrest].
      apply (leb_trans _ best); [now apply ltb_false_leb|exact Hb].
Qed.

Lemma str_max_bound {A} (first : string) (v : A) (rest : list (string * A)) :
  Forall (fun p => String.ltb (str_max first (map fst rest)) (fst p) = false)
         ((first, v) :: rest).
Proof.
  destruct (str_max_ge (map fst rest) first) as [Hf Hrest].
  constructor; [now apply leb_ltb_false|].
  apply List.Forall_forall. intros q Hq. apply leb_ltb_false.
  rewrite List.Forall_forall in Hrest. apply Hrest. now apply in_map.
Qed.

Lemma assoc_In {A} (key : string) (l : list (string * A)) (v : A) :
  assoc key l = Some v -> In (key, v) l.
Proof.
  induction l as [|[k w] l IH]; [discriminate|]. cbn [assoc].
  destruct (String.eqb key k) eqn:E; intros H.
  - apply String.eqb_eq in E. subst k. injection H as <-. now left.
  - right. now apply IH.
Qed.

(** Where a name lookup that raises finds its fault: in the summary
    file with the greatest path, which cannot be opened, has no line at
    all, or cannot be read up to a line of the handle. *)
Lemma get_company_name_raises (summary_files : summary_store)
  (company_handle : string) (f : merge_fault) :
  get_company_name summary_files company_handle = Raises f ->
  exists summary_file content,
    In (summary_file, content) summary_files
    /\ Forall (fun p => String.ltb summary_file (fst p) = false) summary_files
    /\ ((exists e, content = Raise e /\ f = ReadFault e)
        \/ (content = Ok ([], None) /\ f = StopIteration)
        \/ (exists header rows e,
              content = Ok (header ++ rows, Some e)
              /\ length header <= 1
              /\ find_company company_handle rows = None
              /\ f = ReadFault e)).
Proof.
  unfold get_company_name. intros H.
  destruct summary_files as [|[first v] rest]; [discriminate|].
  destruct (assoc (str_max first (map fst rest)) ((first, v) :: rest))
    as [content|] eqn:Ea; [|discriminate].
  exists (str_max first (map fst rest)), content.
  split; [now apply assoc_In|]. split; [apply str_max_bound|].
  destruct content as [[[|header rows] [e|]]|e]; try discriminate.
  - right. right. exists [], [], e. injection H as <-.
    repeat split. cbn. lia.
  - right. left. injection H as <-. now split.
  - destruct (find_company company_handle rows) eqn:Ef; [discriminate|].
    injection H as <-. right. right. exists [header], rows, e.
    repeat split; [cbn; lia|exact Ef].
  - destruct (find_company company_handle rows); discriminate.
  - left. exists e. injection H as <-. now split.
Qed.

(** X26.  When the merge as a whole fails: exactly when a file is left
    to merge and the name lookup raises for one of the files, the
    lookups before it having returned; or the tweets are collected and
    the sort raises [TypeError], there being two tweets or more and one
    of them with a [Date] that is [None] (a line shorter than the
    header); or the tweets are collected, their dates can be compared
    and the output file cannot be opened or written.  A name lookup
    raises only on the summary file with the greatest path: it cannot
    be opened, it has no line at all ([StopIteration]), or its reading
    stops with an exception before a line with the handle.  A tweet
    file that cannot be read never makes the merge fail: it is passed
    over. *)
Theorem summary_fault_aborts_merge (summary_files : summary_store)
  (found : list tweet_file) (output : res unit) (f : merge_fault) :
  (merge_csv_files summary_files found output = Raises f
   <-> (exists before file after,
          List.filter not_summary found = before ++ file :: after
          /\ names_found summary_files before
          /\ get_company_name summary_files (handle_of_path (file_path file))
             = Raises f)
       \/ (exists all_tweets,
             List.filter not_summary found <> []
             /\ collect_tweets summary_files (List.filter not_summary found) []
                = Returns all_tweets
             /\ ((f = DateTypeError
                  /\ 2 <= length all_tweets
                  /\ Exists (fun t => date_key t = None) all_tweets)
                 \/ (dates_comparable all_tweets
                     /\ exists e, output = Raise e /\ f = WriteFault e))))
  /\ (forall company_handle,
         get_company_name summary_files company_handle = Raises f ->
         exists summary_file content,
           In (summary_file, content) summary_files
           /\ Forall (fun p => String.ltb summary_file (fst p) = false)
                     summary_files
           /\ ((exists e, content = Raise e /\ f = ReadFault e)
               \/ (content = Ok ([], None) /\ f = StopIteration)
               \/ (exists header rows e,
                     content = Ok (header ++ rows, Some e)
                     /\ length header <= 1
                     /\ find_company company_handle rows = None
                     /\ f = ReadFault e)))
  /\ (forall file rest acc company_name e,
         get_company_name summary_files (handle_of_path (file_path file))
         = Returns company_name ->
         file_read file = Raise e ->
         collect_tweets summary_files (file :: rest) acc
         = collect_tweets summary_files rest acc).
Proof.
  split; [|split].
  - unfold merge_csv_files, sort_newest_first.
    destruct (List.filter not_summary found) as [|f0 fs] eqn:Ef.
    { split; [discriminate|]. intros [(before & ? & ? & H & _)|(? & H & _)];
        [now destruct before|now destruct H]. }
    pose proof (collect_tweets_raises summary_files (f0 :: fs) [] f) as Hraise.
    destruct (collect_tweets summary_files (f0 :: fs) []) as [all_tweets|f']
      eqn:Ec.
    + assert (~ exists before file after,
                  f0 :: fs = before ++ file :: after
                  /\ names_found summary_files before
                  /\ get_company_name summary_files
                       (handle_of_path (file_path file)) = Raises f) as Hno.
      { intros H. apply Hraise in H. discriminate. }
      clear Hraise.
      destruct (sortable all_tweets) eqn:Es.
      * destruct output as [[]|e].
        -- split; [discriminate|]. intros [H|(a & _ & Ha & [H|H])].
           ++ now destruct Hno.
           ++ injection Ha as <-. destruct H as (_ & H).
              apply not_comparable in H. congruence.
           ++ now destruct H as (_ & e & He & _).
        -- split.
           ++ intros H. injection H as <-. right. exists all_tweets.
              split; [discriminate|]. split; [reflexivity|]. right.
              split; [now apply sortable_comparable|]. now exists e.
           ++ intros [H|(a & _ & Ha & [H|H])].
              ** now destruct Hno.
              ** injection Ha as <-. destruct H as (_ & H).
                 apply not_comparable in H. congruence.
              ** destruct H as (_ & e' & He & ->). now injection He as <-.
      * split.
        -- intros H. injection H as <-. right. exists all_tweets.
           split; [discriminate|]. split; [reflexivity|]. left.
           split; [reflexivity|]. now apply not_comparable.
        -- intros [H|(a & _ & Ha & [H|H])].
           ++ now destruct Hno.
           ++ now destruct H as [-> _].
           ++ injection Ha as <-. destruct H as (H & _).
              apply sortable_comparable in H. congruence.
    + split.
      * intros H. injection H as <-. left. now apply Hraise.
      * intros [H|(a & _ & Ha & _)]; [|discriminate].
        apply (collect_tweets_raises summary_files (f0 :: fs) []) in H.
        congruence.
  - intros company_handle. apply get_company_name_raises.
  - intros file rest acc company_name e Hn Hr. cbn [collect_tweets].
    now rewrite Hn, Hr.
Qed.

Lemma summary_fault_aborts_merge_witness :
  merge_csv_files
    [("company_tweets/company_tweets_summary_20250517_150000.csv",
      Ok ([], None))]
    [tcs_file] (Ok tt)
  = Raises StopIteration
  /\ merge_csv_files sample_summaries [tcs_file; short_line_file] (Ok tt)
     = Raises DateTypeError
  /\ merge_csv_files sample_summaries [tcs_file]
       (Raise (Exn OSError "Permission denied"))
     = Raises (WriteFault (Exn OSError "Permission denied"))
  /\ merge_csv_files damaged_summaries [tcs_file; infosys_file] (Ok tt)
     = Raises (ReadFault (Exn ValueError "invalid start byte")).
Proof.
  split; [|split; [|split]].
  - apply (proj2 (proj1 (summary_fault_aborts_merge
                    [("company_tweets/company_tweets_summary_20250517_150000.csv",
                      Ok ([], None))]
                    [tcs_file] (Ok tt) StopIteration))).
    left. exists [], tcs_file, []. split; [reflexivity|].
    split; [constructor|reflexivity].
  - apply (proj2 (proj1 (summary_fault_aborts_merge sample_summaries
                           [tcs_file; short_line_file] (Ok tt) DateTypeError))).
    right. eexists. split; [vm_compute; discriminate|].
    split; [reflexivity|]. left. split; [reflexivity|].
    split; [simpl; lia|]. do 3 apply Exists_cons_tl. apply Exists_cons_hd.
    reflexivity.
  - apply (proj2 (proj1 (summary_fault_aborts_merge sample_summaries
                           [tcs_file] (Raise (Exn OSError "Permission denied"))
                           (WriteFault (Exn OSError "Permission denied"))))).
    right. eexists. split; [vm_compute; discriminate|].
    split; [reflexivity|]. right.
    split; [right; repeat constructor; eexists; reflexivity|].
    eexists. split; reflexivity.
  - apply (proj2 (proj1 (summary_fault_aborts_merge damaged_summaries
                           [tcs_file; infosys_file] (Ok tt)
                           (ReadFault (Exn ValueError "invalid start byte"))))).
    left. exists [tcs_file], infosys_file, []. split; [reflexivity|].
    split; [repeat constructor; eexists; reflexivity|reflexivity].
Defined.

Lemma str_lower_app (a b : string) :
  str_lower (a ++ b)%string = (str_lower a ++ str_lower b)%string.
Proof.
  induction a as [|c a IH]; [reflexivity|].
  rewrite append_cons. cbn [str_lower]. now rewrite IH.
Qed.

Lemma prefix_app_l (sub a b : string) :
  String.prefix sub a = true -> String.prefix sub (a ++ b)%string = true.
Proof.
  revert a. induction sub as [|x sub IH]; intros a H.
  - now destruct (a ++ b)%string.
  - destruct a as [|y a]; [discriminate|].
    rewrite append_cons. cbn [String.prefix] in *.
    destruct (ascii_dec x y); [now apply IH|discriminate].
Qed.

Lemma str_in_app_l (sub a b : string) :
  str_in sub a = true -> str_in sub (a ++ b)%string = true.
Proof.
  induction a as [|c a IH]; intros H.
  - cbn [str_in] in H. rewrite orb_false_r in H.
    apply str_in_prefix. now apply (prefix_app_l sub "" b).
  - cbn [str_in] in H. apply orb_true_iff in H as [H|H].
    + apply str_in_prefix. now apply prefix_app_l.
    + rewrite append_cons. cbn [str_in]. rewrite (IH H). apply orb_true_r.
Qed.

(** X27.  The scraper's own summary file is found by the merge's file
    pattern but never merged: whatever the time stamp in its name and
    wherever it stands among the files found, the summary filter
    removes it. *)
Theorem scraper_summary_not_merged (summary_files : summary_store)
  (f : tweet_file) (found : list tweet_file) (stamp : string) :
  file_path f
  = path_join BASE_DIR ("company_tweets_summary_" ++ stamp ++ ".csv")%string ->
  not_summary f = false
  /\ forall (pre : list tweet_file) (output : res unit),
       merge_csv_files summary_files (pre ++ f :: found) output
       = merge_csv_files summary_files (pre ++ found) output.
Proof.
  intros Hpath.
  assert (not_summary f = false) as Hn.
  { unfold not_summary. rewrite Hpath, path_join_base by reflexivity.
    apply negb_false_iff.
    rewrite <- (append_assoc "company_tweets/" "company_tweets_summary_").
    rewrite str_lower_app. apply str_in_app_l. reflexivity. }
  split; [exact Hn|]. intros pre output.
  unfold merge_csv_files. rewrite !List.filter_app. cbn [List.filter].
  now rewrite Hn.
Qed.

Lemma scraper_summary_not_merged_witness :
  not_summary summary_file_found = false
  /\ forall (pre : list tweet_file) (output : res unit),
       merge_csv_files sample_summaries
         (pre ++ summary_file_found :: [tcs_file]) output
       = merge_csv_files sample_summaries (pre ++ [tcs_file]) output.
Proof.
  apply (scraper_summary_not_merged sample_summaries summary_file_found
           [tcs_file] "20250517_150000").
  reflexivity.
Defined.

(** ** Logging in *)

Lemma login_steps_true {D} (driver : webdriver D) (keys : keyboard D)
  (username password : string) (d d' : D) (b : bool) :
  login_steps driver keys username password d = (Ok b, d') -> b = true.
Proof.
  unfold login_steps, bind, ret. intros H.
  repeat (case_match; simplify_eq). reflexivity.
Qed.

(** X28.  Without the answer "y" (in any case, surrounded by any white
    space), or with a blank user name or an empty password, the login
    answers [False] and leaves the browser as it was; an exception of
    the first prompt leaves the function. *)
Theorem login_declined {D} (driver : webdriver D) (keys : keyboard D)
  (user : console) (d : D) :
  (forall a, input_choice user = Ok a ->
             str_lower (str_strip a) <> "y" ->
             twitter_login driver keys user d = (Ok false, d))
  /\ (forall a u p,
         input_choice user = Ok a ->
         input_username user = Ok u ->
         getpass_password user = Ok p ->
         str_strip u = "" \/ p = "" ->
         twitter_login driver keys user d = (Ok false, d))
  /\ (forall e, input_choice user = Raise e ->
                twitter_login driver keys user d = (Raise e, d)).
Proof.
  unfold twitter_login. split; [|split].
  - intros a -> Ha.
    destruct (String.eqb_spec (str_lower (str_strip a)) "y") as [E|_];
      [now destruct Ha|reflexivity].
  - intros a u p -> -> -> Hblank.
    destruct (negb (String.eqb (str_lower (str_strip a)) "y")); [reflexivity|].
    destruct Hblank as [-> | ->]; [reflexivity|].
    now rewrite orb_true_r.
  - now intros e ->.
Qed.

Lemma login_declined_witness :
  twitter_login scripted typist declining_user blank_page
  = (Ok false, blank_page).
Proof.
  apply (proj1 (login_declined scripted typist declining_user blank_page) " N ").
  - reflexivity.
  - vm_compute. discriminate.
Defined.

(** X29.  Nothing the browser does during the login reaches the
    caller: once the three prompts are answered the login returns a
    boolean, and that boolean is [True] exactly when the answer was
    "y", both credentials were given and every step up to the wait for
    the home link succeeded; the browser is left in the state the steps
    led to. *)
Theorem login_faults_absorbed {D} (driver : webdriver D) (keys : keyboard D)
  (user : console) (d : D) (a u p : string) :
  input_choice user = Ok a ->
  input_username user = Ok u ->
  getpass_password user = Ok p ->
  exists b d',
    twitter_login driver keys user d = (Ok b, d')
    /\ (b = true
        <-> str_lower (str_strip a) = "y"
            /\ str_strip u <> "" /\ p <> ""
            /\ login_steps driver keys (str_strip u) p d = (Ok true, d')).
Proof.
  intros Ha Hu Hp. unfold twitter_login. rewrite Ha, Hu, Hp.
  destruct (String.eqb_spec (str_lower (str_strip a)) "y") as [E|E]; cbn [negb].
  2:{ exists false, d. split; [reflexivity|]. split; [discriminate|].
      intros [E' _]. now destruct E. }
  destruct (str_strip u) as [|c u'] eqn:Eu.
  { exists false, d. split; [reflexivity|]. split; [discriminate|].
    intros (_ & Hne & _). now destruct Hne. }
  destruct p as [|c' p'].
  { exists false, d. split; [reflexivity|]. split; [discriminate|].
    intros (_ & _ & Hne & _). now destruct Hne. }
  cbn [str_nonempty negb orb].
  destruct (login_steps driver keys (String c u') (String c' p') d)
    as [[b|e] d'] eqn:Es.
  - exists b, d'. split; [reflexivity|].
    pose proof (login_steps_true _ _ _ _ _ _ _ Es) as ->.
    split; [|reflexivity]. intros _. repeat split; try discriminate; assumption.
  - exists false, d'. split; [reflexivity|]. split; [discriminate|].
    intros (_ & _ & _ & Hs). discriminate.
Qed.

Lemma login_faults_absorbed_witness :
  exists b d',
    twitter_login scripted typist typing_user blank_page = (Ok b, d')
    /\ (b = true
        <-> str_lower (str_strip " Y ") = "y"
            /\ str_strip " alice " <> "" /\ "secret" <> ""
            /\ login_steps scripted typist (str_strip " alice ") "secret"
                 blank_page
               = (Ok true, d')).
Proof.
  apply (login_faults_absorbed scripted typist typing_user blank_page
           " Y " " alice " "secret"); reflexivity.
Defined.
